(** * Seats: the browser client of the seat-hold system

    A shallow embedding of the client's seat-state logic
    ([frontend/src/App.tsx], [frontend/src/lib/api.ts],
    [frontend/src/components/SeatMap.tsx], [frontend/src/types.ts]) and the
    properties its specification states about it.

    Conventions of the embedding.
    - A JavaScript object used as a dictionary ([Record<number, Record<string,
      Seat>>]) is a [gmap]; seat ids are assumed not to collide with the
      member names of [Object.prototype].
    - Object identity matters to the reducer in one place only, the test
      [next === existing]; a patch function therefore answers with a
      [PatchResult] that says whether it returned [undefined], its own
      argument, or another object.
    - The JavaScript runtime (numbers, [Number], [Date]) is a parameter, the
      class [JsRuntime]; [intRuntime] is one concrete runtime on which the
      definitions evaluate.
    - Time is explicit: [Date.now()] is the [now] handed to the reducer and
      the clock of the [World] that runs a handler. *)

From Stdlib Require Import ZArith String Ascii List Bool Lia DecimalString DecimalPos DecimalZ.
From stdpp Require Import base option list gmap strings fin_maps.

Local Open Scope Z_scope.

(** ** JSON values

    [JObj] lists the own properties of an object in order; a request body is
    kept as the value handed to [JSON.stringify]. *)

#[local] Set Warnings "-register-all".

Inductive json (N : Type) : Type :=
| JNull
| JBool (b : bool)
| JNum (n : N)
| JStr (s : string)
| JArr (items : list (json N))
| JObj (props : list (string * json N)).
Arguments JNull {N}.
Arguments JBool {N} b.
Arguments JNum {N} n.
Arguments JStr {N} s.
Arguments JArr {N} items.
Arguments JObj {N} props.

(** ** The JavaScript runtime *)

Class JsRuntime := {
  (** JavaScript numbers, as far as the client uses them: floor keys and the
      numeric fields of a seat, which it only passes through. *)
  number : Type;
  number_eq_dec :: EqDecision number;
  number_countable :: Countable number;
  (** the literal [1] *)
  num_one : number;
  (** [Number(s)] *)
  Number_ : string -> number;
  (** [Number.isFinite(n)] *)
  Number_isFinite : number -> bool;
  (** [`${n}`] *)
  Number_toString : number -> string;
  (** the time value of [new Date(s)], [None] for an invalid date *)
  Date_parse : string -> option Z;
  (** [new Date(t).toISOString()] for a valid time value [t] *)
  Date_toISOString : Z -> string;
  (** [JSON.parse(s)], [None] when it throws *)
  JSON_parse : string -> option (json number);
  (** [import.meta.env.VITE_API_BASE ?? ''] *)
  API_BASE : string
}.

(** A returned value or a thrown [Error] with its message. *)
Inductive outcome (A : Type) : Type :=
| Ok (a : A)
| Err (message : string).
Arguments Ok {A} a.
Arguments Err {A} message.

(** ** Data model ([types.ts])

    Field names that several interfaces share carry a prefix here: [p_] for
    the admin payload, [r_] for the seats response, [ev_] for the payload of
    a [seat_update] frame. *)

Inductive SeatStatus := AVAILABLE | HOLD | SOLD | BLOCKED.

Definition SeatStatus_eqb (a b : SeatStatus) : bool :=
  match a, b with
  | AVAILABLE, AVAILABLE | HOLD, HOLD | SOLD, SOLD | BLOCKED, BLOCKED => true
  | _, _ => false
  end.

Record SeatHoldInfo := {
  client_id : string;
  expires_at : string
}.

(** [hold?: SeatHoldInfo | null]: the property may be missing, [null], or an
    object. *)
Inductive HoldField :=
| HoldUndefined
| HoldNull
| HoldInfo (h : SeatHoldInfo).

Section Model.
Context `{JsRuntime}.

Record Seat := {
  seat_id : string;
  floor : number;
  excel_row : number;
  excel_col : number;
  layout_row : option number;
  layout_col : option number;
  zone : string;
  tier : option string;
  price : number;
  status : SeatStatus;
  updated_at : string;
  hold : HoldField
}.

(** [AdminSeatUpdatePayload]: every property is optional ([None]); [tier]
    and [price] may also be [null] ([Some None]). *)
Record AdminSeatUpdatePayload := {
  p_status : option SeatStatus;
  p_tier : option (option string);
  p_price : option (option number)
}.

Record AdminSeatBulkResponse := {
  updated : list Seat;
  missing : list string
}.

Record SeatsResponse := {
  r_floor : number;
  seats : list Seat;
  generated_at : string
}.

Record HoldResponse := {
  held : list string;
  refreshed : list string;
  conflicts : list string;
  expire_at : option string
}.

Record ReleaseResponse := {
  released : list string
}.

Record ConfirmResponse := {
  confirmed : list string;
  skipped : list string
}.

(** The payload of a [seat_update] frame. *)
Record SeatUpdatePayload := {
  ev_seat_id : string;
  ev_from : SeatStatus;
  ev_to : SeatStatus;
  ev_by : option string;
  ev_at : string
}.

(** ** [App.tsx]: constants and helpers *)

Definition HOLD_TTL_SECONDS : Z := 120.

(** [seatId.split('-')[0]]: the text before the first separator. *)
Fixpoint splitFirst (sep : ascii) (s : string) : string :=
  match s with
  | EmptyString => EmptyString
  | String c rest => if Ascii.eqb c sep then EmptyString else String c (splitFirst sep rest)
  end.

Definition seatIdToFloor (seatId : string) : number :=
  let floor := splitFirst "-"%char seatId in
  let parsed := Number_ floor in
  if Number_isFinite parsed then parsed else num_one.

(** JavaScript truthiness of a string. *)
Definition truthy (s : string) : bool :=
  match s with
  | EmptyString => false
  | _ => true
  end.

Definition getExpireAtOrDefault (now : Z) (expireAt : option string) : string :=
  match expireAt with
  | Some e => if truthy e then e else Date_toISOString (now + HOLD_TTL_SECONDS * 1000)
  | None => Date_toISOString (now + HOLD_TTL_SECONDS * 1000)
  end.

(** ** The seat reducer *)

(** What a patch function hands back, as the reducer can tell it apart. *)
Inductive PatchResult :=
| PUndefined               (* [undefined] *)
| PSame                    (* the very object (or [undefined]) it was given *)
| PFresh (next : Seat)     (* any other seat object *)
| PThrow (message : string).

Record SeatUpdate := {
  seatId : string;
  (** the first argument is [Date.now()] at the time the reducer runs *)
  patch : Z -> option Seat -> PatchResult
}.

Inductive SeatAction :=
| SET_SEATS (floor : number) (seats : list Seat)
| PATCH_SEATS (floor : number) (updates : list SeatUpdate).

Abbreviation FloorMap := (gmap string Seat).
Abbreviation SeatState := (gmap number (gmap string Seat)).

(** [action.seats.forEach((seat) => { map[seat.seat_id] = seat; })] *)
Definition seatsToMap (l : list Seat) : FloorMap :=
  fold_left (fun map seat => <[seat_id seat := seat]> map) l ∅.

(** The [for] loop of [PATCH_SEATS]: [existing] is read from the floor map
    the action started from, writes go to the copy. *)
Fixpoint patchLoop (now : Z) (currentFloorMap : FloorMap) (updates : list SeatUpdate)
    (nextFloorMap : FloorMap) (changed : bool) : outcome (FloorMap * bool) :=
  match updates with
  | [] => Ok (nextFloorMap, changed)
  | update :: rest =>
      let existing := currentFloorMap !! seatId update in
      match patch update now existing with
      | PThrow e => Err e
      | PUndefined => patchLoop now currentFloorMap rest nextFloorMap changed
      | PSame => patchLoop now currentFloorMap rest nextFloorMap changed
      | PFresh next =>
          patchLoop now currentFloorMap rest (<[seatId update := next]> nextFloorMap) true
      end
  end.

Definition seatReducer (now : Z) (state : SeatState) (action : SeatAction) : outcome SeatState :=
  match action with
  | SET_SEATS floor seats => Ok (<[floor := seatsToMap seats]> state)
  | PATCH_SEATS floor updates =>
      match state !! floor with
      | None => Ok state
      | Some currentFloorMap =>
          match patchLoop now currentFloorMap updates currentFloorMap false with
          | Err e => Err e
          | Ok (nextFloorMap, changed) =>
              if changed then Ok (<[floor := nextFloorMap]> state) else Ok state
          end
      end
  end.

(** ** The live subscription ([subscribeSeatUpdates]'s [onUpdate]) *)

(** [{ ...seat, status, hold, updated_at }] *)
Definition spreadSeat (seat : Seat) (status' : SeatStatus) (hold' : HoldField)
    (updated_at' : string) : Seat :=
  {| seat_id := seat_id seat;
     floor := floor seat;
     excel_row := excel_row seat;
     excel_col := excel_col seat;
     layout_row := layout_row seat;
     layout_col := layout_col seat;
     zone := zone seat;
     tier := tier seat;
     price := price seat;
     status := status';
     updated_at := updated_at';
     hold := hold' |}.

(** [seat.hold?.client_id] and [seat.hold?.expires_at] *)
Definition hold_client_id (seat : Seat) : option string :=
  match hold seat with
  | HoldInfo h => Some (client_id h)
  | _ => None
  end.

Definition hold_expires_at (seat : Seat) : option string :=
  match hold seat with
  | HoldInfo h => Some (expires_at h)
  | _ => None
  end.

(** [by === clientId && seat.hold?.expires_at]: the retained expiry when the
    condition is truthy. *)
Definition ownExpiry (clientId : string) (by_ : option string) (seat : Seat) : option string :=
  match by_ with
  | Some b =>
      if String.eqb b clientId then
        match hold_expires_at seat with
        | Some e => if truthy e then Some e else None
        | None => None
        end
      else None
  | None => None
  end.

(** The [next] seat the patch of [onUpdate] builds from an existing seat;
    [at_] is the time value of [new Date(at)]. *)
Definition onUpdateNext (clientId : string) (payload : SeatUpdatePayload)
    (now at_ : Z) (seat : Seat) : Seat :=
  let to := ev_to payload in
  let by_ := ev_by payload in
  let next_hold :=
    if SeatStatus_eqb to HOLD then
      HoldInfo
        {| client_id :=
             match by_ with
             | Some b => b
             | None => default "unknown" (hold_client_id seat)
             end;
           expires_at :=
             match ownExpiry clientId by_ seat with
             | Some e => e
             | None => getExpireAtOrDefault now None
             end |}
    else HoldNull in
  let next_hold := if SeatStatus_eqb to SOLD then HoldNull else next_hold in
  spreadSeat seat to next_hold (Date_toISOString at_).

(** [new Date(at).toISOString()] throws a [RangeError] on an invalid date. *)
Definition onUpdatePatch (clientId : string) (payload : SeatUpdatePayload)
    (now : Z) (seat : option Seat) : PatchResult :=
  match seat with
  | None => PSame
  | Some seat =>
      match Date_parse (ev_at payload) with
      | None => PThrow "Invalid time value"
      | Some at_ => PFresh (onUpdateNext clientId payload now at_ seat)
      end
  end.

Definition onUpdate (clientId : string) (payload : SeatUpdatePayload) : SeatAction :=
  let seat_id := ev_seat_id payload in
  let seatFloor := seatIdToFloor seat_id in
  PATCH_SEATS seatFloor [ {| seatId := seat_id; patch := onUpdatePatch clientId payload |} ].

(** ** [lib/api.ts] *)

(** The arguments of one call of [fetch]. *)
Record FetchCall := {
  url : string;
  method : option string;
  headers : list (string * string);
  body : option (json number)
}.

Record RequestInit := {
  init_method : option string;
  init_headers : option (list (string * string));
  init_body : option (json number)
}.

(** [target[k] = v] on an object kept as its list of properties *)
Fixpoint setProp (target : list (string * string)) (k v : string) : list (string * string) :=
  match target with
  | [] => [(k, v)]
  | (k', v') :: rest =>
      if String.eqb k' k then (k', v) :: rest else (k', v') :: setProp rest k v
  end.

(** [{ ...target, ...source }] *)
Definition spreadProps (target source : list (string * string)) : list (string * string) :=
  fold_left (fun t kv => setProp t kv.1 kv.2) source target.

(** An object literal under [JSON.stringify]: a property whose value is
    [undefined] is left out. *)
Definition jsObject (props : list (string * option (json number))) : json number :=
  JObj (omap (fun kv => match kv.2 with Some v => Some (kv.1, v) | None => None end) props).

Definition request (path : string) (init : option RequestInit) : FetchCall :=
  {| url := API_BASE +:+ path;
     method := init ≫= init_method;
     headers :=
       spreadProps [("Content-Type", "application/json")] (default [] (init ≫= init_headers));
     body := init ≫= init_body |}.

Definition statusName (s : SeatStatus) : string :=
  match s with
  | AVAILABLE => "AVAILABLE"
  | HOLD => "HOLD"
  | SOLD => "SOLD"
  | BLOCKED => "BLOCKED"
  end.

Definition jsonOfNullable {A} (f : A -> json number) (v : option A) : json number :=
  match v with
  | Some a => f a
  | None => JNull
  end.

Definition jsonIds (seatIds : list string) : json number := JArr (map JStr seatIds).

(** The endpoints, each with the type its response is cast to. *)
Inductive Api : Type -> Type :=
| fetchSeats (floor : number) : Api SeatsResponse
| holdSeats (seatIds : list string) (clientId : string) : Api HoldResponse
| releaseSeats (seatIds : option (list string)) (clientId : string) : Api ReleaseResponse
| confirmSeats (seatIds : list string) (clientId requestId : string) : Api ConfirmResponse
| adminUpdateSeat (seatId : string) (payload : AdminSeatUpdatePayload) (adminToken : string)
    : Api Seat
| adminBulkUpdateSeats (seatIds : list string) (payload : AdminSeatUpdatePayload)
    (adminToken : string) : Api AdminSeatBulkResponse.

Definition payloadProps (payload : AdminSeatUpdatePayload)
    : list (string * option (json number)) :=
  [ ("status", (fun s => JStr (statusName s)) <$> p_status payload);
    ("tier", jsonOfNullable JStr <$> p_tier payload);
    ("price", jsonOfNullable JNum <$> p_price payload) ].

(** The [fetch] each function of [api.ts] performs. *)
Definition fetchOf {X} (call : Api X) : FetchCall :=
  match call with
  | fetchSeats floor => request ("/api/seats?floor=" +:+ Number_toString floor) None
  | holdSeats seatIds clientId =>
      request "/api/hold"
        (Some {| init_method := Some "POST";
                 init_headers := None;
                 init_body :=
                   Some (jsObject [ ("seat_ids", Some (jsonIds seatIds));
                                    ("client_id", Some (JStr clientId)) ]) |})
  | releaseSeats seatIds clientId =>
      request "/api/release"
        (Some {| init_method := Some "POST";
                 init_headers := None;
                 init_body :=
                   Some (jsObject [ ("seat_ids", jsonIds <$> seatIds);
                                    ("client_id", Some (JStr clientId)) ]) |})
  | confirmSeats seatIds clientId requestId =>
      request "/api/confirm"
        (Some {| init_method := Some "POST";
                 init_headers := None;
                 init_body :=
                   Some (jsObject [ ("seat_ids", Some (jsonIds seatIds));
                                    ("client_id", Some (JStr clientId));
                                    ("request_id", Some (JStr requestId)) ]) |})
  | adminUpdateSeat seatId payload adminToken =>
      request ("/api/admin/seats/" +:+ seatId)
        (Some {| init_method := Some "PATCH";
                 init_headers := Some [ ("X-Admin-Token", adminToken) ];
                 init_body := Some (jsObject (payloadProps payload)) |})
  | adminBulkUpdateSeats seatIds payload adminToken =>
      request "/api/admin/seats/bulk"
        (Some {| init_method := Some "POST";
                 init_headers := Some [ ("X-Admin-Token", adminToken) ];
                 init_body :=
                   Some (jsObject (("seat_ids", Some (jsonIds seatIds)) :: payloadProps payload)) |})
  end.

(** ** Event handlers as programs

    A handler of [App.tsx] is an [async] function: it awaits requests,
    dispatches actions to the reducer, reads the clock and calls state
    setters.  [Prog] is the tree of those steps. *)

Inductive Tone := ToneError | ToneSuccess.

(** The state setters and UI calls the handlers make. *)
Inductive Ui :=
| ShowMessage (text : string) (tone : Tone)
| SetAdminSaving (b : bool)
| SetReleasing (b : bool)
| SetHolding (b : bool)
| SetConfirming (b : bool)
| SetAdminActiveSeatId (seatId : string)
| AddAdminSelectedSeatId (seatId : string)
| AdminToggleSeat (seatId : string).

Inductive Prog (A : Type) : Type :=
| Ret (a : A)
| Throw (message : string)
| Await {X : Type} (call : Api X) (k : outcome X -> Prog A)
| Dispatch (action : SeatAction) (k : Prog A)
| DateNow (k : Z -> Prog A)
| Emit (u : Ui) (k : Prog A).
#[global] Arguments Ret {A} a.
#[global] Arguments Throw {A} message.
#[global] Arguments Await {A X} call k.
#[global] Arguments Dispatch {A} action k.
#[global] Arguments DateNow {A} k.
#[global] Arguments Emit {A} u k.

Fixpoint bind {A B} (p : Prog A) (f : A -> Prog B) : Prog B :=
  match p with
  | Ret a => f a
  | Throw e => Throw e
  | Await call k => Await call (fun r => bind (k r) f)
  | Dispatch action k => Dispatch action (bind k f)
  | DateNow k => DateNow (fun t => bind (k t) f)
  | Emit u k => Emit u (bind k f)
  end.

#[global] Instance Prog_ret : MRet Prog := @Ret.
#[global] Instance Prog_bind : MBind Prog := fun A B f p => bind p f.

(** [await call]: a rejected promise throws. *)
Definition await {X} (call : Api X) : Prog X :=
  Await call (fun r => match r with Ok x => Ret x | Err e => Throw e end).

Definition dispatch (action : SeatAction) : Prog unit := Dispatch action (Ret tt).
Definition emit (u : Ui) : Prog unit := Emit u (Ret tt).
Definition dateNow : Prog Z := DateNow Ret.

(** [try { p } catch (error) { handler(error.message) }] *)
Fixpoint tryCatch {A} (p : Prog A) (handler : string -> Prog A) : Prog A :=
  match p with
  | Ret a => Ret a
  | Throw e => handler e
  | Await call k => Await call (fun r => tryCatch (k r) handler)
  | Dispatch action k => Dispatch action (tryCatch k handler)
  | DateNow k => DateNow (fun t => tryCatch (k t) handler)
  | Emit u k => Emit u (tryCatch k handler)
  end.

(** [try { p } finally { fin }] *)
Fixpoint finally_ {A} (p : Prog A) (fin : Prog unit) : Prog A :=
  match p with
  | Ret a => fin;; Ret a
  | Throw e => fin;; Throw e
  | Await call k => Await call (fun r => finally_ (k r) fin)
  | Dispatch action k => Dispatch action (finally_ k fin)
  | DateNow k => DateNow (fun t => finally_ (k t) fin)
  | Emit u k => Emit u (finally_ k fin)
  end.

Fixpoint forEach {X} (l : list X) (f : X -> Prog unit) : Prog unit :=
  match l with
  | [] => Ret tt
  | x :: rest => f x;; forEach rest f
  end.

(** [when_ c p]: [if (c) { p }] *)
Definition when_ (c : bool) (p : Prog unit) : Prog unit := if c then p else Ret tt.

Definition nonEmpty {X} (l : list X) : bool :=
  match l with
  | [] => false
  | _ => true
  end.

(** [ToString] of an integer-valued number below 10^21 in magnitude
    ([Date.now()], an array length). *)
Definition intToString (z : Z) : string := NilZero.string_of_int (Z.to_int z).

(** [l.join(', ')] *)
Definition joinComma (l : list string) : string := String.concat ", " l.

(** A [Map<number, V[]>] in insertion order; [groupPush] is
    [if (!grouped.has(k)) grouped.set(k, []); grouped.get(k).push(v)]. *)
Fixpoint groupPush {V} (grouped : list (number * list V)) (k : number) (v : V)
    : list (number * list V) :=
  match grouped with
  | [] => [(k, [v])]
  | (k', vs) :: rest =>
      if decide (k' = k) then (k', vs ++ [v]) :: rest else (k', vs) :: groupPush rest k v
  end.

(** [set.add(k)] on a [Set<number>] in insertion order *)
Fixpoint setAdd (set : list number) (k : number) : list number :=
  match set with
  | [] => [k]
  | k' :: rest => if decide (k' = k) then set else k' :: setAdd rest k
  end.

Definition showMessage (text : string) (tone : Tone) : Prog unit := emit (ShowMessage text tone).

Definition lookupProp (k : string) (props : list (string * json number)) : option (json number) :=
  snd <$> List.find (fun kv => String.eqb kv.1 k) props.

Definition normalizeErrorMessage (raw : string) : string :=
  match JSON_parse raw with
  | Some (JStr parsed) => parsed
  | Some (JObj props) =>
      match lookupProp "detail" props with
      | Some (JStr detail) => detail
      | _ => raw
      end
  | _ => raw
  end.

(** What a handler closes over: the component state of the render that
    created it. *)
Record Render := {
  seatState : SeatState;
  currentFloor : number;
  clientId : string;
  adminEnabled : bool;
  holding : bool;
  adminToken : string
}.

(** [Object.values(m)] *)
Definition Object_values (m : FloorMap) : list Seat := (map_to_list m).*2.

Definition renderedSeats (r : Render) : list Seat :=
  Object_values (default ∅ (seatState r !! currentFloor r)).

Definition isHeldBy (clientId : string) (seat : Seat) : bool :=
  SeatStatus_eqb (status seat) HOLD
  && match hold_client_id seat with
     | Some c => String.eqb c clientId
     | None => false
     end.

Definition heldBySelf (r : Render) : list Seat :=
  List.filter (isHeldBy (clientId r)) (renderedSeats r).

(** ** [App.tsx]: applying responses to the seat state *)

Definition holdPatch (clientId expire : string) (now : Z) (seat : option Seat) : PatchResult :=
  match seat with
  | None => PSame
  | Some seat =>
      PFresh (spreadSeat seat HOLD
                (HoldInfo {| client_id := clientId; expires_at := expire |})
                (Date_toISOString now))
  end.

Definition applyHoldResult (clientId : string) (seatIds : list string)
    (expireAt : option string) : Prog unit :=
  if negb (nonEmpty seatIds) then Ret tt
  else
    now ← dateNow;
    let expiry := getExpireAtOrDefault now expireAt in
    let grouped :=
      fold_left (fun g seatId => groupPush g (seatIdToFloor seatId) (seatId, expiry)) seatIds [] in
    forEach grouped (fun entry =>
      let '(seatFloor, items) := entry in
      dispatch (PATCH_SEATS seatFloor
        (map (fun item => {| seatId := item.1; patch := holdPatch clientId item.2 |}) items))).

Definition releasePatch (now : Z) (seat : option Seat) : PatchResult :=
  match seat with
  | None => PSame
  | Some seat => PFresh (spreadSeat seat AVAILABLE HoldNull (Date_toISOString now))
  end.

Definition confirmPatch (now : Z) (seat : option Seat) : PatchResult :=
  match seat with
  | None => PSame
  | Some seat => PFresh (spreadSeat seat SOLD HoldNull (Date_toISOString now))
  end.

Definition applyRelease (seatIds : list string) : Prog unit :=
  if negb (nonEmpty seatIds) then Ret tt
  else
    let grouped :=
      fold_left (fun g seatId => groupPush g (seatIdToFloor seatId) seatId) seatIds [] in
    forEach grouped (fun entry =>
      let '(seatFloor, items) := entry in
      dispatch (PATCH_SEATS seatFloor
        (map (fun seatId => {| seatId := seatId; patch := releasePatch |}) items))).

Definition applyConfirm (seatIds : list string) : Prog unit :=
  if negb (nonEmpty seatIds) then Ret tt
  else
    let grouped :=
      fold_left (fun g seatId => groupPush g (seatIdToFloor seatId) seatId) seatIds [] in
    forEach grouped (fun entry =>
      let '(seatFloor, items) := entry in
      dispatch (PATCH_SEATS seatFloor
        (map (fun seatId => {| seatId := seatId; patch := confirmPatch |}) items))).

(** ** [App.tsx]: the handlers *)

Definition tokenMissing : string := "管理员令牌缺失".

Definition replacePatch (seat : Seat) (now : Z) (existing : option Seat) : PatchResult :=
  PFresh seat.

Definition handleAdminUpdate (r : Render) (seatId : string) (payload : AdminSeatUpdatePayload)
    : Prog unit :=
  if negb (truthy (adminToken r)) then
    showMessage tokenMissing ToneError;;
    Throw tokenMissing
  else
    finally_
      (tryCatch
         (emit (SetAdminSaving true);;
          updated ← await (adminUpdateSeat seatId payload (adminToken r));
          dispatch (PATCH_SEATS (floor updated)
            [ {| seatId := seat_id updated; patch := replacePatch updated |} ]);;
          emit (SetAdminActiveSeatId (seat_id updated));;
          emit (AddAdminSelectedSeatId (seat_id updated));;
          showMessage "座位信息已更新" ToneSuccess)
         (fun err =>
            let messageText := normalizeErrorMessage err in
            showMessage ("管理员操作失败：" +:+ messageText) ToneError;;
            Throw messageText))
      (emit (SetAdminSaving false)).

Definition isLoaded (state : SeatState) (floor : number) : bool :=
  match state !! floor with
  | Some _ => true
  | None => false
  end.

Definition bulkSummary (response : AdminSeatBulkResponse) : Prog unit :=
  if nonEmpty (updated response) then
    let messageText :=
      "已更新 " +:+ intToString (Z.of_nat (length (updated response))) +:+ " 个座位" in
    let messageText :=
      if nonEmpty (missing response)
      then messageText +:+ "；未找到：" +:+ joinComma (missing response)
      else messageText in
    showMessage messageText ToneSuccess
  else if nonEmpty (missing response) then
    showMessage ("未找到以下座位：" +:+ joinComma (missing response)) ToneError
  else
    showMessage "没有座位发生变化" ToneError.

(** [Promise.all] over the floors to refresh is run one floor after the other,
    in the order of the set. *)
Definition refreshFloor (targetFloor : number) : Prog unit :=
  tryCatch
    (refreshed ← await (fetchSeats targetFloor);
     dispatch (SET_SEATS targetFloor (seats refreshed)))
    (fun err =>
       showMessage ("刷新第 " +:+ Number_toString targetFloor +:+ " 层失败：" +:+ err) ToneError).

Definition applyBulkUpdated (r : Render) (updated : list Seat) : Prog unit :=
  let grouped := fold_left (fun g seat => groupPush g (floor seat) seat) updated [] in
  let floorsToRefresh :=
    fold_left
      (fun set seat => if isLoaded (seatState r) (floor seat) then set else setAdd set (floor seat))
      updated [] in
  forEach grouped (fun entry =>
    let '(seatFloor, items) := entry in
    if negb (isLoaded (seatState r) seatFloor) then Ret tt
    else
      dispatch (PATCH_SEATS seatFloor
        (map (fun seat => {| seatId := seat_id seat; patch := replacePatch seat |}) items)));;
  when_ (nonEmpty floorsToRefresh) (forEach floorsToRefresh refreshFloor).

Definition handleAdminBulkUpdate (r : Render) (seatIds : list string)
    (payload : AdminSeatUpdatePayload) : Prog AdminSeatBulkResponse :=
  if negb (truthy (adminToken r)) then
    showMessage tokenMissing ToneError;;
    Throw tokenMissing
  else
    finally_
      (tryCatch
         (emit (SetAdminSaving true);;
          response ← await (adminBulkUpdateSeats seatIds payload (adminToken r));
          when_ (nonEmpty (updated response)) (applyBulkUpdated r (updated response));;
          bulkSummary response;;
          Ret response)
         (fun err =>
            let messageText := normalizeErrorMessage err in
            showMessage ("管理员操作失败：" +:+ messageText) ToneError;;
            Throw messageText))
      (emit (SetAdminSaving false)).

Definition handleSeatClick (r : Render) (seat : Seat) : Prog unit :=
  if adminEnabled r then emit (AdminToggleSeat (seat_id seat))
  else if holding r then Ret tt
  else if SeatStatus_eqb (status seat) BLOCKED || SeatStatus_eqb (status seat) SOLD then Ret tt
  else if isHeldBy (clientId r) seat then
    finally_
      (tryCatch
         (emit (SetReleasing true);;
          response ← await (releaseSeats (Some [seat_id seat]) (clientId r));
          applyRelease (released response))
         (fun err => showMessage ("释放失败：" +:+ err) ToneError))
      (emit (SetReleasing false))
  else if SeatStatus_eqb (status seat) AVAILABLE then
    finally_
      (tryCatch
         (emit (SetHolding true);;
          response ← await (holdSeats [seat_id seat] (clientId r));
          when_ (nonEmpty (held response) || nonEmpty (refreshed response))
            (applyHoldResult (clientId r) (held response ++ refreshed response)
               (expire_at response));;
          when_ (nonEmpty (conflicts response))
            (showMessage ("部分座位锁定失败：" +:+ joinComma (conflicts response)) ToneError))
         (fun err => showMessage ("锁定失败：" +:+ err) ToneError))
      (emit (SetHolding false))
  else Ret tt.

Definition handleBoxSelect (r : Render) (seatIds : list string) : Prog unit :=
  if adminEnabled r then Ret tt
  else if negb (nonEmpty seatIds) then Ret tt
  else
    finally_
      (tryCatch
         (emit (SetHolding true);;
          response ← await (holdSeats seatIds (clientId r));
          when_ (nonEmpty (held response) || nonEmpty (refreshed response))
            (applyHoldResult (clientId r) (held response ++ refreshed response)
               (expire_at response));;
          when_ (nonEmpty (conflicts response))
            (showMessage ("部分座位被他人占用：" +:+ joinComma (conflicts response)) ToneError))
         (fun err => showMessage ("批量锁定失败：" +:+ err) ToneError))
      (emit (SetHolding false)).

Definition handleReleaseAll (r : Render) : Prog unit :=
  if negb (nonEmpty (heldBySelf r)) then Ret tt
  else
    finally_
      (tryCatch
         (emit (SetReleasing true);;
          response ← await (releaseSeats None (clientId r));
          applyRelease (released response);;
          showMessage "已释放全部座位" ToneSuccess)
         (fun err => showMessage ("释放失败：" +:+ err) ToneError))
      (emit (SetReleasing false)).

Definition handleConfirm (r : Render) : Prog unit :=
  if adminEnabled r then showMessage "管理员模式下无法售卖座位" ToneError
  else if negb (nonEmpty (heldBySelf r)) then Ret tt
  else
    finally_
      (tryCatch
         (emit (SetConfirming true);;
          let seatIds := map seat_id (heldBySelf r) in
          now ← dateNow;
          let requestId := clientId r +:+ "-" +:+ intToString now in
          response ← await (confirmSeats seatIds (clientId r) requestId);
          when_ (nonEmpty (confirmed response))
            (applyConfirm (confirmed response);;
             showMessage "售卖成功" ToneSuccess);;
          when_ (nonEmpty (skipped response))
            (showMessage ("部分座位未确认成功：" +:+ joinComma (skipped response)) ToneError))
         (fun err => showMessage ("确认失败：" +:+ err) ToneError))
      (emit (SetConfirming false)).

(** ** [SeatMap.tsx]: clicking and box selection *)

Record Filters := {
  tiers : list string;
  statuses : list SeatStatus
}.

Definition isVisible (filters : Filters) (seat : Seat) : bool :=
  let tierKey := default "UNKNOWN" (tier seat) in
  existsb (String.eqb tierKey) (tiers filters)
  && existsb (SeatStatus_eqb (status seat)) (statuses filters).

(** [handleUp]: [inRect] says whether the centre of a seat lies in the
    rectangle dragged out by the pointer. *)
Definition selectedSeats (filters : Filters) (inRect : Seat -> bool) (seats : list Seat)
    : list string :=
  map seat_id
    (List.filter (fun seat => SeatStatus_eqb (status seat) AVAILABLE && inRect seat)
       (List.filter (isVisible filters) seats)).

Definition handleUp (r : Render) (filters : Filters) (inRect : Seat -> bool) : Prog unit :=
  let selected := selectedSeats filters inRect (renderedSeats r) in
  when_ (nonEmpty selected) (handleBoxSelect r selected).

(** [handlePointerDown] followed by the release of the pointer: the drag
    only starts on the primary button and outside admin mode. *)
Definition handlePointerDown (r : Render) (filters : Filters) (button : Z)
    (inRect : Seat -> bool) : Prog unit :=
  if negb (button =? 0) then Ret tt
  else if adminEnabled r then Ret tt
  else handleUp r filters inRect.

(** [handleSeatSelection] of a rendered seat *)
Definition handleSeatSelection (r : Render) (seat : Seat) : Prog unit :=
  let isBlockedOrSold :=
    SeatStatus_eqb (status seat) BLOCKED || SeatStatus_eqb (status seat) SOLD in
  let clickDisabled := negb (adminEnabled r) && isBlockedOrSold in
  if clickDisabled then Ret tt else handleSeatClick r seat.

(** ** Running a handler

    A [World] is what a handler can change or observe from outside: the
    reducer's seat state, the clock, the requests issued so far and the UI
    calls made so far.  A [Network] answers the n-th request and says how
    long the answer took. *)

Record World := {
  w_state : SeatState;
  w_now : Z;
  w_fetched : list FetchCall;
  w_ui : list Ui
}.

Record Network := {
  respond : forall X : Type, nat -> Api X -> outcome X;
  delay : nat -> Z
}.

(** How a run ends: the handler returned, its promise was rejected, or a
    reducer threw while React applied a dispatched action (an error no
    [try] of the handler can catch). *)
Inductive completion (A : Type) : Type :=
| Returned (a : A)
| Rejected (message : string)
| Crashed (message : string).
#[global] Arguments Returned {A} a.
#[global] Arguments Rejected {A} message.
#[global] Arguments Crashed {A} message.

Definition withState (w : World) (state : SeatState) : World :=
  {| w_state := state; w_now := w_now w; w_fetched := w_fetched w; w_ui := w_ui w |}.

Definition withFetch (w : World) (elapsed : Z) (call : FetchCall) : World :=
  {| w_state := w_state w;
     w_now := w_now w + elapsed;
     w_fetched := w_fetched w ++ [call];
     w_ui := w_ui w |}.

Definition withUi (w : World) (u : Ui) : World :=
  {| w_state := w_state w; w_now := w_now w; w_fetched := w_fetched w; w_ui := w_ui w ++ [u] |}.

Fixpoint exec {A} (net : Network) (p : Prog A) (w : World) : World * completion A :=
  match p with
  | Ret a => (w, Returned a)
  | Throw e => (w, Rejected e)
  | Await call k =>
      let n := length (w_fetched w) in
      exec net (k (respond net _ n call)) (withFetch w (delay net n) (fetchOf call))
  | Dispatch action k =>
      match seatReducer (w_now w) (w_state w) action with
      | Ok state' => exec net k (withState w state')
      | Err e => (w, Crashed e)
      end
  | DateNow k => exec net (k (w_now w)) w
  | Emit u k => exec net k (withUi w u)
  end.

(** A run of the reducer over a sequence of actions, each at its own time. *)
Fixpoint reduceAll (state : SeatState) (actions : list (Z * SeatAction)) : outcome SeatState :=
  match actions with
  | [] => Ok state
  | (now, action) :: rest =>
      match seatReducer now state action with
      | Ok state' => reduceAll state' rest
      | Err e => Err e
      end
  end.

End Model.

Abbreviation FloorMap := (gmap string Seat).
Abbreviation SeatState := (gmap number (gmap string Seat)).

(** ** A concrete runtime

    [intRuntime] has the integers and [NaN] for numbers.  It agrees with
    JavaScript wherever it answers with a value: [Number] on decimal integer
    literals, [Date] on the strings [toISOString] produces for the years 0000
    to 9999, [JSON.parse] on a string literal without escapes and on an object
    whose one property [detail] is such a string.  Everything else is [NaN],
    an invalid date or a syntax error here.  The general theorems below hold
    for every runtime; this one serves to evaluate the definitions on sample
    data. *)

Definition digitOf (c : ascii) : option Z :=
  let n := Z.of_nat (nat_of_ascii c) in
  if (48 <=? n) && (n <=? 57) then Some (n - 48) else None.

Fixpoint digitsValue (acc : Z) (s : string) : option Z :=
  match s with
  | EmptyString => Some acc
  | String c rest =>
      match digitOf c with
      | Some d => digitsValue (10 * acc + d) rest
      | None => None
      end
  end.

Definition intNumber (s : string) : option Z :=
  match s with
  | EmptyString => Some 0
  | String "-"%char (String c rest) => Z.opp <$> digitsValue 0 (String c rest)
  | String "+"%char (String c rest) => digitsValue 0 (String c rest)
  | _ => digitsValue 0 s
  end.

Definition intNumberToString (n : option Z) : string :=
  match n with
  | Some z => NilZero.string_of_int (Z.to_int z)
  | None => "NaN"
  end.

(** [width] decimal digits of [z], zero-padded. *)
Fixpoint padded (width : nat) (z : Z) : string :=
  match width with
  | O => EmptyString
  | S w => padded w (z / 10) +:+ String (ascii_of_nat (48 + Z.to_nat (z mod 10))) EmptyString
  end.

(** Days since 1970-01-01 to year, month, day of the proleptic Gregorian
    calendar, and back. *)
Definition civilFromDays (days : Z) : Z * Z * Z :=
  let z := days + 719468 in
  let era := z / 146097 in
  let doe := z - era * 146097 in
  let yoe := (doe - doe / 1460 + doe / 36524 - doe / 146096) / 365 in
  let doy := doe - (365 * yoe + yoe / 4 - yoe / 100) in
  let mp := (5 * doy + 2) / 153 in
  let d := doy - (153 * mp + 2) / 5 + 1 in
  let m := if mp <? 10 then mp + 3 else mp - 9 in
  let y := yoe + era * 400 in
  (if m <=? 2 then y + 1 else y, m, d).

Definition daysFromCivil (y m d : Z) : Z :=
  let y := if m <=? 2 then y - 1 else y in
  let era := y / 400 in
  let yoe := y - era * 400 in
  let doy := (153 * (if 2 <? m then m - 3 else m + 9) + 2) / 5 + d - 1 in
  let doe := yoe * 365 + yoe / 4 - yoe / 100 + doy in
  era * 146097 + doe - 719468.

Definition msPerDay : Z := 86400000.

Definition isoString (t : Z) : string :=
  let days := t / msPerDay in
  let ms := t mod msPerDay in
  let '(y, m, d) := civilFromDays days in
  let year :=
    if (0 <=? y) && (y <=? 9999) then padded 4 y
    else (if y <? 0 then "-" else "+") +:+ padded 6 (Z.abs y) in
  year +:+ "-" +:+ padded 2 m +:+ "-" +:+ padded 2 d
    +:+ "T" +:+ padded 2 (ms / 3600000)
    +:+ ":" +:+ padded 2 (ms / 60000 mod 60)
    +:+ ":" +:+ padded 2 (ms / 1000 mod 60)
    +:+ "." +:+ padded 3 (ms mod 1000) +:+ "Z".

Fixpoint takeDigits (n : nat) (acc : Z) (s : string) : option (Z * string) :=
  match n with
  | O => Some (acc, s)
  | S n' =>
      match s with
      | EmptyString => None
      | String c rest =>
          match digitOf c with
          | Some d => takeDigits n' (10 * acc + d) rest
          | None => None
          end
      end
  end.

Definition expect (c : ascii) (s : string) : option string :=
  match s with
  | String c' rest => if Ascii.eqb c c' then Some rest else None
  | EmptyString => None
  end.

Definition isoParse (s : string) : option Z :=
  '(y, s1) ← takeDigits 4 0 s;
  s2 ← expect "-" s1;
  '(m, s3) ← takeDigits 2 0 s2;
  s4 ← expect "-" s3;
  '(d, s5) ← takeDigits 2 0 s4;
  s6 ← expect "T" s5;
  '(hh, s7) ← takeDigits 2 0 s6;
  s8 ← expect ":" s7;
  '(mm, s9) ← takeDigits 2 0 s8;
  s10 ← expect ":" s9;
  '(ss, s11) ← takeDigits 2 0 s10;
  s12 ← expect "." s11;
  '(ms, s13) ← takeDigits 3 0 s12;
  let t := daysFromCivil y m d * msPerDay + hh * 3600000 + mm * 60000 + ss * 1000 + ms in
  if String.eqb (isoString t) s then Some t else None.

Definition dquote : ascii := ascii_of_nat 34.

(** The text of a JSON string literal without escapes. *)
Fixpoint quotedBody (s : string) : option string :=
  match s with
  | EmptyString => None
  | String c rest =>
      if Ascii.eqb c dquote then
        match rest with
        | EmptyString => Some EmptyString
        | _ => None
        end
      else if Ascii.eqb c "\"%char || (Z.of_nat (nat_of_ascii c) <? 32) then None
      else String c <$> quotedBody rest
  end.

Definition quoted (s : string) : option string :=
  match s with
  | String c rest => if Ascii.eqb c dquote then quotedBody rest else None
  | EmptyString => None
  end.

Fixpoint stripPrefix (prefix s : string) : option string :=
  match prefix, s with
  | EmptyString, _ => Some s
  | String p prefix', String c rest => if Ascii.eqb p c then stripPrefix prefix' rest else None
  | _, _ => None
  end.

Fixpoint dropLast (s : string) : option (string * ascii) :=
  match s with
  | EmptyString => None
  | String c EmptyString => Some (EmptyString, c)
  | String c rest =>
      match dropLast rest with
      | Some (init, last) => Some (String c init, last)
      | None => None
      end
  end.

Definition miniJsonParse (s : string) : option (json (option Z)) :=
  match quoted s with
  | Some text => Some (JStr text)
  | None =>
      inner ← stripPrefix "{" s;
      inner ← stripPrefix (String dquote "detail") inner;
      inner ← stripPrefix (String dquote ":") inner;
      '(value, last) ← dropLast inner;
      if Ascii.eqb last "}"%char
      then (fun text => JObj [("detail", JStr text)]) <$> quoted value
      else None
  end.

Definition intRuntime : JsRuntime :=
  {| number := option Z;
     num_one := Some 1;
     Number_ := intNumber;
     Number_isFinite := fun n => match n with Some _ => true | None => false end;
     Number_toString := intNumberToString;
     Date_parse := isoParse;
     Date_toISOString := isoString;
     JSON_parse := miniJsonParse;
     API_BASE := EmptyString |}.


(** ** Specification vocabulary *)

Section Vocabulary.
Context `{JsRuntime}.

(** *** Seats and holds *)

(** The seat stored under a floor and an id. *)
Definition seatAt (state : SeatState) (floor : number) (id : string) : option Seat :=
  state !! floor ≫= (fun m => m !! id).

(** The hold of a seat is present, non-null and expires after [now]. *)
Definition holdActive (now : Z) (seat : Seat) : bool :=
  match hold seat with
  | HoldInfo h =>
      match Date_parse (expires_at h) with
      | Some t => now <? t
      | None => false
      end
  | _ => false
  end.

(** The hold of a seat is present and non-null. *)
Definition holdPresent (seat : Seat) : bool :=
  match hold seat with
  | HoldInfo _ => true
  | _ => false
  end.

(** Every seat of [state'] is the seat [state] had there, or has status HOLD
    exactly when its hold is present. *)
Definition changedSeatsConsistent (state state' : SeatState) : Prop :=
  ∀ f id seat',
    seatAt state' f id = Some seat' →
    seatAt state f id = Some seat' ∨ (status seat' = HOLD ↔ holdPresent seat' = true).

(** Every seat is stored under the floor its id names. *)
Definition keyedByIdFloor (state : SeatState) : Prop :=
  ∀ f id seat, seatAt state f id = Some seat → seatIdToFloor id = f.

(** *** Patches *)

(** A patch left the seat alone. *)
Definition isNoop (r : PatchResult) : bool :=
  match r with
  | PUndefined | PSame => true
  | _ => false
  end.

Definition isThrow (r : PatchResult) : bool :=
  match r with
  | PThrow _ => true
  | _ => false
  end.

Definition actionFloor (action : SeatAction) : number :=
  match action with
  | SET_SEATS floor _ => floor
  | PATCH_SEATS floor _ => floor
  end.

(** The writes a [PATCH_SEATS] loop performs, in order. *)
Definition writes (now : Z) (currentFloorMap : FloorMap) (updates : list SeatUpdate)
    : list (string * Seat) :=
  omap (fun update =>
          match patch update now (currentFloorMap !! seatId update) with
          | PFresh next => Some (seatId update, next)
          | _ => None
          end) updates.

Definition insertAll (ws : list (string * Seat)) (m : FloorMap) : FloorMap :=
  fold_left (fun m kv => <[kv.1 := kv.2]> m) ws m.

(** The floor map after the writes of a list of updates. *)
Definition patchFloor (now : Z) (updates : list SeatUpdate) (m : option FloorMap)
    : option FloorMap :=
  (fun cur => insertAll (writes now cur updates) cur) <$> m.

(** The entries an admin response writes into a floor map. *)
Definition replacements (items : list Seat) : list (string * Seat) :=
  map (fun seat => (seat_id seat, seat)) items.

(** What the hold and release patches make of an existing seat. *)
Definition heldSeat (clientId expire : string) (now : Z) (seat : Seat) : Seat :=
  spreadSeat seat HOLD (HoldInfo {| client_id := clientId; expires_at := expire |})
    (Date_toISOString now).

Definition releasedSeat (now : Z) (seat : Seat) : Seat :=
  spreadSeat seat AVAILABLE HoldNull (Date_toISOString now).

(** The updates the handlers put into their [PATCH_SEATS] actions. *)
Definition mkHold (clientId : string) (item : string * string) : SeatUpdate :=
  {| seatId := item.1; patch := holdPatch clientId item.2 |}.

Definition mkRelease (seatId : string) : SeatUpdate :=
  {| seatId := seatId; patch := releasePatch |}.

Definition mkConfirm (seatId : string) : SeatUpdate :=
  {| seatId := seatId; patch := confirmPatch |}.

Definition mkReplace (seat : Seat) : SeatUpdate :=
  {| seatId := seat_id seat; patch := replacePatch seat |}.

(** *** Grouping by floor *)

(** The items a grouping holds for a key. *)
Fixpoint groupGet {V} (grouped : list (number * list V)) (k : number) : list V :=
  match grouped with
  | [] => []
  | (k', vs) :: rest => if decide (k' = k) then vs else groupGet rest k
  end.

(** Grouping a whole list by a key. *)
Definition groupAll {V} (key : V -> number) (l : list V) : list (number * list V) :=
  fold_left (fun g v => groupPush g (key v) v) l [].

(** One [PATCH_SEATS] per group, as the [grouped.forEach] loops dispatch
    them. *)
Definition dispatchGroups {V} (mk : V -> SeatUpdate) (grouped : list (number * list V))
    : Prog unit :=
  forEach grouped (fun entry =>
    let '(seatFloor, items) := entry in
    dispatch (PATCH_SEATS seatFloor (map mk items))).

(** *** Handlers *)

(** What [handleSeatClick] and [handleBoxSelect] do with a hold response. *)
Definition applyHoldResponse (clientId : string) (response : HoldResponse) : Prog unit :=
  when_ (nonEmpty (held response) || nonEmpty (refreshed response))
    (applyHoldResult clientId (held response ++ refreshed response) (expire_at response)).

(** A program that awaits no request. *)
Fixpoint noAwait {A} (p : Prog A) : Prop :=
  match p with
  | Ret _ | Throw _ => True
  | Await _ _ => False
  | Dispatch _ k => noAwait k
  | DateNow k => ∀ t, noAwait (k t)
  | Emit _ k => noAwait k
  end.

(** The end of [try { ... } finally { setter(...) }]: the setter runs unless
    a reducer crashed. *)
Definition settle {A} (u : Ui) (res : World * completion A) : World * completion A :=
  match res with
  | (w', Returned a) => (withUi w' u, Returned a)
  | (w', Rejected e) => (withUi w' u, Rejected e)
  | (w', Crashed e) => (w', Crashed e)
  end.

(** The world right after a request went out. *)
Definition afterFetch {X} (net : Network) (w : World) (call : Api X) : World :=
  withFetch w (delay net (length (w_fetched w))) (fetchOf call).

(** One floor of the refresh after a bulk update: the request goes out and
    its answer, if any, replaces the floor. *)
Definition refreshStep (net : Network) (w : World) (f : number) : World :=
  let w1 := afterFetch net w (fetchSeats f) in
  match respond net SeatsResponse (length (w_fetched w)) (fetchSeats f) with
  | Ok refreshed => withState w1 (<[f := seatsToMap (seats refreshed)]> (w_state w1))
  | Err e =>
      withUi w1
        (ShowMessage ("刷新第 " +:+ Number_toString f +:+ " 层失败：" +:+ e) ToneError)
  end.

(** The floors a bulk update refreshes: those of updated seats that the
    render's seat state has not loaded. *)
Definition floorsToRefresh (r : Render) (updated : list Seat) : list number :=
  fold_left
    (fun set seat => if isLoaded (seatState r) (floor seat) then set else setAdd set (floor seat))
    updated [].

End Vocabulary.

(** ** Sample data on [intRuntime] *)

Section Sample.
#[local] Existing Instance intRuntime.

Definition sampleSeat (id : string) (fl : Z) (st : SeatStatus) (h : HoldField) : Seat :=
  {| seat_id := id;
     floor := Some fl;
     excel_row := Some 9;
     excel_col := Some 3;
     layout_row := Some (Some 1);
     layout_col := Some (Some 1);
     zone := "main";
     tier := Some "A";
     price := Some 380;
     status := st;
     updated_at := "2024-01-01T00:00:00.000Z";
     hold := h |}.

(** The seats of floor 1, both for sale. *)
Definition sampleSnapshot : list Seat :=
  [ sampleSeat "1-1-A" 1 AVAILABLE HoldNull; sampleSeat "1-1-B" 1 AVAILABLE HoldNull ].

(** Floor 1 is loaded; floor 2 is not. *)
Definition sampleState : SeatState := {[ Some 1 := seatsToMap sampleSnapshot ]}.

(** 2024-01-01T00:00:00.000Z *)
Definition sampleNow : Z := 1704067200000.

Definition sampleWorld : World :=
  {| w_state := sampleState; w_now := sampleNow; w_fetched := []; w_ui := [] |}.

(** A network with one canned answer per endpoint, each after 40 ms. *)
Definition cannedNet (hold_ : outcome HoldResponse) (release_ : outcome ReleaseResponse)
    (confirm_ : outcome ConfirmResponse) (single_ : outcome Seat)
    (bulk_ : outcome AdminSeatBulkResponse) (floors_ : number -> outcome SeatsResponse)
    : Network :=
  {| respond := fun X n call =>
       match call in Api X return outcome X with
       | fetchSeats floor => floors_ floor
       | holdSeats _ _ => hold_
       | releaseSeats _ _ => release_
       | confirmSeats _ _ _ => confirm_
       | adminUpdateSeat _ _ _ => single_
       | adminBulkUpdateSeats _ _ _ => bulk_
       end;
     delay := fun _ => 40 |}.

Definition unavailable {A} : outcome A := Err "503".

Definition holdNet (response : HoldResponse) : Network :=
  cannedNet (Ok response) unavailable unavailable unavailable unavailable (fun _ => unavailable).

(** A hold granted with an expiry that the client's clock has already
    passed (a slow answer, or a server clock behind the client's). *)
Definition staleHoldResponse : HoldResponse :=
  {| held := ["1-1-A"];
     refreshed := [];
     conflicts := [];
     expire_at := Some "2023-12-31T23:59:00.000Z" |}.

(** Holds granted without an expiry. *)
Definition nullExpiryResponse : HoldResponse :=
  {| held := ["1-1-A"]; refreshed := []; conflicts := []; expire_at := None |}.

Definition nullExpiryPairResponse : HoldResponse :=
  {| held := ["1-1-A"; "1-1-B"]; refreshed := []; conflicts := []; expire_at := None |}.

(** Another client took seat 1-1-A. *)
Definition sampleEvent : SeatUpdatePayload :=
  {| ev_seat_id := "1-1-A";
     ev_from := AVAILABLE;
     ev_to := HOLD;
     ev_by := Some "c2";
     ev_at := "2024-01-01T00:00:00.000Z" |}.

(** Floor 1 with a seat held by this client, one held by another client and
    one for sale. *)
Definition heldSnapshot : list Seat :=
  [ sampleSeat "1-1-A" 1 HOLD
      (HoldInfo {| client_id := "c1"; expires_at := "2024-01-01T00:01:30.000Z" |});
    sampleSeat "1-1-B" 1 HOLD
      (HoldInfo {| client_id := "c2"; expires_at := "2024-01-01T00:01:45.000Z" |});
    sampleSeat "1-1-C" 1 AVAILABLE HoldNull ].

Definition heldState : SeatState := {[ Some 1 := seatsToMap heldSnapshot ]}.

Definition heldWorld : World :=
  {| w_state := heldState; w_now := sampleNow; w_fetched := []; w_ui := [] |}.

Definition heldRender : Render :=
  {| seatState := heldState;
     currentFloor := Some 1;
     clientId := "c1";
     adminEnabled := false;
     holding := false;
     adminToken := EmptyString |}.

Definition releaseNet : Network :=
  cannedNet unavailable (Ok {| released := ["1-1-A"] |}) unavailable unavailable unavailable
    (fun _ => unavailable).

Definition confirmNet : Network :=
  cannedNet unavailable unavailable (Ok {| confirmed := ["1-1-A"]; skipped := [] |})
    unavailable unavailable (fun _ => unavailable).

(** An administrator looking at floor 1. *)
Definition adminRender : Render :=
  {| seatState := sampleState;
     currentFloor := Some 1;
     clientId := "c1";
     adminEnabled := true;
     holding := false;
     adminToken := "secret" |}.

Definition soldPayload : AdminSeatUpdatePayload :=
  {| p_status := Some SOLD; p_tier := None; p_price := None |}.

(** One updated seat on the loaded floor 1, one on floor 2, which is not
    loaded, and one id the catalog does not have. *)
Definition bulkResponse : AdminSeatBulkResponse :=
  {| updated := [ sampleSeat "1-1-A" 1 SOLD HoldNull; sampleSeat "2-1-A" 2 SOLD HoldNull ];
     missing := ["9-9-Z"] |}.

Definition bulkNet : Network :=
  cannedNet unavailable unavailable unavailable unavailable (Ok bulkResponse)
    (fun floor =>
       Ok {| r_floor := floor;
             seats := [ sampleSeat "2-1-A" 2 SOLD HoldNull;
                        sampleSeat "2-1-B" 2 AVAILABLE HoldNull ];
             generated_at := "2024-01-01T00:00:00.050Z" |}).

Definition allFilters : Filters :=
  {| tiers := ["VIP"; "A"; "B"; "C"; "E"; "UNKNOWN"];
     statuses := [AVAILABLE; HOLD; SOLD; BLOCKED] |}.

Definition sampleRender : Render :=
  {| seatState := sampleState;
     currentFloor := Some 1;
     clientId := "c1";
     adminEnabled := false;
     holding := false;
     adminToken := EmptyString |}.

End Sample.

(** * More of the client

    The parts of [App.tsx] that the sections above leave out, and the
    modules around it: [lib/socket.ts], [lib/seatPosition.ts],
    [components/SelectionSummary.tsx] and the single-seat form of
    [components/AdminPanel.tsx]. *)

(** ** [App.tsx]: values derived from the seat state *)

Section Derived.
Context `{JsRuntime}.

(** [counts]: a [Record<SeatStatus, number>]. *)
Record Counts := {
  n_AVAILABLE : nat;
  n_HOLD : nat;
  n_SOLD : nat;
  n_BLOCKED : nat
}.

(** [result[status] += 1] *)
Definition bump (result : Counts) (s : SeatStatus) : Counts :=
  match s with
  | AVAILABLE =>
      {| n_AVAILABLE := S (n_AVAILABLE result); n_HOLD := n_HOLD result;
         n_SOLD := n_SOLD result; n_BLOCKED := n_BLOCKED result |}
  | HOLD =>
      {| n_AVAILABLE := n_AVAILABLE result; n_HOLD := S (n_HOLD result);
         n_SOLD := n_SOLD result; n_BLOCKED := n_BLOCKED result |}
  | SOLD =>
      {| n_AVAILABLE := n_AVAILABLE result; n_HOLD := n_HOLD result;
         n_SOLD := S (n_SOLD result); n_BLOCKED := n_BLOCKED result |}
  | BLOCKED =>
      {| n_AVAILABLE := n_AVAILABLE result; n_HOLD := n_HOLD result;
         n_SOLD := n_SOLD result; n_BLOCKED := S (n_BLOCKED result) |}
  end.

Definition counts (seats : list Seat) : Counts :=
  fold_left (fun result seat => bump result (status seat)) seats
    {| n_AVAILABLE := 0; n_HOLD := 0; n_SOLD := 0; n_BLOCKED := 0 |}.

Definition countOf (c : Counts) (s : SeatStatus) : nat :=
  match s with
  | AVAILABLE => n_AVAILABLE c
  | HOLD => n_HOLD c
  | SOLD => n_SOLD c
  | BLOCKED => n_BLOCKED c
  end.

(** [nextExpire]: the earliest expiry among the seats held by this client;
    [None] is [Number.POSITIVE_INFINITY].  A hold without an expiry and an
    expiry that is not a date are skipped. *)
Definition nextExpire (held : list Seat) : option Z :=
  fold_left
    (fun min seat =>
       match hold_expires_at seat with
       | Some e =>
           if truthy e then
             match Date_parse e with
             | Some ts => Some (match min with Some m => Z.min m ts | None => ts end)
             | None => min
             end
           else min
       | None => min
       end)
    held None.

(** [remainingSeconds], with [now] the component's clock state. *)
Definition remainingSeconds (now : Z) (held : list Seat) : Z :=
  match nextExpire held with
  | Some next => Z.max 0 ((next - now) / 1000)
  | None => 0
  end.

(** The time value [nextExpire] reads off a seat: that of a non-empty
    [hold.expires_at] that is a date. *)
Definition expiryOf (seat : Seat) : option Z :=
  match hold_expires_at seat with
  | Some e => if truthy e then Date_parse e else None
  | None => None
  end.

(** ** [App.tsx]: [ensureClientId]

    [storage] is [localStorage]; [uuid] is what [self.crypto.randomUUID()]
    returns, [None] where the function does not exist; [now] is [Date.now()]. *)

Definition clientIdKey : string := "seat-client-id".

Definition ensureClientId (storage : gmap string string) (uuid : option string) (now : Z)
    : string * gmap string string :=
  let generate :=
    let id := match uuid with
              | Some u => u
              | None => "client-" +:+ intToString now
              end in
    (id, <[clientIdKey := id]> storage) in
  match storage !! clientIdKey with
  | Some stored => if truthy stored then (stored, storage) else generate
  | None => generate
  end.

End Derived.

(** What the confirm patch makes of an existing seat. *)
Definition confirmedSeat `{JsRuntime} (now : Z) (seat : Seat) : Seat :=
  spreadSeat seat SOLD HoldNull (Date_toISOString now).

(** The headers of a request that carries no admin token. *)
Definition plainHeaders : list (string * string) := [("Content-Type", "application/json")].

(** ** [App.tsx]: admin mode and the admin selection

    [trim] and [toUpperCase] are the string methods of the runtime. *)

Section AdminUi.
Context `{JsRuntime}.
Variable trim : string -> string.
Variable toUpperCase : string -> string.

(** The component state the admin handlers read and set. *)
Record AdminUiState := {
  ui_adminToken : string;
  ui_adminTokenInput : string;
  ui_adminEnabled : bool;
  ui_adminAuthError : option string;
  ui_adminSelectedSeatIds : list string;
  ui_adminActiveSeatId : string;
  ui_floor : number
}.

(** [useState(readAdminToken)], [useState(() => Boolean(readAdminToken()))]:
    [stored] is [localStorage.getItem('seat-admin-token') ?? '']. *)
Definition initialAdminUi (stored : string) : AdminUiState :=
  {| ui_adminToken := stored;
     ui_adminTokenInput := stored;
     ui_adminEnabled := truthy stored;
     ui_adminAuthError := None;
     ui_adminSelectedSeatIds := [];
     ui_adminActiveSeatId := EmptyString;
     ui_floor := num_one |}.

(** The [onChange] of the token input. *)
Definition changeTokenInput (value : string) (s : AdminUiState) : AdminUiState :=
  {| ui_adminToken := ui_adminToken s;
     ui_adminTokenInput := value;
     ui_adminEnabled := ui_adminEnabled s;
     ui_adminAuthError := None;
     ui_adminSelectedSeatIds := ui_adminSelectedSeatIds s;
     ui_adminActiveSeatId := ui_adminActiveSeatId s;
     ui_floor := ui_floor s |}.

Definition handleEnterAdmin (s : AdminUiState) : AdminUiState :=
  let trimmed := trim (ui_adminTokenInput s) in
  if negb (truthy trimmed) then
    {| ui_adminToken := ui_adminToken s;
       ui_adminTokenInput := ui_adminTokenInput s;
       ui_adminEnabled := ui_adminEnabled s;
       ui_adminAuthError := Some "请输入管理员令牌";
       ui_adminSelectedSeatIds := ui_adminSelectedSeatIds s;
       ui_adminActiveSeatId := ui_adminActiveSeatId s;
       ui_floor := ui_floor s |}
  else
    {| ui_adminToken := trimmed;
       ui_adminTokenInput := ui_adminTokenInput s;
       ui_adminEnabled := true;
       ui_adminAuthError := None;
       ui_adminSelectedSeatIds := ui_adminSelectedSeatIds s;
       ui_adminActiveSeatId := ui_adminActiveSeatId s;
       ui_floor := ui_floor s |}.

Definition handleAdminClearSelection (s : AdminUiState) : AdminUiState :=
  {| ui_adminToken := ui_adminToken s;
     ui_adminTokenInput := ui_adminTokenInput s;
     ui_adminEnabled := ui_adminEnabled s;
     ui_adminAuthError := ui_adminAuthError s;
     ui_adminSelectedSeatIds := [];
     ui_adminActiveSeatId := EmptyString;
     ui_floor := ui_floor s |}.

Definition handleExitAdmin (s : AdminUiState) : AdminUiState :=
  handleAdminClearSelection
    {| ui_adminToken := EmptyString;
       ui_adminTokenInput := EmptyString;
       ui_adminEnabled := false;
       ui_adminAuthError := None;
       ui_adminSelectedSeatIds := ui_adminSelectedSeatIds s;
       ui_adminActiveSeatId := ui_adminActiveSeatId s;
       ui_floor := ui_floor s |}.

Definition normalizeSeatId (seatId : string) : string := toUpperCase (trim seatId).

(** [prev.includes(x)] *)
Definition includes (l : list string) (x : string) : bool := existsb (String.eqb x) l.

(** [prev.filter((id) => id !== x)] *)
Definition without (l : list string) (x : string) : list string :=
  List.filter (fun id => negb (String.eqb id x)) l.

(** [handleAdminActivateSeat(seatId, { replaceSelection })]; a missing option
    is [None] and counts as [true]. *)
Definition handleAdminActivateSeat (seatId : string) (replaceSelection : option bool)
    (s : AdminUiState) : AdminUiState :=
  let normalized := normalizeSeatId seatId in
  if negb (truthy normalized) then s
  else
    let prev := ui_adminSelectedSeatIds s in
    let selected :=
      if default true replaceSelection then
        match prev with
        | [only] => if String.eqb only normalized then prev else [normalized]
        | _ => [normalized]
        end
      else if includes prev normalized then prev
      else prev ++ [normalized] in
    {| ui_adminToken := ui_adminToken s;
       ui_adminTokenInput := ui_adminTokenInput s;
       ui_adminEnabled := ui_adminEnabled s;
       ui_adminAuthError := ui_adminAuthError s;
       ui_adminSelectedSeatIds := selected;
       ui_adminActiveSeatId := normalized;
       ui_floor := seatIdToFloor normalized |}.

Definition handleAdminToggleSeat (seatId : string) (s : AdminUiState) : AdminUiState :=
  let normalized := normalizeSeatId seatId in
  if negb (truthy normalized) then s
  else
    let prev := ui_adminSelectedSeatIds s in
    let exists_ := includes prev normalized in
    let next := if exists_ then without prev normalized else prev ++ [normalized] in
    let current := ui_adminActiveSeatId s in
    let active :=
      if negb exists_ then normalized
      else if String.eqb current normalized then default EmptyString (last next)
      else current in
    {| ui_adminToken := ui_adminToken s;
       ui_adminTokenInput := ui_adminTokenInput s;
       ui_adminEnabled := ui_adminEnabled s;
       ui_adminAuthError := ui_adminAuthError s;
       ui_adminSelectedSeatIds := next;
       ui_adminActiveSeatId := active;
       ui_floor := seatIdToFloor normalized |}.

(** The success path of [handleAdminUpdate]:
    [setAdminActiveSeatId(updated.seat_id)] and
    [setAdminSelectedSeatIds((prev) => prev.includes(id) ? prev : [...prev, id])]. *)
Definition seatSaved (seatId : string) (s : AdminUiState) : AdminUiState :=
  let prev := ui_adminSelectedSeatIds s in
  {| ui_adminToken := ui_adminToken s;
     ui_adminTokenInput := ui_adminTokenInput s;
     ui_adminEnabled := ui_adminEnabled s;
     ui_adminAuthError := ui_adminAuthError s;
     ui_adminSelectedSeatIds := if includes prev seatId then prev else prev ++ [seatId];
     ui_adminActiveSeatId := seatId;
     ui_floor := ui_floor s |}.

(** The [onChange] of the floor select: [setFloor(Number(event.target.value))]. *)
Definition selectFloor (value : string) (s : AdminUiState) : AdminUiState :=
  {| ui_adminToken := ui_adminToken s;
     ui_adminTokenInput := ui_adminTokenInput s;
     ui_adminEnabled := ui_adminEnabled s;
     ui_adminAuthError := ui_adminAuthError s;
     ui_adminSelectedSeatIds := ui_adminSelectedSeatIds s;
     ui_adminActiveSeatId := ui_adminActiveSeatId s;
     ui_floor := Number_ value |}.

(** What can happen to this part of the component state. *)
Inductive AdminEvent :=
| TypeToken (value : string)
| EnterAdmin
| ExitAdmin
| ActivateSeat (seatId : string) (replaceSelection : option bool)
| ToggleSeat (seatId : string)
| ClearSelection
| SeatSaved (seatId : string)
| SelectFloor (value : string).

Definition adminStep (s : AdminUiState) (e : AdminEvent) : AdminUiState :=
  match e with
  | TypeToken value => changeTokenInput value s
  | EnterAdmin => handleEnterAdmin s
  | ExitAdmin => handleExitAdmin s
  | ActivateSeat seatId replaceSelection => handleAdminActivateSeat seatId replaceSelection s
  | ToggleSeat seatId => handleAdminToggleSeat seatId s
  | ClearSelection => handleAdminClearSelection s
  | SeatSaved seatId => seatSaved seatId s
  | SelectFloor value => selectFloor value s
  end.

(** The effect on [[adminEnabled, adminToken]]: what it leaves under
    ['seat-admin-token'] in [localStorage] ([None]: no such item). *)
Definition tokenStorageEffect (s : AdminUiState) (stored : option string) : option string :=
  if ui_adminEnabled s && truthy (ui_adminToken s) then Some (ui_adminToken s)
  else if negb (ui_adminEnabled s) then None
  else stored.

(** The effect on [[adminEnabled]]. *)
Definition adminEnabledEffect (s : AdminUiState) : AdminUiState :=
  if negb (ui_adminEnabled s) then handleAdminClearSelection s else s.

(** The component state together with the stored token. *)
Record AdminSession := {
  ses_ui : AdminUiState;
  ses_stored : option string
}.

(** The first render and its effects. *)
Definition mountAdmin (stored : option string) : AdminSession :=
  let s := initialAdminUi (default EmptyString stored) in
  {| ses_ui := adminEnabledEffect s; ses_stored := tokenStorageEffect s stored |}.

(** An event, the render it causes and the effects whose dependencies
    changed. *)
Definition adminRound (ses : AdminSession) (e : AdminEvent) : AdminSession :=
  let s := ses_ui ses in
  let s' := adminStep s e in
  let enabledChanged := negb (Bool.eqb (ui_adminEnabled s) (ui_adminEnabled s')) in
  let tokenChanged := negb (String.eqb (ui_adminToken s) (ui_adminToken s')) in
  {| ses_ui := if enabledChanged then adminEnabledEffect s' else s';
     ses_stored :=
       if enabledChanged || tokenChanged then tokenStorageEffect s' (ses_stored ses)
       else ses_stored ses |}.

Definition adminRun (ses : AdminSession) (events : list AdminEvent) : AdminSession :=
  fold_left adminRound events ses.

(** The token state: admin mode is on exactly when a token is set, and the
    token is stored exactly while admin mode is on. *)
Definition tokenInv (ses : AdminSession) : Prop :=
  ui_adminEnabled (ses_ui ses) = truthy (ui_adminToken (ses_ui ses))
  ∧ ses_stored ses
    = if ui_adminEnabled (ses_ui ses) then Some (ui_adminToken (ses_ui ses)) else None.

(** The selection: no id twice, and the active seat is a selected one
    unless both are empty. *)
Definition selectionInv (s : AdminUiState) : Prop :=
  NoDup (ui_adminSelectedSeatIds s)
  ∧ (ui_adminActiveSeatId s ∈ ui_adminSelectedSeatIds s
     ∨ (ui_adminActiveSeatId s = EmptyString ∧ ui_adminSelectedSeatIds s = [])).

End AdminUi.

(** ** [App.tsx]: the tier and status filters

    A [Set] is the list of its elements in insertion order. *)

Definition TIER_OPTIONS : list string := ["VIP"; "A"; "B"; "C"; "E"; "UNKNOWN"].
Definition STATUS_OPTIONS : list SeatStatus := [AVAILABLE; HOLD; SOLD; BLOCKED].

Definition toggleTier (tier : string) (prev : list string) : list string :=
  if existsb (String.eqb tier) prev then
    if Nat.eqb (length prev) 1 then prev
    else List.filter (fun t => negb (String.eqb t tier)) prev
  else prev ++ [tier].

Definition toggleStatus (status : SeatStatus) (prev : list SeatStatus) : list SeatStatus :=
  if existsb (SeatStatus_eqb status) prev then
    if Nat.eqb (length prev) 1 then prev
    else List.filter (fun s => negb (SeatStatus_eqb s status)) prev
  else prev ++ [status].

(** ** [lib/socket.ts]

    [subscribeSeatUpdates] keeps three variables in its closure and installs
    the same four callbacks on every socket it opens.  The model is the
    transition system of those variables under the callbacks the browser may
    invoke, with the calls the client makes as output.  [retries] is an
    integer (it stays far below 2^53). *)

(** [SeatUpdateEvent] of [types.ts]; a [payload] that is missing or falsy is
    [None]. *)
Record SeatUpdateEvent `{JsRuntime} := {
  msg_event : string;
  msg_payload : option SeatUpdatePayload;
  msg_client_id : option string
}.

Section Socket.
Context `{JsRuntime}.
(** [window.location.protocol] and [window.location.host] *)
Variable locationProtocol locationHost : string.
Variable encodeURIComponent : string -> string.
(** [JSON.parse(event.data) as SeatUpdateEvent]; [None] when reading the
    frame throws. *)
Variable parseFrame : string -> option SeatUpdateEvent.

Record Subscription := {
  stopped : bool;
  retries : Z;
  (** the sockets opened so far; [socket] is the last of them *)
  opened : nat
}.

Inductive SocketEffect :=
| NewWebSocket (url : string)
| OnStatus (text : string)
| OnUpdate (payload : SeatUpdatePayload)
| ConsoleError
| SetTimeoutConnect (delay : Z)
| SocketClose (socket : nat).

Definition socketUrl (clientId : string) : string :=
  let protocol := if String.eqb locationProtocol "https:" then "wss" else "ws" in
  protocol +:+ "://" +:+ locationHost +:+ "/ws?client_id=" +:+ encodeURIComponent clientId.

Definition connect (clientId : string) (s : Subscription)
    : Subscription * list SocketEffect :=
  if stopped s then (s, [])
  else ({| stopped := stopped s; retries := retries s; opened := S (opened s) |},
        [NewWebSocket (socketUrl clientId)]).

Definition onopen (s : Subscription) : Subscription * list SocketEffect :=
  ({| stopped := stopped s; retries := 0; opened := opened s |}, [OnStatus "connected"]).

Definition onmessage (data : string) (s : Subscription) : Subscription * list SocketEffect :=
  match parseFrame data with
  | Some message =>
      if String.eqb (msg_event message) "seat_update" then
        match msg_payload message with
        | Some payload => (s, [OnUpdate payload])
        | None => (s, [])
        end
      else (s, [])
  | None => (s, [ConsoleError])
  end.

Definition onclose (s : Subscription) : Subscription * list SocketEffect :=
  if stopped s then (s, [])
  else
    let retries' := retries s + 1 in
    let delay := Z.min 5000 (1000 * retries') in
    ({| stopped := stopped s; retries := retries'; opened := opened s |},
     [ OnStatus ("reconnecting in " +:+ intToString (delay / 1000) +:+ "s");
       SetTimeoutConnect delay ]).

Definition onerror (s : Subscription) : Subscription * list SocketEffect :=
  (s, [OnStatus "connection error"]).

(** The function [subscribeSeatUpdates] returns. *)
Definition unsubscribe (s : Subscription) : Subscription * list SocketEffect :=
  ({| stopped := true; retries := retries s; opened := opened s |},
   match opened s with
   | O => []
   | S socket => [SocketClose socket]
   end).

(** [subscribeSeatUpdates]: the variables are initialised and [connect] is
    called once. *)
Definition subscribeSeatUpdates (clientId : string) : Subscription * list SocketEffect :=
  connect clientId {| stopped := false; retries := 0; opened := 0 |}.

(** What the browser and the caller can do to a subscription. *)
Inductive SocketEvent :=
| SocketOpened
| SocketMessage (data : string)
| SocketClosed
| SocketErrored
| TimerFired
| Unsubscribed.

Definition socketStep (clientId : string) (s : Subscription) (e : SocketEvent)
    : Subscription * list SocketEffect :=
  match e with
  | SocketOpened => onopen s
  | SocketMessage data => onmessage data s
  | SocketClosed => onclose s
  | SocketErrored => onerror s
  | TimerFired => connect clientId s
  | Unsubscribed => unsubscribe s
  end.

Definition socketRun (clientId : string) (start : Subscription * list SocketEffect)
    (events : list SocketEvent) : Subscription * list SocketEffect :=
  fold_left
    (fun acc e => let '(s', out) := socketStep clientId acc.1 e in (s', acc.2 ++ out))
    events start.

(** The delays of the reconnect timers among some effects. *)
Definition timerDelays (out : list SocketEffect) : list Z :=
  omap (fun eff => match eff with SetTimeoutConnect d => Some d | _ => None end) out.

(** An effect that opens a socket or schedules a reconnect. *)
Definition reconnects (eff : SocketEffect) : bool :=
  match eff with
  | NewWebSocket _ | SetTimeoutConnect _ => true
  | _ => false
  end.

(** The number of close events among some events. *)
Definition closes (events : list SocketEvent) : nat :=
  length (List.filter (fun e => match e with SocketClosed => true | _ => false end) events).

(** An event other than a successful open and the unsubscription. *)
Definition keepsRetrying (e : SocketEvent) : bool :=
  match e with
  | SocketOpened | Unsubscribed => false
  | _ => true
  end.

End Socket.

(** ** [lib/seatPosition.ts], on [intRuntime]

    The arithmetic of the display position is written for the numbers of
    [intRuntime]: an integer, or [None] for [NaN]. *)

(** [a <= b], [a >= b], [a > b]: false when an operand is [NaN]. *)
Definition num_le (a b : option Z) : bool :=
  match a, b with
  | Some x, Some y => x <=? y
  | _, _ => false
  end.

Definition num_ge (a b : option Z) : bool := num_le b a.

Definition num_gt (a b : option Z) : bool :=
  match a, b with
  | Some x, Some y => y <? x
  | _, _ => false
  end.

Definition num_sub (a b : option Z) : option Z :=
  match a, b with
  | Some x, Some y => Some (x - y)
  | _, _ => None
  end.

Definition num_mul (a b : option Z) : option Z :=
  match a, b with
  | Some x, Some y => Some (x * y)
  | _, _ => None
  end.

Definition num_add (a b : option Z) : option Z :=
  match a, b with
  | Some x, Some y => Some (x + y)
  | _, _ => None
  end.

(** [s.split(sep)] for a one-character separator *)
Fixpoint split (sep : ascii) (s : string) : list string :=
  match s with
  | EmptyString => [EmptyString]
  | String c rest =>
      if Ascii.eqb c sep then EmptyString :: split sep rest
      else match split sep rest with
           | part :: parts => String c part :: parts
           | [] => [String c EmptyString]
           end
  end.

Section SeatPosition.
#[local] Existing Instance intRuntime.

Record SeatPosition := {
  row : number;
  column : number;
  floorLabel : string;
  rowLabel : string;
  columnLabel : string;
  text : string
}.

Definition getAdjustedSecondFloorRow (seat : Seat) (fallback : number) : number :=
  let idParts := split "-" (seat_id seat) in
  if (length idParts <? 2)%nat then fallback
  else
    let maybeRow := Number_ (default EmptyString (idParts !! 1%nat)) in
    match maybeRow with
    | None => fallback
    | Some _ =>
        if num_ge maybeRow (Some 1) && num_le maybeRow (Some 4) then num_sub (Some 5) maybeRow
        else if num_gt maybeRow (Some 0) then maybeRow
        else fallback
    end.

Definition getSeatDisplayPosition (seat : Seat) : option SeatPosition :=
  match layout_row seat, layout_col seat with
  | Some layoutRow, Some layoutCol =>
      let floor := floor seat in
      let second := bool_decide (floor = Some 2) in
      let displayRow := if second then getAdjustedSecondFloorRow seat layoutRow else layoutRow in
      let displayColumn :=
        if second then
          let walkwayLeftCol := Some 21 in
          let walkwayRightCol := Some 22 in
          if num_le layoutCol walkwayLeftCol then
            let offset := num_sub walkwayLeftCol layoutCol in
            num_add (num_mul offset (Some 2)) (Some 1)
          else if num_ge layoutCol walkwayRightCol then
            let offset := num_sub layoutCol walkwayRightCol in
            num_add (num_mul offset (Some 2)) (Some 2)
          else layoutCol
        else layoutCol in
      let floorLabel := Number_toString floor +:+ "层" in
      let rowLabel := Number_toString displayRow +:+ "排" in
      let columnLabel := Number_toString displayColumn +:+ "列" in
      Some {| row := displayRow;
              column := displayColumn;
              floorLabel := floorLabel;
              rowLabel := rowLabel;
              columnLabel := columnLabel;
              text := floorLabel +:+ rowLabel +:+ columnLabel |}
  | _, _ => None
  end.

End SeatPosition.

(** ** [components/SelectionSummary.tsx]: the countdown text

    [seconds] is the integer [remainingSeconds] hands over. *)

Fixpoint repeatChar (n : nat) (c : ascii) : string :=
  match n with
  | O => EmptyString
  | S n' => String c (repeatChar n' c)
  end.

(** [s.padStart(targetLength, padChar)] for a one-character pad string *)
Definition padStart (targetLength : nat) (padChar : ascii) (s : string) : string :=
  repeatChar (targetLength - String.length s) padChar +:+ s.

Definition formatSeconds (seconds : Z) : string :=
  if seconds <=? 0 then "已过期"
  else
    let mm := padStart 2 "0" (intToString (seconds / 60)) in
    let ss := padStart 2 "0" (intToString (seconds mod 60)) in
    mm +:+ ":" +:+ ss.

(** The decimal digit [d] as a character, and a number below 100 in two
    digits. *)
Definition digitChar (d : Z) : ascii := ascii_of_nat (48 + Z.to_nat d).

Definition twoDigits (n : Z) : string :=
  String (digitChar (n / 10)) (String (digitChar (n mod 10)) EmptyString).

(** ** [components/AdminPanel.tsx]: the single-seat form, on [intRuntime]

    [handleSubmit] up to the call of [onUpdate]: the error it puts under the
    form, or the seat id and the payload it hands to [handleAdminUpdate].
    [trim] is the string method of the runtime. *)

(** [a < b]: false when an operand is [NaN]. *)
Definition num_lt (a b : option Z) : bool := num_gt b a.

Section AdminPanel.
#[local] Existing Instance intRuntime.
Variable trim : string -> string.

Inductive Submission :=
| FormError (message : string)
| Submit (seatId : string) (payload : AdminSeatUpdatePayload).

Definition handleSubmit (selectedSeat : option Seat) (formStatus : SeatStatus)
    (formTier formPrice : string) : Submission :=
  match selectedSeat with
  | None => FormError "请先加载座位"
  | Some selectedSeat =>
      let statusChanged := negb (SeatStatus_eqb formStatus (status selectedSeat)) in
      let payload_status := if statusChanged then Some formStatus else None in
      let normalizedTier := trim formTier in
      let currentTier := default EmptyString (tier selectedSeat) in
      let tierChanged := negb (String.eqb normalizedTier currentTier) in
      let payload_tier :=
        if tierChanged
        then Some (if truthy normalizedTier then Some normalizedTier else None)
        else None in
      let finish (payload_price : option (option number)) (priceChanged : bool) :=
        if negb (statusChanged || tierChanged || priceChanged)
        then FormError "未检测到任何需要保存的改动"
        else Submit (seat_id selectedSeat)
               {| p_status := payload_status;
                  p_tier := payload_tier;
                  p_price := payload_price |} in
      let trimmedPrice := trim formPrice in
      if truthy trimmedPrice then
        let parsed := Number_ trimmedPrice in
        if negb (Number_isFinite parsed) || num_lt parsed (Some 0)
        then FormError "票价必须为非负数字"
        else if negb (bool_decide (parsed = price selectedSeat))
             then finish (Some (Some parsed)) true
             else finish None false
      else finish None false
  end.

End AdminPanel.

(** ** More sample data on [intRuntime] *)

Section MoreSample.
#[local] Existing Instance intRuntime.

Definition sampleExpiry : string := "2024-01-01T00:02:00.000Z".

(** An update that hands back the seat it was given. *)
Definition keepSeat (id : string) : SeatUpdate :=
  {| seatId := id; patch := fun _ _ => PSame |}.

(** A frame whose [at] is not a date. *)
Definition undatedEvent : SeatUpdatePayload :=
  {| ev_seat_id := "1-1-A";
     ev_from := AVAILABLE;
     ev_to := HOLD;
     ev_by := Some "c2";
     ev_at := "yesterday" |}.

(** The echo of this client's own hold of seat 1-1-A. *)
Definition ownEcho : SeatUpdatePayload :=
  {| ev_seat_id := "1-1-A";
     ev_from := AVAILABLE;
     ev_to := HOLD;
     ev_by := Some "c1";
     ev_at := "2024-01-01T00:00:00.000Z" |}.

(** A hold of two seats of which one was taken by another client. *)
Definition conflictResponse : HoldResponse :=
  {| held := ["1-1-A"];
     refreshed := [];
     conflicts := ["1-1-B"];
     expire_at := Some sampleExpiry |}.

(** A network on which every request fails with the body [e]. *)
Definition failNet (e : string) : Network :=
  cannedNet (Err e) (Err e) (Err e) (Err e) (Err e) (fun _ => Err e).

(** The error body [{"detail":"forbidden"}]. *)
Definition forbiddenBody : string :=
  "{" +:+ String dquote "detail" +:+ String dquote ":" +:+ String dquote "forbidden"
      +:+ String dquote "}".

(** The answer to an admin update that sold seat 1-1-A. *)
Definition singleNet : Network :=
  cannedNet unavailable unavailable unavailable (Ok (sampleSeat "1-1-A" 1 SOLD HoldNull))
    unavailable (fun _ => unavailable).

(** A seat of the second floor at a layout position. *)
Definition balconySeat (id : string) (layoutRow layoutCol : Z) : Seat :=
  {| seat_id := id;
     floor := Some 2;
     excel_row := Some 4;
     excel_col := Some 7;
     layout_row := Some (Some layoutRow);
     layout_col := Some (Some layoutCol);
     zone := "balcony";
     tier := Some "B";
     price := Some 280;
     status := AVAILABLE;
     updated_at := "2024-01-01T00:00:00.000Z";
     hold := HoldNull |}.

(** A subscription whose first socket is open. *)
Definition sampleSubscription : Subscription :=
  {| stopped := false; retries := 0; opened := 1 |}.

End MoreSample.

(** * Properties *)

(** ** The reducer *)

Section ReducerFacts.
Context `{JsRuntime}.

Lemma insertAll_snoc (ws : list (string * Seat)) k v (m : FloorMap) :
  insertAll (ws ++ [(k, v)]) m = <[k := v]> (insertAll ws m).
Proof. unfold insertAll. by rewrite fold_left_app. Qed.

Lemma insertAll_lookup_notin (ws : list (string * Seat)) (m : FloorMap) id :
  id ∉ ws.*1 → insertAll ws m !! id = m !! id.
Proof.
  revert m. induction ws as [|[k v] ws IH]; intros m Hid; [done|].
  cbn in Hid. apply not_elem_of_cons in Hid as [Hne Hid].
  change (insertAll ((k, v) :: ws) m) with (insertAll ws (<[k := v]> m)).
  rewrite IH; [|done]. by rewrite lookup_insert_ne.
Qed.

Lemma insertAll_lookup_same (ws : list (string * Seat)) (m : FloorMap) id v0 :
  (∀ v, (id, v) ∈ ws → v = v0) → id ∈ ws.*1 → insertAll ws m !! id = Some v0.
Proof.
  induction ws as [|[k v] ws IH] using rev_ind; intros Hall Hin.
  - by apply elem_of_nil in Hin.
  - rewrite insertAll_snoc. destruct (decide (k = id)) as [->|Hne].
    + rewrite lookup_insert_eq. f_equal. apply Hall.
      apply elem_of_app. right. by apply list_elem_of_singleton.
    + rewrite lookup_insert_ne; [|done]. apply IH.
      * intros v' Hv'. apply Hall. apply elem_of_app. by left.
      * rewrite fmap_app in Hin. apply elem_of_app in Hin as [Hin|Hin]; [done|].
        apply list_elem_of_singleton in Hin. by destruct Hne.
Qed.

Lemma patchLoop_writes now (cur : FloorMap) us (next : FloorMap) changed :
  (∀ u, u ∈ us → isThrow (patch u now (cur !! seatId u)) = false) →
  patchLoop now cur us next changed
  = Ok (insertAll (writes now cur us) next, changed || nonEmpty (writes now cur us)).
Proof.
  revert next changed. induction us as [|u us IH]; intros next changed Hok; cbn.
  - by rewrite orb_false_r.
  - assert (Hu : isThrow (patch u now (cur !! seatId u)) = false)
      by (apply Hok, elem_of_cons; by left).
    assert (Hus : ∀ u', u' ∈ us → isThrow (patch u' now (cur !! seatId u')) = false)
      by (intros; apply Hok, elem_of_cons; by right).
    unfold writes in *. cbn.
    destruct (patch u now (cur !! seatId u)); try done; cbn; rewrite IH; try done.
    by rewrite orb_true_r.
Qed.

Lemma writes_noop now (cur : FloorMap) us :
  (∀ u, u ∈ us → isNoop (patch u now (cur !! seatId u)) = true) → writes now cur us = [].
Proof.
  induction us as [|u us IH]; intros Hnoop; [done|].
  assert (Hu : isNoop (patch u now (cur !! seatId u)) = true)
    by (apply Hnoop, elem_of_cons; by left).
  unfold writes in *. cbn.
  destruct (patch u now (cur !! seatId u)); try done;
    apply IH; intros u' Hu'; apply Hnoop, elem_of_cons; by right.
Qed.

(** The state a [PATCH_SEATS] action leads to when no patch throws. *)
Lemma seatReducer_patch now (state : SeatState) floor us cur :
  state !! floor = Some cur →
  (∀ u, u ∈ us → isThrow (patch u now (cur !! seatId u)) = false) →
  ∃ state',
    seatReducer now state (PATCH_SEATS floor us) = Ok state'
    ∧ state' !! floor = Some (insertAll (writes now cur us) cur)
    ∧ (∀ g, g ≠ floor → state' !! g = state !! g)
    ∧ (writes now cur us = [] → state' = state).
Proof.
  intros Hcur Hok. cbn. rewrite Hcur, (patchLoop_writes _ _ _ _ _ Hok). cbn.
  destruct (writes now cur us) as [|w ws] eqn:Hw; cbn.
  - exists state. done.
  - eexists. split; [done|]. split; [by rewrite lookup_insert_eq|].
    split; [|done]. intros g Hg. by rewrite lookup_insert_ne.
Qed.

Lemma seatReducer_unloaded now (state : SeatState) floor us :
  state !! floor = None → seatReducer now state (PATCH_SEATS floor us) = Ok state.
Proof. intros Hf. cbn. by rewrite Hf. Qed.

Lemma seatReducer_frame now (state state' : SeatState) action g :
  seatReducer now state action = Ok state' →
  g ≠ actionFloor action → state' !! g = state !! g.
Proof.
  destruct action as [floor seats|floor us]; cbn; intros Hred Hg.
  - inversion Hred. by rewrite lookup_insert_ne.
  - destruct (state !! floor) as [cur|]; [|by inversion Hred].
    destruct (patchLoop now cur us cur false) as [[next [|]]|]; inversion Hred; [|done].
    by rewrite lookup_insert_ne.
Qed.

End ReducerFacts.

(** ** Grouping by floor *)

Section GroupFacts.
Context `{JsRuntime} {V : Type}.
Implicit Types (g : list (number * list V)) (k : number) (v : V).

Lemma groupGet_push g k v k' :
  groupGet (groupPush g k v) k'
  = if decide (k = k') then groupGet g k ++ [v] else groupGet g k'.
Proof.
  induction g as [|[k0 vs] g IH]; cbn.
  - repeat case_decide; by subst.
  - destruct (decide (k0 = k)) as [->|Hne]; cbn.
    + repeat case_decide; by subst.
    + rewrite IH. repeat case_decide; by subst.
Qed.

Lemma groupPush_keys g k v :
  (groupPush g k v).*1 = if decide (k ∈ g.*1) then g.*1 else g.*1 ++ [k].
Proof.
  induction g as [|[k0 vs] g IH]; cbn.
  - case_decide as Hin; [by apply elem_of_nil in Hin|done].
  - destruct (decide (k0 = k)) as [->|Hne]; cbn.
    + rewrite decide_True; [done|]. apply elem_of_cons. by left.
    + rewrite IH. destruct (decide (k ∈ g.*1)) as [Hin|Hnin].
      * rewrite decide_True; [done|]. apply elem_of_cons. by right.
      * rewrite decide_False; [done|]. intros [->|?]%elem_of_cons; done.
Qed.

Lemma groupPush_NoDup g k v : NoDup g.*1 → NoDup (groupPush g k v).*1.
Proof.
  intros Hnd. rewrite groupPush_keys. case_decide as Hin; [done|].
  apply NoDup_app. split; [done|]. split.
  - intros x Hx ->%list_elem_of_singleton. done.
  - apply NoDup_singleton.
Qed.

Lemma groupAll_snoc (key : V → number) l v :
  groupAll key (l ++ [v]) = groupPush (groupAll key l) (key v) v.
Proof. unfold groupAll. by rewrite fold_left_app. Qed.

Lemma groupAll_NoDup (key : V → number) l : NoDup (groupAll key l).*1.
Proof.
  induction l as [|v l IH] using rev_ind; [apply NoDup_nil_2|].
  rewrite groupAll_snoc. by apply groupPush_NoDup.
Qed.

Lemma groupGet_groupAll (key : V → number) l k :
  groupGet (groupAll key l) k = filter (λ v, key v = k) l.
Proof.
  induction l as [|v l IH] using rev_ind; [done|].
  rewrite groupAll_snoc, groupGet_push, filter_app, filter_cons, filter_nil.
  destruct (decide (key v = k)) as [Hk|Hk].
  - by rewrite Hk, IH.
  - by rewrite app_nil_r.
Qed.

Lemma groupGet_notin g k : k ∉ g.*1 → groupGet g k = [].
Proof.
  induction g as [|[k0 vs] g IH]; [done|]. cbn.
  intros [Hne Hnin]%not_elem_of_cons. rewrite decide_False; [|done]. by apply IH.
Qed.

End GroupFacts.

(** ** Running programs *)

Section ExecFacts.
Context `{JsRuntime}.

Lemma withState_same (w : World) : withState w (w_state w) = w.
Proof. by destruct w. Qed.

Lemma exec_bind {A B} net (p : Prog A) (f : A → Prog B) w :
  exec net (p ≫= f) w
  = match exec net p w with
    | (w', Returned a) => exec net (f a) w'
    | (w', Rejected e) => (w', Rejected e)
    | (w', Crashed e) => (w', Crashed e)
    end.
Proof.
  revert w. induction p as [a|e|X call k IH|action k IH|k IH|u k IH]; intros w; cbn;
    try done; try apply IH.
  destruct (seatReducer (w_now w) (w_state w) action); [apply IH|done].
Qed.

Lemma exec_tryCatch {A} net (p : Prog A) handler w :
  exec net (tryCatch p handler) w
  = match exec net p w with
    | (w', Rejected e) => exec net (handler e) w'
    | other => other
    end.
Proof.
  revert w. induction p as [a|e|X call k IH|action k IH|k IH|u k IH]; intros w; cbn;
    try done; try apply IH.
  destruct (seatReducer (w_now w) (w_state w) action); [apply IH|done].
Qed.

Lemma exec_finally {A} net (p : Prog A) fin w :
  exec net (finally_ p fin) w
  = match exec net p w with
    | (w', Returned a) => exec net (fin;; Ret a) w'
    | (w', Rejected e) => exec net (fin;; Throw e) w'
    | (w', Crashed e) => (w', Crashed e)
    end.
Proof.
  revert w. induction p as [a|e|X call k IH|action k IH|k IH|u k IH]; intros w; cbn;
    try done; try apply IH.
  destruct (seatReducer (w_now w) (w_state w) action); [apply IH|done].
Qed.

Lemma exec_emit net u w : exec net (emit u) w = (withUi w u, Returned tt).
Proof. done. Qed.

Lemma exec_dispatch net action w :
  exec net (dispatch action) w
  = match seatReducer (w_now w) (w_state w) action with
    | Ok state' => (withState w state', Returned tt)
    | Err e => (w, Crashed e)
    end.
Proof. cbn. by destruct (seatReducer (w_now w) (w_state w) action). Qed.

Lemma patchFloor_nil now (m : option FloorMap) : patchFloor now [] m = m.
Proof. by destruct m. Qed.

(** The groups of a [forEach] are dispatched floor by floor; each floor map
    receives the writes of its own group and nothing else. *)
Lemma exec_dispatchGroups {V} net (mk : V → SeatUpdate) (g : list (number * list V)) w :
  NoDup g.*1 →
  (∀ v o, isThrow (patch (mk v) (w_now w) o) = false) →
  ∃ state',
    exec net (dispatchGroups mk g) w = (withState w state', Returned tt)
    ∧ ∀ f, state' !! f = patchFloor (w_now w) (map mk (groupGet g f)) (w_state w !! f).
Proof.
  intros Hnd Hok. revert w Hok. induction g as [|[k vs] g IH]; intros w Hok.
  - exists (w_state w). rewrite withState_same. split; [done|].
    intros f. by rewrite patchFloor_nil.
  - apply NoDup_cons in Hnd as [Hk Hnd].
    unfold dispatchGroups. cbn [forEach]. rewrite exec_bind, exec_dispatch.
    assert (∃ state1,
      seatReducer (w_now w) (w_state w) (PATCH_SEATS k (map mk vs)) = Ok state1
      ∧ state1 !! k = patchFloor (w_now w) (map mk vs) (w_state w !! k)
      ∧ ∀ f, f ≠ k → state1 !! f = w_state w !! f) as (state1 & -> & Hk1 & Hne1).
    { destruct (w_state w !! k) as [cur|] eqn:Hcur.
      - destruct (seatReducer_patch (w_now w) (w_state w) k (map mk vs) cur Hcur)
          as (state1 & Hred & Hl & Hf & _).
        + intros u [v [-> _]]%list_elem_of_fmap. apply Hok.
        + by exists state1.
      - exists (w_state w). by rewrite seatReducer_unloaded. }
    destruct (IH Hnd (withState w state1) Hok) as (state' & Hexec & Hlook).
    exists state'. split; [exact Hexec|].
    intros f. rewrite Hlook. cbn. destruct (decide (k = f)) as [<-|Hne].
    + rewrite Hk1, (groupGet_notin g k Hk). apply patchFloor_nil.
    + by rewrite Hne1.
Qed.

End ExecFacts.

(** ** Hold, release and replace patches *)

Section ApplyFacts.
Context `{JsRuntime}.

(** Updates that rewrite an existing seat with [g] and leave a missing seat
    missing: the floor map afterwards, seat by seat. *)
Lemma insertAll_writes_lift now (cur : FloorMap) us (g : Seat → Seat) id :
  (∀ u, u ∈ us →
     isNoop (patch u now None) = true ∧ ∀ s, patch u now (Some s) = PFresh (g s)) →
  insertAll (writes now cur us) cur !! id
  = if decide (id ∈ map seatId us) then g <$> cur !! id else cur !! id.
Proof.
  intros Hlift.
  assert (Hw : ∀ k v, (k, v) ∈ writes now cur us →
            k ∈ map seatId us ∧ ∃ s, cur !! k = Some s ∧ v = g s).
  { intros k v (u & Hu & Hp)%list_elem_of_omap.
    destruct (Hlift u Hu) as [Hnone Hsome].
    destruct (cur !! seatId u) as [s|] eqn:Hs.
    - rewrite Hsome in Hp. inversion Hp; subst. split; [by apply list_elem_of_fmap_2|eauto].
    - destruct (patch u now None); done. }
  destruct (decide (id ∈ map seatId us)) as [Hin|Hnin].
  - destruct (cur !! id) as [s|] eqn:Hs; cbn.
    + apply insertAll_lookup_same.
      * intros v (_ & s' & Hs' & ->)%Hw. rewrite Hs in Hs'. by injection Hs' as ->.
      * apply list_elem_of_fmap in Hin as (u & -> & Hu).
        apply list_elem_of_fmap. exists (seatId u, g s). split; [done|].
        apply list_elem_of_omap. exists u. split; [done|].
        destruct (Hlift u Hu) as [_ Hsome]. by rewrite Hs, Hsome.
    + rewrite insertAll_lookup_notin; [done|].
      intros ([k v] & -> & (_ & s & Hs' & _)%Hw)%list_elem_of_fmap. cbn in Hs. congruence.
  - rewrite insertAll_lookup_notin; [done|].
    intros ([k v] & -> & (Hk & _)%Hw)%list_elem_of_fmap. done.
Qed.

Lemma fold_groupPush_map {U V} (key : U → number) (h : U → V) (key' : V → number) l acc :
  (∀ x, key' (h x) = key x) →
  fold_left (fun g x => groupPush g (key x) (h x)) l acc
  = fold_left (fun g v => groupPush g (key' v) v) (map h l) acc.
Proof.
  intros Hkey. revert acc. induction l as [|x l IH]; intros acc; [done|].
  cbn. by rewrite Hkey, IH.
Qed.

Lemma mkRelease_lift now u (items : list string) :
  u ∈ map mkRelease items →
  isNoop (patch u now None) = true ∧ ∀ s, patch u now (Some s) = PFresh (releasedSeat now s).
Proof. by intros (id & -> & _)%list_elem_of_fmap. Qed.

Lemma mkHold_lift clientId expiry now u (items : list (string * string)) :
  (∀ item, item ∈ items → item.2 = expiry) →
  u ∈ map (mkHold clientId) items →
  isNoop (patch u now None) = true
  ∧ ∀ s, patch u now (Some s) = PFresh (heldSeat clientId expiry now s).
Proof.
  intros Hexp (item & -> & Hitem)%list_elem_of_fmap. cbn. by rewrite (Hexp _ Hitem).
Qed.

(** [applyRelease]: the seats named in [seatIds], looked up on the floor
    their id names, become AVAILABLE without a hold; every other entry of the
    state is what it was. *)
Lemma exec_applyRelease net seatIds w :
  ∃ state',
    exec net (applyRelease seatIds) w = (withState w state', Returned tt)
    ∧ ∀ f id,
        seatAt state' f id
        = if decide (id ∈ seatIds ∧ seatIdToFloor id = f)
          then releasedSeat (w_now w) <$> seatAt (w_state w) f id
          else seatAt (w_state w) f id.
Proof.
  destruct seatIds as [|id0 ids0] eqn:Hids.
  { exists (w_state w). rewrite withState_same. split; [done|].
    intros f id. rewrite decide_False; [done|]. by intros [?%elem_of_nil _]. }
  rewrite <- Hids. assert (Hne : nonEmpty seatIds = true) by by rewrite Hids. clear Hids.
  destruct (exec_dispatchGroups net mkRelease (groupAll seatIdToFloor seatIds) w)
    as (state' & Hexec & Hlook).
  { apply groupAll_NoDup. }
  { intros v o. by destruct o. }
  exists state'. split.
  { unfold applyRelease. by rewrite Hne. }
  intros f id. unfold seatAt. rewrite Hlook, groupGet_groupAll.
  destruct (w_state w !! f) as [cur|]; cbn; [|by case_decide].
  rewrite (insertAll_writes_lift _ _ _ (releasedSeat (w_now w))).
  2:{ intros u Hu. by apply (mkRelease_lift _ _ _ Hu). }
  assert (Hiff : id ∈ map seatId (map mkRelease (filter (λ v, seatIdToFloor v = f) seatIds))
                 ↔ id ∈ seatIds ∧ seatIdToFloor id = f).
  { rewrite <- list_fmap_compose. split.
    - by intros (x & -> & [Hf Hx]%list_elem_of_filter)%list_elem_of_fmap.
    - intros [Hin Hf]. apply list_elem_of_fmap. exists id. split; [done|].
      by apply list_elem_of_filter. }
  repeat case_decide; tauto.
Qed.

(** [applyHoldResult]: one expiry, fixed before any dispatch, for every seat
    of the list. *)
Lemma exec_applyHoldResult net clientId seatIds expireAt w :
  ∃ state',
    exec net (applyHoldResult clientId seatIds expireAt) w = (withState w state', Returned tt)
    ∧ ∀ f id,
        seatAt state' f id
        = if decide (id ∈ seatIds ∧ seatIdToFloor id = f)
          then heldSeat clientId (getExpireAtOrDefault (w_now w) expireAt) (w_now w)
                 <$> seatAt (w_state w) f id
          else seatAt (w_state w) f id.
Proof.
  destruct seatIds as [|id0 ids0] eqn:Hids.
  { exists (w_state w). rewrite withState_same. split; [done|].
    intros f id. rewrite decide_False; [done|]. by intros [?%elem_of_nil _]. }
  rewrite <- Hids. assert (Hne : nonEmpty seatIds = true) by by rewrite Hids. clear Hids.
  set (expiry := getExpireAtOrDefault (w_now w) expireAt).
  set (items := map (λ id, (id, expiry)) seatIds).
  destruct (exec_dispatchGroups net (mkHold clientId)
              (groupAll (λ item, seatIdToFloor item.1) items) w)
    as (state' & Hexec & Hlook).
  { apply groupAll_NoDup. }
  { intros v o. by destruct o. }
  exists state'. split.
  { unfold applyHoldResult. rewrite Hne. cbn [negb].
    rewrite <- Hexec, exec_bind. unfold groupAll, items.
    change (exec net dateNow w) with (w, Returned (w_now w)). cbv beta iota. fold expiry.
    by rewrite (fold_groupPush_map seatIdToFloor (λ id, (id, expiry))
                  (λ item, seatIdToFloor item.1)). }
  intros f id. unfold seatAt. rewrite Hlook, groupGet_groupAll.
  destruct (w_state w !! f) as [cur|]; cbn; [|by case_decide].
  rewrite (insertAll_writes_lift _ _ _ (heldSeat clientId expiry (w_now w))).
  2:{ intros u Hu. refine (mkHold_lift _ _ _ _ _ _ Hu).
      by intros item [_ (x & -> & _)%list_elem_of_fmap]%list_elem_of_filter. }
  assert (Hiff : id ∈ map seatId (map (mkHold clientId)
                          (filter (λ item, seatIdToFloor item.1 = f) items))
                 ↔ id ∈ seatIds ∧ seatIdToFloor id = f).
  { rewrite <- list_fmap_compose. split.
    - intros (item & -> & [Hf (x & -> & Hx)%list_elem_of_fmap]%list_elem_of_filter)%list_elem_of_fmap.
      done.
    - intros [Hin Hf]. apply list_elem_of_fmap. exists (id, expiry). split; [done|].
      apply list_elem_of_filter. split; [done|].
      by apply (list_elem_of_fmap_2 (λ x, (x, expiry))). }
  repeat case_decide; tauto.
Qed.

End ApplyFacts.

(** ** Claims about the reducer *)

Section ReducerClaims.
Context `{JsRuntime}.

(** C10. A [PATCH_SEATS] action whose floor has no loaded seat map, or all of
    whose patch functions return [undefined] or the existing seat object,
    makes the reducer return the previous state; and a [SET_SEATS] or
    [PATCH_SEATS] action for a floor leaves the seat map of every other floor
    as it was.  [SET_SEATS] always returns; [PATCH_SEATS] returns unless a
    patch function throws. *)
Theorem seatReducer_noop_and_frame now (state : SeatState) floor :
  (∀ updates,
     state !! floor = None
     ∨ (∀ cur u, state !! floor = Some cur → u ∈ updates →
          isNoop (patch u now (cur !! seatId u)) = true) →
     seatReducer now state (PATCH_SEATS floor updates) = Ok state)
  ∧ (∀ seats, ∃ state',
       seatReducer now state (SET_SEATS floor seats) = Ok state'
       ∧ ∀ g, g ≠ floor → state' !! g = state !! g)
  ∧ (∀ updates,
       (∀ u o, u ∈ updates → isThrow (patch u now o) = false) →
       ∃ state',
         seatReducer now state (PATCH_SEATS floor updates) = Ok state'
         ∧ ∀ g, g ≠ floor → state' !! g = state !! g).
Proof.
  split; [|split].
  - intros updates [Hnone|Hnoop]; [by apply seatReducer_unloaded|].
    destruct (state !! floor) as [cur|] eqn:Hcur; [|by apply seatReducer_unloaded].
    destruct (seatReducer_patch now state floor updates cur Hcur) as (state' & -> & _ & _ & Hsame).
    + intros u Hu. specialize (Hnoop cur u eq_refl Hu).
      by destruct (patch u now (cur !! seatId u)).
    + f_equal. apply Hsame, writes_noop. intros u Hu. by apply Hnoop.
  - intros seats. eexists. split; [done|]. intros g Hg. by rewrite lookup_insert_ne.
  - intros updates Hok.
    destruct (state !! floor) as [cur|] eqn:Hcur.
    + destruct (seatReducer_patch now state floor updates cur Hcur) as (state' & Hred & _ & Hf & _).
      * intros u Hu. by apply Hok.
      * by exists state'.
    + exists state. split; [by apply seatReducer_unloaded|done].
Qed.

End ReducerClaims.

Section ReducerWitnesses.
#[local] Existing Instance intRuntime.

Lemma seatReducer_noop_and_frame_witness :
  seatReducer sampleNow sampleState (PATCH_SEATS (Some 2) [mkRelease "2-1-A"]) = Ok sampleState
  ∧ seatReducer sampleNow sampleState (PATCH_SEATS (Some 1) [mkRelease "1-9-Z"]) = Ok sampleState
  ∧ ∃ state',
      seatReducer sampleNow sampleState (PATCH_SEATS (Some 1) [mkRelease "1-1-A"]) = Ok state'
      ∧ ∀ g, g ≠ Some 1 → state' !! g = sampleState !! g.
Proof.
  destruct (seatReducer_noop_and_frame sampleNow sampleState (Some 2)) as (Hunloaded & _ & _).
  destruct (seatReducer_noop_and_frame sampleNow sampleState (Some 1)) as (Hnoop & _ & Hframe).
  split; [|split].
  - apply Hunloaded. left. reflexivity.
  - apply Hnoop. right. intros cur u Hcur ->%list_elem_of_singleton.
    assert (Hloaded : Some cur = Some (seatsToMap sampleSnapshot))
      by (rewrite <- Hcur; reflexivity).
    injection Hloaded as ->. reflexivity.
  - apply Hframe. intros u o ->%list_elem_of_singleton. by destruct o.
Defined.

End ReducerWitnesses.

(** ** Hold responses and live updates *)

Section HoldFacts.
Context `{JsRuntime}.

Lemma nonEmpty_app {X} (l1 l2 : list X) : nonEmpty l1 || nonEmpty l2 = nonEmpty (l1 ++ l2).
Proof. by destruct l1, l2. Qed.

Lemma exec_applyHoldResponse net clientId (response : HoldResponse) w :
  ∃ state',
    exec net (applyHoldResponse clientId response) w = (withState w state', Returned tt)
    ∧ ∀ f id,
        seatAt state' f id
        = if decide (id ∈ held response ++ refreshed response ∧ seatIdToFloor id = f)
          then heldSeat clientId (getExpireAtOrDefault (w_now w) (expire_at response)) (w_now w)
                 <$> seatAt (w_state w) f id
          else seatAt (w_state w) f id.
Proof.
  unfold applyHoldResponse. rewrite nonEmpty_app.
  destruct (exec_applyHoldResult net clientId (held response ++ refreshed response)
              (expire_at response) w) as (state' & Hexec & Hlook).
  destruct (held response ++ refreshed response) as [|id0 ids] eqn:Hids.
  - exists (w_state w). rewrite withState_same. split; [done|].
    intros f id. rewrite decide_False; [done|]. by intros [?%elem_of_nil _].
  - by exists state'.
Qed.

(** A [seat_update] event whose [at] is a valid date: the seat it names, if
    the client has it on the floor its id names, is rewritten; nothing else
    changes. *)
Lemma seatReducer_onUpdate now (state : SeatState) clientId payload at_ :
  Date_parse (ev_at payload) = Some at_ →
  ∃ state',
    seatReducer now state (onUpdate clientId payload) = Ok state'
    ∧ ∀ f id,
        seatAt state' f id
        = if decide (id = ev_seat_id payload ∧ seatIdToFloor id = f)
          then onUpdateNext clientId payload now at_ <$> seatAt state f id
          else seatAt state f id.
Proof.
  intros Hat. unfold onUpdate.
  set (floor := seatIdToFloor (ev_seat_id payload)).
  set (us := [ {| seatId := ev_seat_id payload; patch := onUpdatePatch clientId payload |} ]).
  assert (Hlift : ∀ u, u ∈ us →
            isNoop (patch u now None) = true
            ∧ ∀ s, patch u now (Some s) = PFresh (onUpdateNext clientId payload now at_ s)).
  { intros u ->%list_elem_of_singleton. cbn. by rewrite Hat. }
  destruct (state !! floor) as [cur|] eqn:Hcur.
  - destruct (seatReducer_patch now state floor us cur Hcur) as (state' & Hred & Hl & Hf & _).
    { intros u Hu. destruct (Hlift u Hu) as [Hnone Hsome].
      destruct (cur !! seatId u); [by rewrite Hsome|by destruct (patch u now None)]. }
    exists state'. split; [done|]. intros f id. unfold seatAt.
    destruct (decide (f = floor)) as [->|Hne].
    + rewrite Hl, Hcur. cbn [mbind option_bind].
      rewrite (insertAll_writes_lift _ _ _ _ _ Hlift).
      assert (Hiff : id ∈ map seatId us ↔ id = ev_seat_id payload ∧ seatIdToFloor id = floor).
      { unfold us. cbn [map seatId]. rewrite list_elem_of_singleton.
        split; [by intros ->|by intros [-> _]]. }
      repeat case_decide; tauto.
    + rewrite Hf by done. rewrite decide_False; [done|]. by intros [-> <-].
  - exists state. split; [by apply seatReducer_unloaded|].
    intros f id. unfold seatAt. case_decide as Hc; [|done].
    destruct Hc as [-> <-]. fold floor. by rewrite Hcur.
Qed.

Lemma heldSeat_consistent clientId expire now (seat : Seat) :
  status (heldSeat clientId expire now seat) = HOLD
  ↔ holdPresent (heldSeat clientId expire now seat) = true.
Proof. done. Qed.

Lemma releasedSeat_consistent now (seat : Seat) :
  status (releasedSeat now seat) = HOLD ↔ holdPresent (releasedSeat now seat) = true.
Proof. done. Qed.

Lemma onUpdateNext_consistent clientId payload now at_ (seat : Seat) :
  status (onUpdateNext clientId payload now at_ seat) = HOLD
  ↔ holdPresent (onUpdateNext clientId payload now at_ seat) = true.
Proof. unfold onUpdateNext. by destruct (ev_to payload). Qed.

Lemma lookups_consistent (state state' : SeatState) (P : number → string → Prop)
    `{∀ f id, Decision (P f id)} (g : Seat → Seat) :
  (∀ seat, status (g seat) = HOLD ↔ holdPresent (g seat) = true) →
  (∀ f id, seatAt state' f id = if decide (P f id) then g <$> seatAt state f id
                                else seatAt state f id) →
  changedSeatsConsistent state state'.
Proof.
  intros Hg Hlook f id seat'. rewrite Hlook. case_decide; [|by left].
  destruct (seatAt state f id) as [seat|]; [|done]. intros [= <-]. by right.
Qed.

End HoldFacts.

(** ** Claims about holds *)

Section HoldClaims.
Context `{JsRuntime}.


(** C2, as the code has it.  For every hold or refresh response, each held or
    refreshed seat the client has (on the floor its id names) ends on HOLD for
    this client with the expiry [getExpireAtOrDefault] yields: the response's
    [expire_at] when that is a non-empty string, and otherwise the client's
    own default, [HOLD_TTL_SECONDS] after its clock. *)
Theorem hold_response_expiry clientId (response : HoldResponse) net w :
  ∃ state' expiry,
    exec net (applyHoldResponse clientId response) w = (withState w state', Returned tt)
    ∧ (∀ e, expire_at response = Some e → truthy e = true → expiry = e)
    ∧ (expire_at response = None ∨ expire_at response = Some EmptyString →
       expiry = Date_toISOString (w_now w + HOLD_TTL_SECONDS * 1000))
    ∧ ∀ id seat,
        id ∈ held response ++ refreshed response →
        seatAt (w_state w) (seatIdToFloor id) id = Some seat →
        ∃ seat',
          seatAt state' (seatIdToFloor id) id = Some seat'
          ∧ status seat' = HOLD
          ∧ hold seat' = HoldInfo {| client_id := clientId; expires_at := expiry |}.
Proof.
  destruct (exec_applyHoldResponse net clientId response w) as (state' & Hexec & Hlook).
  exists state', (getExpireAtOrDefault (w_now w) (expire_at response)).
  split; [done|]. split; [|split].
  - intros e -> He. cbn. by rewrite He.
  - by intros [->| ->].
  - intros id seat Hid Hseat. rewrite Hlook, decide_True, Hseat by done.
    eexists. split; [done|]. done.
Qed.

(** C7, as the code has it.  The body of a hold request is exactly
    [{seat_ids, client_id}]; the response carries [held], [refreshed],
    [conflicts] and one [expire_at]; and the client gives every held or
    refreshed seat it has one and the same expiry, which is [expire_at] when
    that is a non-empty string and the client's default otherwise. *)
Theorem hold_request_and_uniform_expiry clientId seatIds (response : HoldResponse) net w :
  body (fetchOf (holdSeats seatIds clientId))
  = Some (JObj [ ("seat_ids", JArr (map JStr seatIds)); ("client_id", JStr clientId) ])
  ∧ ∃ state' expiry,
      exec net (applyHoldResponse clientId response) w = (withState w state', Returned tt)
      ∧ expiry = match expire_at response with
                 | Some e => if truthy e then e
                             else Date_toISOString (w_now w + HOLD_TTL_SECONDS * 1000)
                 | None => Date_toISOString (w_now w + HOLD_TTL_SECONDS * 1000)
                 end
      ∧ ∀ id seat,
          id ∈ held response ∨ id ∈ refreshed response →
          seatAt (w_state w) (seatIdToFloor id) id = Some seat →
          (hold_expires_at <$> seatAt state' (seatIdToFloor id) id) = Some (Some expiry).
Proof.
  split; [done|].
  destruct (exec_applyHoldResponse net clientId response w) as (state' & Hexec & Hlook).
  exists state', (getExpireAtOrDefault (w_now w) (expire_at response)).
  split; [done|]. split; [done|].
  intros id seat Hid Hseat. rewrite Hlook, decide_True, Hseat; [done|].
  split; [|done]. by apply elem_of_app.
Qed.

End HoldClaims.

Section HoldExamples.
#[local] Existing Instance intRuntime.



Lemma hold_response_expiry_witness :
  ∃ state' seat',
    exec (holdNet nullExpiryResponse) (applyHoldResponse "c1" nullExpiryResponse) sampleWorld
    = (withState sampleWorld state', Returned tt)
    ∧ seatAt state' (Some 1) "1-1-A" = Some seat'
    ∧ status seat' = HOLD
    ∧ hold seat' = HoldInfo {| client_id := "c1"; expires_at := "2024-01-01T00:02:00.000Z" |}.
Proof.
  destruct (hold_response_expiry "c1" nullExpiryResponse (holdNet nullExpiryResponse) sampleWorld)
    as (state' & expiry & Hexec & _ & Hdefault & Hseats).
  destruct (Hseats "1-1-A" (sampleSeat "1-1-A" 1 AVAILABLE HoldNull))
    as (seat' & Hseat' & Hstatus & Hhold).
  { apply elem_of_cons. by left. }
  { reflexivity. }
  exists state', seat'. split; [exact Hexec|]. split; [exact Hseat'|]. split; [exact Hstatus|].
  rewrite Hhold, Hdefault; [|by left]. reflexivity.
Defined.

(** C2 as stated fails: a hold answered without an expiry is recorded with
    one the client computed from its own clock. *)
Lemma computed_expiry_counterexample :
  let w' := (exec (holdNet nullExpiryResponse)
               (handleSeatClick sampleRender (sampleSeat "1-1-A" 1 AVAILABLE HoldNull))
               sampleWorld).1 in
  ∃ seat',
    seatAt (w_state w') (Some 1) "1-1-A" = Some seat'
    ∧ expire_at nullExpiryResponse = None
    ∧ hold_expires_at seat' = Some "2024-01-01T00:02:00.040Z"
    ∧ hold_expires_at seat' ≠ expire_at nullExpiryResponse.
Proof. eexists. split; [reflexivity|]. repeat split. discriminate. Qed.

Lemma hold_request_and_uniform_expiry_witness :
  ∃ state',
    exec (holdNet nullExpiryPairResponse) (applyHoldResponse "c1" nullExpiryPairResponse)
      sampleWorld
    = (withState sampleWorld state', Returned tt)
    ∧ (hold_expires_at <$> seatAt state' (Some 1) "1-1-A")
      = Some (Some "2024-01-01T00:02:00.000Z")
    ∧ (hold_expires_at <$> seatAt state' (Some 1) "1-1-B")
      = Some (Some "2024-01-01T00:02:00.000Z").
Proof.
  destruct (hold_request_and_uniform_expiry "c1" ["1-1-A"; "1-1-B"] nullExpiryPairResponse
              (holdNet nullExpiryPairResponse) sampleWorld)
    as (_ & state' & expiry & Hexec & Hexpiry & Hseats).
  exists state'. split; [exact Hexec|].
  assert (Hvalue : expiry = "2024-01-01T00:02:00.000Z") by (rewrite Hexpiry; reflexivity).
  rewrite <- Hvalue. split.
  - apply (Hseats "1-1-A" (sampleSeat "1-1-A" 1 AVAILABLE HoldNull)).
    + left. apply elem_of_cons. by left.
    + reflexivity.
  - apply (Hseats "1-1-B" (sampleSeat "1-1-B" 1 AVAILABLE HoldNull)).
    + left. apply elem_of_cons. right. apply elem_of_cons. by left.
    + reflexivity.
Defined.

(** C7 as stated fails where [expire_at] is null: the seats of a box
    selection all get one expiry, but it is the client's default, not the
    null the response carried. *)
Lemma null_expiry_counterexample :
  let w' := (exec (holdNet nullExpiryPairResponse)
               (handleBoxSelect sampleRender ["1-1-A"; "1-1-B"]) sampleWorld).1 in
  expire_at nullExpiryPairResponse = None
  ∧ (hold_expires_at <$> seatAt (w_state w') (Some 1) "1-1-A")
    = Some (Some "2024-01-01T00:02:00.040Z")
  ∧ (hold_expires_at <$> seatAt (w_state w') (Some 1) "1-1-B")
    = Some (Some "2024-01-01T00:02:00.040Z").
Proof. repeat split; reflexivity. Qed.

End HoldExamples.

(** ** The initial fetch and the live stream *)

Section StreamClaims.
Context `{JsRuntime}.

(** C3, as the code has it.  A [seat_update] event that arrives while the
    floor of its seat has no loaded seat map is dropped; [SET_SEATS] installs
    exactly the fetched snapshot, whatever came before; and an event with a
    valid date for a seat the client has sets that seat's status to the
    event's [to].  So a transition is reflected when the snapshot has it or
    its event arrives after [SET_SEATS], not in every interleaving. *)
Theorem snapshot_then_stream clientId now (state : SeatState) :
  (∀ payload,
     state !! seatIdToFloor (ev_seat_id payload) = None →
     seatReducer now state (onUpdate clientId payload) = Ok state)
  ∧ (∀ floor snapshot, ∃ state',
       seatReducer now state (SET_SEATS floor snapshot) = Ok state'
       ∧ state' !! floor = Some (seatsToMap snapshot))
  ∧ (∀ payload seat,
       is_Some (Date_parse (ev_at payload)) →
       seatAt state (seatIdToFloor (ev_seat_id payload)) (ev_seat_id payload) = Some seat →
       ∃ state' seat',
         seatReducer now state (onUpdate clientId payload) = Ok state'
         ∧ seatAt state' (seatIdToFloor (ev_seat_id payload)) (ev_seat_id payload) = Some seat'
         ∧ status seat' = ev_to payload).
Proof.
  split; [|split].
  - intros payload Hnone. by apply seatReducer_unloaded.
  - intros floor snapshot. eexists. split; [done|]. by rewrite lookup_insert_eq.
  - intros payload seat [at_ Hat] Hseat.
    destruct (seatReducer_onUpdate now state clientId payload at_ Hat)
      as (state' & Hred & Hlook).
    exists state', (onUpdateNext clientId payload now at_ seat).
    split; [done|]. split; [|done].
    by rewrite Hlook, decide_True, Hseat.
Qed.

End StreamClaims.

Section StreamExamples.
#[local] Existing Instance intRuntime.

Lemma snapshot_then_stream_witness :
  seatReducer sampleNow ∅ (onUpdate "c1" sampleEvent) = Ok ∅
  ∧ ∃ state' seat',
      seatReducer sampleNow sampleState (onUpdate "c1" sampleEvent) = Ok state'
      ∧ seatAt state' (Some 1) "1-1-A" = Some seat'
      ∧ status seat' = HOLD.
Proof.
  split.
  - destruct (snapshot_then_stream "c1" sampleNow ∅) as (Hdropped & _ & _).
    apply Hdropped. reflexivity.
  - destruct (snapshot_then_stream "c1" sampleNow sampleState) as (_ & _ & Hlive).
    apply (Hlive sampleEvent (sampleSeat "1-1-A" 1 AVAILABLE HoldNull)).
    + exists sampleNow. reflexivity.
    + reflexivity.
Defined.

(** C3 as stated fails.  The client starts from the empty state and both
    effects are under way: the event of seat 1-1-A going on HOLD arrives while
    floor 1 is not yet loaded and is dropped; the snapshot that arrives next
    was taken before that transition.  The transition is missed by the live
    handler, absent from the snapshot, and the seat stays AVAILABLE. *)
Lemma early_event_lost_counterexample :
  seatReducer sampleNow ∅ (onUpdate "c1" sampleEvent) = Ok ∅
  ∧ status <$> (List.find (λ seat, String.eqb (seat_id seat) (ev_seat_id sampleEvent))
                  sampleSnapshot) = Some AVAILABLE
  ∧ ∃ state',
      reduceAll ∅ [ (sampleNow, onUpdate "c1" sampleEvent);
                    (sampleNow + 40, SET_SEATS (Some 1) sampleSnapshot) ] = Ok state'
      ∧ (status <$> seatAt state' (Some 1) "1-1-A") = Some AVAILABLE
      ∧ ev_to sampleEvent = HOLD.
Proof. split; [reflexivity|]. split; [reflexivity|]. eexists. repeat split; reflexivity. Qed.

End StreamExamples.

(** ** Handlers *)

Section HandlerFacts.
Context `{JsRuntime}.

Lemma exec_finally_emit {A} net (p : Prog A) u w :
  exec net (finally_ p (emit u)) w = settle u (exec net p w).
Proof. rewrite exec_finally. by destruct (exec net p w) as [w' [a|e|e]]. Qed.

(** The shape all request handlers share:
    [try { setter(true); response = await call; body } catch { handler }
     finally { setter(false) }]. *)
Lemma exec_request {X A} net (u0 u1 : Ui) (call : Api X) (body : X → Prog A)
    (handler : string → Prog A) w :
  exec net (finally_ (tryCatch (emit u0;; response ← await call; body response) handler)
              (emit u1)) w
  = settle u1
      match respond net X (length (w_fetched (withUi w u0))) call with
      | Ok response =>
          exec net (tryCatch (body response) handler) (afterFetch net (withUi w u0) call)
      | Err e => exec net (handler e) (afterFetch net (withUi w u0) call)
      end.
Proof.
  rewrite exec_finally_emit. f_equal. cbn.
  by destruct (respond net X (length (w_fetched w)) call).
Qed.

Lemma exec_showMessage net text tone w :
  exec net (showMessage text tone) w = (withUi w (ShowMessage text tone), Returned tt).
Proof. done. Qed.

Lemma exec_when net (c : bool) p w :
  exec net (when_ c p) w = if c then exec net p w else (w, Returned tt).
Proof. by destruct c. Qed.

Lemma exec_applyConfirm net seatIds w :
  ∃ state', exec net (applyConfirm seatIds) w = (withState w state', Returned tt).
Proof.
  destruct seatIds as [|id0 ids0] eqn:Hids.
  { exists (w_state w). by rewrite withState_same. }
  rewrite <- Hids. assert (Hne : nonEmpty seatIds = true) by by rewrite Hids. clear Hids.
  destruct (exec_dispatchGroups net mkConfirm (groupAll seatIdToFloor seatIds) w)
    as (state' & Hexec & _).
  { apply groupAll_NoDup. }
  { intros v o. by destruct o. }
  exists state'. unfold applyConfirm. by rewrite Hne.
Qed.

Lemma append_inj_r (prefix a b : string) : prefix +:+ a = prefix +:+ b → a = b.
Proof. induction prefix as [|c prefix IH]; cbn; [done|]. intros [= Heq]. by apply IH. Qed.

Lemma intToString_inj a b : intToString a = intToString b → a = b.
Proof.
  unfold intToString. intros Heq. apply DecimalZ.to_int_inj.
  assert (Hnz : ∀ z, Z.to_int z ≠ Decimal.Pos Decimal.Nil ∧ Z.to_int z ≠ Decimal.Neg Decimal.Nil).
  { intros [|p|p]; cbn; split; try done; intros [= Hp];
      by apply DecimalPos.Unsigned.to_uint_nonnil in Hp. }
  assert (Hparse : Some (Z.to_int a) = Some (Z.to_int b)).
  { destruct (Hnz a), (Hnz b).
    rewrite <- (NilZero.isi (Z.to_int a)), <- (NilZero.isi (Z.to_int b)) by done.
    by rewrite Heq. }
  by injection Hparse.
Qed.

End HandlerFacts.

Section NoAwaitFacts.
Context `{JsRuntime}.

Lemma noAwait_bind {A B} (p : Prog A) (f : A → Prog B) :
  noAwait p → (∀ a, noAwait (f a)) → noAwait (p ≫= f).
Proof.
  intros Hp Hf. induction p as [a|e|X call k IH|action k IH|k IH|u k IH]; cbn in *; auto.
  intros t. by apply IH.
Qed.

Lemma noAwait_tryCatch {A} (p : Prog A) handler :
  noAwait p → (∀ e, noAwait (handler e)) → noAwait (tryCatch p handler).
Proof.
  intros Hp Hh. induction p as [a|e|X call k IH|action k IH|k IH|u k IH]; cbn in *; auto.
Qed.

Lemma noAwait_forEach {X} (l : list X) (f : X → Prog unit) :
  (∀ x, noAwait (f x)) → noAwait (forEach l f).
Proof.
  intros Hf. induction l as [|x l IH]; [done|]. cbn [forEach].
  apply noAwait_bind; [apply Hf|done].
Qed.

Lemma noAwait_when (c : bool) p : noAwait p → noAwait (when_ c p).
Proof. by destruct c. Qed.

Lemma noAwait_applyHoldResult clientId seatIds expireAt :
  noAwait (applyHoldResult clientId seatIds expireAt).
Proof.
  unfold applyHoldResult. destruct (negb (nonEmpty seatIds)); [done|].
  apply noAwait_bind; [done|]. intros now. apply noAwait_forEach. by intros [f items].
Qed.

Lemma noAwait_applyRelease seatIds : noAwait (applyRelease seatIds).
Proof.
  unfold applyRelease. destruct (negb (nonEmpty seatIds)); [done|].
  apply noAwait_forEach. by intros [f items].
Qed.

Lemma noAwait_applyConfirm seatIds : noAwait (applyConfirm seatIds).
Proof.
  unfold applyConfirm. destruct (negb (nonEmpty seatIds)); [done|].
  apply noAwait_forEach. by intros [f items].
Qed.

Lemma exec_noAwait {A} net (p : Prog A) w :
  noAwait p → w_fetched (exec net p w).1 = w_fetched w.
Proof.
  revert w. induction p as [a|e|X call k IH|action k IH|k IH|u k IH]; intros w Hp; cbn in *;
    try done.
  - destruct (seatReducer (w_now w) (w_state w) action); [by rewrite IH|done].
  - by apply IH.
  - by rewrite IH.
Qed.

Lemma settle_fetched {A} u (res : World * completion A) :
  w_fetched (settle u res).1 = w_fetched res.1.
Proof. by destruct res as [w' [a|e|e]]. Qed.

(** A request handler whose body and error handler await nothing issues
    exactly its one request, however the request ends. *)
Lemma exec_request_fetched {X A} net (u0 u1 : Ui) (call : Api X) (body : X → Prog A)
    (handler : string → Prog A) w :
  (∀ response, noAwait (body response)) →
  (∀ e, noAwait (handler e)) →
  w_fetched
    (exec net (finally_ (tryCatch (emit u0;; response ← await call; body response) handler)
                 (emit u1)) w).1
  = w_fetched w ++ [fetchOf call].
Proof.
  intros Hbody Hhandler. rewrite exec_request, settle_fetched.
  destruct (respond net X (length (w_fetched (withUi w u0))) call) as [response|e];
    rewrite exec_noAwait; try done.
  by apply noAwait_tryCatch.
Qed.

End NoAwaitFacts.

(** ** Claims about the handlers *)

Section HandlerClaims.
Context `{JsRuntime}.

Lemma exec_request_now_fetched {X A} net (u0 u1 : Ui) (call : Z → Api X)
    (body : Z → X → Prog A) (handler : string → Prog A) w :
  (∀ now response, noAwait (body now response)) →
  (∀ e, noAwait (handler e)) →
  w_fetched
    (exec net (finally_ (tryCatch (emit u0;; now ← dateNow;
                                   response ← await (call now); body now response) handler)
                 (emit u1)) w).1
  = w_fetched w ++ [fetchOf (call (w_now w))].
Proof.
  intros Hbody Hhandler.
  change (w_fetched
            (exec net (finally_ (tryCatch (emit u0;; response ← await (call (w_now w));
                                           body (w_now w) response) handler)
                         (emit u1)) w).1
          = w_fetched w ++ [fetchOf (call (w_now w))]).
  by apply exec_request_fetched.
Qed.

(** C4. When the seat id list is omitted ([handleReleaseAll] passes
    [undefined]) the body sent to [/api/release] has [client_id] and no
    [seat_ids] key, and the seats of the response's [released] array, and no
    others, become AVAILABLE with their hold cleared: a seat is looked up on
    the floor its id names, so in a state that stores every seat there the
    released seats are exactly the listed ones. *)
Theorem release_all_request_and_effect (r : Render) net w (response : ReleaseResponse) :
  nonEmpty (heldBySelf r) = true →
  respond net ReleaseResponse (length (w_fetched w)) (releaseSeats None (clientId r))
  = Ok response →
  ∃ w',
    exec net (handleReleaseAll r) w = (w', Returned tt)
    ∧ w_fetched w' = w_fetched w ++ [fetchOf (releaseSeats None (clientId r))]
    ∧ url (fetchOf (releaseSeats None (clientId r))) = API_BASE +:+ "/api/release"
    ∧ body (fetchOf (releaseSeats None (clientId r)))
      = Some (JObj [ ("client_id", JStr (clientId r)) ])
    ∧ (∀ f id,
         seatAt (w_state w') f id
         = if decide (id ∈ released response ∧ seatIdToFloor id = f)
           then releasedSeat (w_now w') <$> seatAt (w_state w) f id
           else seatAt (w_state w) f id)
    ∧ (keyedByIdFloor (w_state w) →
       ∀ f id,
         seatAt (w_state w') f id
         = if decide (id ∈ released response)
           then releasedSeat (w_now w') <$> seatAt (w_state w) f id
           else seatAt (w_state w) f id)
    ∧ (∀ now seat,
         status (releasedSeat now seat) = AVAILABLE ∧ hold (releasedSeat now seat) = HoldNull).
Proof.
  intros Hheld Hresponse. unfold handleReleaseAll. rewrite Hheld. cbn [negb].
  rewrite exec_request. cbn [withUi w_fetched]. rewrite Hresponse.
  set (w1 := afterFetch net (withUi w (SetReleasing true)) (releaseSeats None (clientId r))).
  rewrite exec_tryCatch, exec_bind.
  destruct (exec_applyRelease net (released response) w1) as (state' & -> & Hlook).
  eexists. split; [reflexivity|]. cbn -[fetchOf seatAt releasedSeat].
  split; [done|]. split; [done|]. split; [done|].
  assert (Hgeneral : ∀ f id,
            seatAt state' f id
            = if decide (id ∈ released response ∧ seatIdToFloor id = f)
              then releasedSeat (w_now w + delay net (length (w_fetched w)))
                     <$> seatAt (w_state w) f id
              else seatAt (w_state w) f id) by exact Hlook.
  split; [exact Hgeneral|]. split; [|done].
  intros Hkeyed f id. rewrite Hgeneral.
  destruct (seatAt (w_state w) f id) as [seat|] eqn:Hseat.
  - pose proof (Hkeyed f id seat Hseat). repeat case_decide; tauto.
  - by repeat case_decide.
Qed.

(** C8. Every invocation of [handleConfirm] that sends a request sends one
    request, whatever the answer, with the request id
    [`${clientId}-${Date.now()}`]; invocations of one client at distinct
    millisecond instants carry different request ids. *)
Theorem confirm_request_id (r : Render) net w :
  adminEnabled r = false →
  nonEmpty (heldBySelf r) = true →
  w_fetched (exec net (handleConfirm r) w).1
  = w_fetched w
    ++ [fetchOf (confirmSeats (map seat_id (heldBySelf r)) (clientId r)
                   (clientId r +:+ "-" +:+ intToString (w_now w)))]
  ∧ body (fetchOf (confirmSeats (map seat_id (heldBySelf r)) (clientId r)
                     (clientId r +:+ "-" +:+ intToString (w_now w))))
    = Some (JObj [ ("seat_ids", JArr (map JStr (map seat_id (heldBySelf r))));
                   ("client_id", JStr (clientId r));
                   ("request_id", JStr (clientId r +:+ "-" +:+ intToString (w_now w))) ])
  ∧ ∀ now', now' ≠ w_now w →
      clientId r +:+ "-" +:+ intToString now' ≠ clientId r +:+ "-" +:+ intToString (w_now w).
Proof.
  intros Hadmin Hheld. split; [|split; [done|]].
  - unfold handleConfirm. rewrite Hadmin, Hheld. cbn [negb].
    apply (exec_request_now_fetched net (SetConfirming true) (SetConfirming false)
             (λ now, confirmSeats (map seat_id (heldBySelf r)) (clientId r)
                       (clientId r +:+ "-" +:+ intToString now))
             (λ now response,
                when_ (nonEmpty (confirmed response))
                  (applyConfirm (confirmed response);; showMessage "售卖成功" ToneSuccess);;
                when_ (nonEmpty (skipped response))
                  (showMessage ("部分座位未确认成功：" +:+ joinComma (skipped response))
                     ToneError))).
    + intros now response. apply noAwait_bind; [|intros _; by apply noAwait_when].
      apply noAwait_when, noAwait_bind; [apply noAwait_applyConfirm|done].
    + done.
  - intros now' Hne Heq. apply Hne.
    by apply intToString_inj, (append_inj_r "-"), (append_inj_r (clientId r)).
Qed.

Lemma handleSeatClick_requests (r : Render) net w seat :
  w_fetched (exec net (handleSeatClick r seat) w).1
  = w_fetched w
    ++ if adminEnabled r || holding r then []
       else match status seat with
            | AVAILABLE => [fetchOf (holdSeats [seat_id seat] (clientId r))]
            | HOLD =>
                if isHeldBy (clientId r) seat
                then [fetchOf (releaseSeats (Some [seat_id seat]) (clientId r))]
                else []
            | SOLD | BLOCKED => []
            end.
Proof.
  unfold handleSeatClick.
  destruct (adminEnabled r); cbn [orb]; [by rewrite app_nil_r|].
  destruct (holding r); [by rewrite app_nil_r|].
  unfold isHeldBy. destruct (status seat); cbn [SeatStatus_eqb orb andb].
  - apply exec_request_fetched; [|done].
    intros response. apply noAwait_bind; [|intros _; by apply noAwait_when].
    apply noAwait_when, noAwait_applyHoldResult.
  - destruct (match hold_client_id seat with Some c => String.eqb c (clientId r)
                                              | None => false end).
    + apply exec_request_fetched; [|done]. intros response. apply noAwait_applyRelease.
    + by rewrite app_nil_r.
  - by rewrite app_nil_r.
  - by rewrite app_nil_r.
Qed.

(** C9. Hold requests from the seat map target seats whose client-side status
    is AVAILABLE.  A click ([handleSeatClick], also behind the seat's own
    [handleSeatSelection]) sends a hold request only for an AVAILABLE seat, a
    release request for a seat held by this client, and nothing for any other
    seat (nothing at all in admin mode or while a hold is pending); a box
    selection sends at most one hold request, for seats that are rendered,
    visible and AVAILABLE. *)
Theorem hold_requests_target_available (r : Render) net w :
  (∀ seat,
     let requests :=
       if adminEnabled r || holding r then []
       else match status seat with
            | AVAILABLE => [fetchOf (holdSeats [seat_id seat] (clientId r))]
            | HOLD =>
                if isHeldBy (clientId r) seat
                then [fetchOf (releaseSeats (Some [seat_id seat]) (clientId r))]
                else []
            | SOLD | BLOCKED => []
            end in
     w_fetched (exec net (handleSeatClick r seat) w).1 = w_fetched w ++ requests
     ∧ w_fetched (exec net (handleSeatSelection r seat) w).1 = w_fetched w ++ requests)
  ∧ (∀ filters button inRect,
       let selected := selectedSeats filters inRect (renderedSeats r) in
       (w_fetched (exec net (handlePointerDown r filters button inRect) w).1 = w_fetched w
        ∨ w_fetched (exec net (handlePointerDown r filters button inRect) w).1
          = w_fetched w ++ [fetchOf (holdSeats selected (clientId r))])
       ∧ ∀ id, id ∈ selected →
           ∃ seat,
             seat ∈ renderedSeats r
             ∧ seat_id seat = id
             ∧ status seat = AVAILABLE
             ∧ isVisible filters seat = true).
Proof.
  split.
  - intros seat requests. split; [apply handleSeatClick_requests|].
    unfold handleSeatSelection.
    destruct (negb (adminEnabled r) && _) eqn:Hdisabled; [|apply handleSeatClick_requests].
    unfold requests. apply andb_prop in Hdisabled as [Hadmin Hstatus].
    destruct (adminEnabled r); [done|]. cbn [orb].
    destruct (status seat), (holding r); cbn in *; try done; by rewrite app_nil_r.
  - intros filters button inRect selected. split.
    + unfold handlePointerDown, handleUp, handleBoxSelect. fold selected.
      destruct (negb (button =? 0)); [by left|].
      destruct (adminEnabled r); [by left|].
      destruct (nonEmpty selected) eqn:Hsel; cbn [when_ negb]; [|by left].
      right. apply exec_request_fetched; [|done].
      intros response. apply noAwait_bind; [|intros _; by apply noAwait_when].
      apply noAwait_when, noAwait_applyHoldResult.
    + intros id Hid. unfold selected, selectedSeats in Hid.
      apply list_elem_of_fmap in Hid as (seat & -> & Hseat).
      apply list_elem_of_In, filter_In in Hseat as [Hseat Hok].
      apply filter_In in Hseat as [Hseat Hvisible].
      apply andb_prop in Hok as [Hstatus _].
      exists seat. split; [by apply list_elem_of_In|]. split; [done|]. split; [|done].
      by destruct (status seat).
Qed.

End HandlerClaims.

(** ** Bulk updates *)

Section BulkFacts.
Context `{JsRuntime}.

Lemma exec_refreshFloor net f w :
  exec net (refreshFloor f) w = (refreshStep net w f, Returned tt).
Proof.
  unfold refreshFloor, refreshStep. cbn.
  by destruct (respond net SeatsResponse (length (w_fetched w)) (fetchSeats f)).
Qed.

Lemma exec_refreshFloors net floors w :
  exec net (forEach floors refreshFloor) w = (fold_left (refreshStep net) floors w, Returned tt).
Proof.
  revert w. induction floors as [|f floors IH]; intros w; [done|].
  cbn [forEach fold_left]. by rewrite exec_bind, exec_refreshFloor, IH.
Qed.

Lemma refreshStep_fetched net w f :
  w_fetched (refreshStep net w f) = w_fetched w ++ [fetchOf (fetchSeats f)].
Proof.
  unfold refreshStep.
  by destruct (respond net SeatsResponse (length (w_fetched w)) (fetchSeats f)).
Qed.

Lemma refreshAll_fetched net floors w :
  w_fetched (fold_left (refreshStep net) floors w)
  = w_fetched w ++ map (λ f, fetchOf (fetchSeats f)) floors.
Proof.
  revert w. induction floors as [|f floors IH]; intros w; cbn.
  - by rewrite app_nil_r.
  - by rewrite IH, refreshStep_fetched, <- app_assoc.
Qed.

Lemma refreshStep_state net w f g :
  (g ≠ f → w_state (refreshStep net w f) !! g = w_state w !! g)
  ∧ (w_state (refreshStep net w f) !! f = w_state w !! f
     ∨ ∃ refreshed, w_state (refreshStep net w f) !! f = Some (seatsToMap (seats refreshed))).
Proof.
  unfold refreshStep.
  destruct (respond net SeatsResponse (length (w_fetched w)) (fetchSeats f)) as [refreshed|e];
    cbn.
  - split; [intros Hne; by rewrite lookup_insert_ne|].
    right. exists refreshed. by rewrite lookup_insert_eq.
  - split; [done|by left].
Qed.

Lemma refreshAll_state_other net floors w g :
  g ∉ floors → w_state (fold_left (refreshStep net) floors w) !! g = w_state w !! g.
Proof.
  revert w. induction floors as [|f floors IH]; intros w Hg; [done|].
  apply not_elem_of_cons in Hg as [Hne Hg]. cbn. rewrite IH by done.
  by apply refreshStep_state.
Qed.

Lemma refreshAll_state_refreshed net floors w f :
  f ∈ floors →
  w_state (fold_left (refreshStep net) floors w) !! f = w_state w !! f
  ∨ ∃ refreshed,
      w_state (fold_left (refreshStep net) floors w) !! f = Some (seatsToMap (seats refreshed)).
Proof.
  revert w. induction floors as [|f0 floors IH]; intros w Hf; [by apply elem_of_nil in Hf|].
  cbn. destruct (decide (f ∈ floors)) as [Hin|Hnin].
  - destruct (IH (refreshStep net w f0) Hin) as [Hsame|Hnew]; [|by right].
    rewrite Hsame. destruct (decide (f = f0)) as [->|Hne].
    + apply refreshStep_state; exact f0.
    + left. by apply refreshStep_state.
  - apply elem_of_cons in Hf as [->|Hf]; [|done].
    rewrite refreshAll_state_other by done. apply refreshStep_state; exact f0.
Qed.

Lemma elem_of_setAdd (set : list number) k x : x ∈ setAdd set k ↔ x ∈ set ∨ x = k.
Proof.
  induction set as [|k0 set IH]; cbn.
  - rewrite list_elem_of_singleton, elem_of_nil. tauto.
  - case_decide as Hk.
    + subst. rewrite elem_of_cons. split; [tauto|]. intros [?| ->]; tauto.
    + rewrite !elem_of_cons, IH. tauto.
Qed.

Lemma elem_of_floorsToRefresh (r : Render) updated f :
  f ∈ floorsToRefresh r updated
  ↔ isLoaded (seatState r) f = false ∧ ∃ seat, seat ∈ updated ∧ floor seat = f.
Proof.
  unfold floorsToRefresh.
  induction updated as [|seat updated IH] using rev_ind.
  - cbn. rewrite elem_of_nil. split; [done|]. by intros [_ (? & ?%elem_of_nil & _)].
  - rewrite fold_left_app. cbn.
    destruct (isLoaded (seatState r) (floor seat)) eqn:Hloaded.
    + rewrite IH. split.
      * intros [Hf (seat' & Hin & Heq)]. split; [done|]. exists seat'.
        split; [|done]. apply elem_of_app. by left.
      * intros [Hf (seat' & [Hin| ->%list_elem_of_singleton]%elem_of_app & Heq)].
        -- split; [done|]. by exists seat'.
        -- congruence.
    + rewrite elem_of_setAdd, IH. split.
      * intros [[Hf (seat' & Hin & Heq)]| ->].
        -- split; [done|]. exists seat'. split; [|done]. apply elem_of_app. by left.
        -- split; [done|]. exists seat. split; [|done].
           apply elem_of_app. right. by apply list_elem_of_singleton.
      * intros [Hf (seat' & [Hin| ->%list_elem_of_singleton]%elem_of_app & Heq)].
        -- left. split; [done|]. by exists seat'.
        -- by right.
Qed.

Lemma writes_replace now (cur : FloorMap) items :
  writes now cur (map mkReplace items) = replacements items.
Proof. unfold writes, replacements. induction items as [|seat items IH]; [done|]. cbn. by f_equal. Qed.

(** The guard on the render's seat state changes nothing when that state is
    the reducer's: a patch for a floor that is not loaded is dropped by the
    reducer anyway. *)
Lemma exec_guardedGroups {V} net (mk : V → SeatUpdate) (loaded : number → bool)
    (g : list (number * list V)) w :
  (∀ f, loaded f = false → w_state w !! f = None) →
  (∀ v o, isThrow (patch (mk v) (w_now w) o) = false) →
  exec net
    (forEach g (fun entry =>
       let '(seatFloor, items) := entry in
       if negb (loaded seatFloor) then Ret tt
       else dispatch (PATCH_SEATS seatFloor (map mk items)))) w
  = exec net (dispatchGroups mk g) w.
Proof.
  intros Hloaded Hok. revert w Hloaded Hok.
  induction g as [|[k vs] g IH]; intros w Hloaded Hok; [done|].
  unfold dispatchGroups. cbn [forEach]. rewrite !exec_bind.
  assert (∃ state1,
            exec net (dispatch (PATCH_SEATS k (map mk vs))) w = (withState w state1, Returned tt)
            ∧ ∀ f, w_state w !! f = None → state1 !! f = None) as (state1 & Hexec & Hnone).
  { rewrite exec_dispatch. destruct (w_state w !! k) as [cur|] eqn:Hcur.
    - destruct (seatReducer_patch (w_now w) (w_state w) k (map mk vs) cur Hcur)
        as (state1 & -> & _ & Hf & _).
      + intros u [v [-> _]]%list_elem_of_fmap. apply Hok.
      + exists state1. split; [done|]. intros f Hfn. rewrite Hf; [done|]. congruence.
    - exists (w_state w). by rewrite seatReducer_unloaded. }
  rewrite Hexec. destruct (loaded k) eqn:Hk; cbn [negb].
  - rewrite Hexec. apply IH; [|done]. intros f Hf. cbn. by apply Hnone, Hloaded.
  - assert (Hsame : withState w state1 = w).
    { rewrite exec_dispatch, seatReducer_unloaded in Hexec by (by apply Hloaded).
      injection Hexec as Hw. rewrite <- Hw. apply withState_same. }
    rewrite Hsame. cbn [exec]. by apply IH.
Qed.

Lemma insertAll_lookup_in (ws : list (string * Seat)) (m : FloorMap) id :
  id ∈ ws.*1 → ∃ v, (id, v) ∈ ws ∧ insertAll ws m !! id = Some v.
Proof.
  induction ws as [|[k v] ws IH] using rev_ind; intros Hin.
  - by apply elem_of_nil in Hin.
  - rewrite insertAll_snoc. destruct (decide (k = id)) as [->|Hne].
    + exists v. rewrite lookup_insert_eq. split; [|done].
      apply elem_of_app. right. by apply list_elem_of_singleton.
    + rewrite fmap_app in Hin. apply elem_of_app in Hin as [Hin|Hin].
      * destruct (IH Hin) as (v' & Hv' & Hlook). exists v'.
        rewrite lookup_insert_ne by done. split; [|done]. apply elem_of_app. by left.
      * apply list_elem_of_singleton in Hin. by destruct Hne.
Qed.

Lemma bulkSummary_message (response : AdminSeatBulkResponse) :
  ∃ text tone, bulkSummary response = showMessage text tone.
Proof.
  unfold bulkSummary. destruct (nonEmpty (updated response)); [by eexists _, _|].
  destruct (nonEmpty (missing response)); by eexists _, _.
Qed.

End BulkFacts.

Section BulkExec.
Context `{JsRuntime}.

Lemma exec_guarded_returns {V} net (mk : V → SeatUpdate) (loaded : number → bool)
    (g : list (number * list V)) w :
  (∀ v now o, isThrow (patch (mk v) now o) = false) →
  ∃ state1,
    exec net
      (forEach g (fun entry =>
         let '(seatFloor, items) := entry in
         if negb (loaded seatFloor) then Ret tt
         else dispatch (PATCH_SEATS seatFloor (map mk items)))) w
    = (withState w state1, Returned tt).
Proof.
  intros Hok. revert w. induction g as [|[k vs] g IH]; intros w.
  - exists (w_state w). by rewrite withState_same.
  - cbn [forEach]. rewrite exec_bind. destruct (loaded k); cbn [negb].
    + rewrite exec_dispatch.
      assert (∃ state0, seatReducer (w_now w) (w_state w) (PATCH_SEATS k (map mk vs))
                        = Ok state0) as [state0 ->].
      { destruct (w_state w !! k) as [cur|] eqn:Hcur.
        - destruct (seatReducer_patch (w_now w) (w_state w) k (map mk vs) cur Hcur)
            as (state0 & -> & _).
          + intros u [v [-> _]]%list_elem_of_fmap. apply Hok.
          + by exists state0.
        - exists (w_state w). by apply seatReducer_unloaded. }
      destruct (IH (withState w state0)) as [state1 ->]. by exists state1.
    + cbn [exec]. apply IH.
Qed.

(** [applyBulkUpdated]: the patches of the loaded floors, then the refresh of
    the others; it always returns. *)
Lemma exec_applyBulkUpdated net (r : Render) updated w :
  ∃ state1,
    exec net (applyBulkUpdated r updated) w
    = (fold_left (refreshStep net) (floorsToRefresh r updated) (withState w state1),
       Returned tt)
    ∧ (seatState r = w_state w →
       ∀ f, state1 !! f
            = (λ cur, insertAll (replacements (filter (λ seat, floor seat = f) updated)) cur)
                <$> (w_state w !! f)).
Proof.
  unfold applyBulkUpdated. fold (floorsToRefresh r updated).
  change (fold_left (λ g seat, groupPush g (floor seat) seat) updated [])
    with (groupAll floor updated).
  destruct (exec_guarded_returns net mkReplace (isLoaded (seatState r))
              (groupAll floor updated) w) as [state1 Hexec]; [done|].
  exists state1. split.
  - rewrite exec_bind. unfold mkReplace in Hexec. rewrite Hexec, exec_when.
    destruct (floorsToRefresh r updated) as [|f0 floors] eqn:Hfloors; [done|].
    cbn [nonEmpty]. apply exec_refreshFloors.
  - intros Hsync f.
    rewrite exec_guardedGroups in Hexec.
    + destruct (exec_dispatchGroups net mkReplace (groupAll floor updated) w)
        as (state1' & Hexec' & Hlook); [apply groupAll_NoDup|done|].
      rewrite Hexec' in Hexec. injection Hexec as ->.
      rewrite Hlook, groupGet_groupAll. unfold patchFloor.
      destruct (w_state w !! f) as [cur|]; [|done]. cbn. by rewrite writes_replace.
    + intros f' Hf'. rewrite <- Hsync. unfold isLoaded in Hf'.
      by destruct (seatState r !! f').
    + done.
Qed.

(** [handleAdminBulkUpdate] with a token, answered with [response]. *)
Lemma exec_handleAdminBulkUpdate (r : Render) seatIds payload net w response :
  truthy (adminToken r) = true →
  respond net AdminSeatBulkResponse (length (w_fetched w))
    (adminBulkUpdateSeats seatIds payload (adminToken r)) = Ok response →
  ∃ state1 text tone,
    exec net (handleAdminBulkUpdate r seatIds payload) w
    = (withUi
         (withUi
            (fold_left (refreshStep net) (floorsToRefresh r (updated response))
               (withState
                  (afterFetch net (withUi w (SetAdminSaving true))
                     (adminBulkUpdateSeats seatIds payload (adminToken r)))
                  state1))
            (ShowMessage text tone))
         (SetAdminSaving false),
       Returned response)
    ∧ (seatState r = w_state w →
       ∀ f, state1 !! f
            = (λ cur, insertAll (replacements
                                   (filter (λ seat, floor seat = f) (updated response))) cur)
                <$> (w_state w !! f)).
Proof.
  intros Htoken Hresponse. unfold handleAdminBulkUpdate. rewrite Htoken. cbn [negb].
  rewrite exec_request. cbn [withUi w_fetched]. rewrite Hresponse.
  set (w1 := afterFetch net (withUi w (SetAdminSaving true))
               (adminBulkUpdateSeats seatIds payload (adminToken r))).
  destruct (bulkSummary_message response) as (text & tone & Hsummary).
  destruct (exec_applyBulkUpdated net r (updated response) w1) as (state1 & Hexec & Hlook).
  exists state1, text, tone. split; [|exact Hlook].
  rewrite exec_tryCatch, exec_bind, exec_when.
  destruct (updated response) as [|seat0 rest] eqn:Hupdated.
  - cbn [nonEmpty]. rewrite exec_bind, Hsummary, exec_showMessage.
    assert (Hstate1 : withState w1 state1 = w1).
    { cbn in Hexec. injection Hexec as Hw. by rewrite <- Hw. }
    by rewrite Hstate1.
  - cbn [nonEmpty]. rewrite <- Hupdated in *. rewrite Hexec, exec_bind, Hsummary.
    by rewrite exec_showMessage.
Qed.

End BulkExec.

(** ** Claims about the admin handlers *)

Section AdminClaims.
Context `{JsRuntime}.

Lemma bulk_requests (r : Render) seatIds payload net w :
  truthy (adminToken r) = true →
  ∃ refetches,
    w_fetched (exec net (handleAdminBulkUpdate r seatIds payload) w).1
    = w_fetched w
      ++ fetchOf (adminBulkUpdateSeats seatIds payload (adminToken r)) :: refetches
    ∧ Forall (λ call, ∃ f, call = fetchOf (fetchSeats f)) refetches.
Proof.
  intros Htoken.
  destruct (respond net AdminSeatBulkResponse (length (w_fetched w))
              (adminBulkUpdateSeats seatIds payload (adminToken r))) as [response|e] eqn:Hresp.
  - destruct (exec_handleAdminBulkUpdate r seatIds payload net w response Htoken Hresp)
      as (state1 & text & tone & -> & _).
    exists (map (λ f, fetchOf (fetchSeats f)) (floorsToRefresh r (updated response))).
    split.
    + cbn [fst withUi w_fetched]. rewrite refreshAll_fetched. cbn. by rewrite <- app_assoc.
    + apply Forall_forall. intros call (f & -> & _)%list_elem_of_fmap. by exists f.
  - exists []. split; [|done].
    unfold handleAdminBulkUpdate. rewrite Htoken. cbn [negb].
    rewrite exec_request. cbn [withUi w_fetched]. by rewrite Hresp.
Qed.

(** C5. Every admin single-update and bulk-update request carries the admin
    token in the [X-Admin-Token] header and not in the JSON body, which is
    built from the payload (and the seat ids) alone.  Without a token
    [handleAdminUpdate] and [handleAdminBulkUpdate] show the message and
    reject with an [Error] before any request is issued; a rejection is not a
    returned [updated]/[missing] response.  With a token the admin request is
    the first request of the handler and the only one to an admin endpoint. *)
Theorem admin_token_in_header (r : Render) net w :
  (∀ seatId seatIds payload token,
     headers (fetchOf (adminUpdateSeat seatId payload token))
     = [ ("Content-Type", "application/json"); ("X-Admin-Token", token) ]
     ∧ body (fetchOf (adminUpdateSeat seatId payload token))
       = Some (jsObject (payloadProps payload))
     ∧ headers (fetchOf (adminBulkUpdateSeats seatIds payload token))
       = [ ("Content-Type", "application/json"); ("X-Admin-Token", token) ]
     ∧ body (fetchOf (adminBulkUpdateSeats seatIds payload token))
       = Some (jsObject (("seat_ids", Some (jsonIds seatIds)) :: payloadProps payload)))
  ∧ (truthy (adminToken r) = false →
     ∀ seatId seatIds payload,
       exec net (handleAdminUpdate r seatId payload) w
       = (withUi w (ShowMessage tokenMissing ToneError), Rejected tokenMissing)
       ∧ exec net (handleAdminBulkUpdate r seatIds payload) w
         = (withUi w (ShowMessage tokenMissing ToneError), Rejected tokenMissing))
  ∧ (truthy (adminToken r) = true →
     ∀ seatId seatIds payload,
       w_fetched (exec net (handleAdminUpdate r seatId payload) w).1
       = w_fetched w ++ [fetchOf (adminUpdateSeat seatId payload (adminToken r))]
       ∧ ∃ refetches,
           w_fetched (exec net (handleAdminBulkUpdate r seatIds payload) w).1
           = w_fetched w
             ++ fetchOf (adminBulkUpdateSeats seatIds payload (adminToken r)) :: refetches
           ∧ Forall (λ call, ∃ f, call = fetchOf (fetchSeats f)) refetches).
Proof.
  split; [done|]. split.
  - intros Htoken seatId seatIds payload.
    unfold handleAdminUpdate, handleAdminBulkUpdate. by rewrite Htoken.
  - intros Htoken seatId seatIds payload. split; [|by apply bulk_requests].
    unfold handleAdminUpdate. rewrite Htoken. cbn [negb].
    apply exec_request_fetched.
    + intros updated. apply noAwait_bind; [done|]. intros _. by repeat apply noAwait_bind.
    + intros e. by apply noAwait_bind.
Qed.


End AdminClaims.

Section HandlerExamples.
#[local] Existing Instance intRuntime.

Lemma release_all_witness :
  ∃ w',
    exec releaseNet (handleReleaseAll heldRender) heldWorld = (w', Returned tt)
    ∧ w_fetched w'
      = [ {| url := "/api/release";
             method := Some "POST";
             headers := [("Content-Type", "application/json")];
             body := Some (JObj [("client_id", JStr "c1")]) |} ]
    ∧ (status <$> seatAt (w_state w') (Some 1) "1-1-A") = Some AVAILABLE
    ∧ (hold <$> seatAt (w_state w') (Some 1) "1-1-A") = Some HoldNull
    ∧ seatAt (w_state w') (Some 1) "1-1-B" = seatAt heldState (Some 1) "1-1-B"
    ∧ seatAt (w_state w') (Some 1) "1-1-C" = seatAt heldState (Some 1) "1-1-C".
Proof.
  destruct (release_all_request_and_effect heldRender releaseNet heldWorld
              {| released := ["1-1-A"] |})
    as (w' & Hexec & Hfetched & _ & _ & Hgeneral & _); [reflexivity|reflexivity|].
  exists w'. split; [exact Hexec|]. split; [exact Hfetched|].
  rewrite !Hgeneral. repeat split; reflexivity.
Defined.

Lemma confirm_request_id_witness :
  w_fetched (exec confirmNet (handleConfirm heldRender) heldWorld).1
  = [ fetchOf (confirmSeats ["1-1-A"] "c1" "c1-1704067200000") ]
  ∧ "c1" +:+ "-" +:+ intToString (sampleNow + 1) ≠ "c1" +:+ "-" +:+ intToString sampleNow.
Proof.
  destruct (confirm_request_id heldRender confirmNet heldWorld) as (Hfetched & _ & Hdistinct);
    [reflexivity|reflexivity|].
  split; [exact Hfetched|]. apply (Hdistinct (sampleNow + 1)). discriminate.
Defined.

Lemma hold_requests_target_available_witness :
  w_fetched (exec (holdNet nullExpiryResponse)
               (handleSeatClick sampleRender (sampleSeat "1-1-A" 1 SOLD HoldNull))
               sampleWorld).1 = []
  ∧ ∃ seat,
      seat ∈ renderedSeats sampleRender
      ∧ seat_id seat = "1-1-B"
      ∧ status seat = AVAILABLE
      ∧ isVisible allFilters seat = true.
Proof.
  destruct (hold_requests_target_available sampleRender (holdNet nullExpiryResponse) sampleWorld)
    as (Hclick & Hbox).
  split.
  - apply (Hclick (sampleSeat "1-1-A" 1 SOLD HoldNull)).
  - apply (Hbox allFilters 0 (λ _, true)).
    change ("1-1-B" ∈ ["1-1-A"; "1-1-B"]).
    apply elem_of_cons. right. apply list_elem_of_singleton. reflexivity.
Defined.

Lemma admin_token_in_header_witness :
  exec bulkNet (handleAdminUpdate sampleRender "1-1-A" soldPayload) sampleWorld
  = (withUi sampleWorld (ShowMessage tokenMissing ToneError), Rejected tokenMissing)
  ∧ w_fetched (exec bulkNet (handleAdminUpdate adminRender "1-1-A" soldPayload) sampleWorld).1
    = [ {| url := "/api/admin/seats/1-1-A";
           method := Some "PATCH";
           headers := [("Content-Type", "application/json"); ("X-Admin-Token", "secret")];
           body := Some (JObj [("status", JStr "SOLD")]) |} ].
Proof.
  destruct (admin_token_in_header sampleRender bulkNet sampleWorld) as (_ & Hmissing & _).
  destruct (admin_token_in_header adminRender bulkNet sampleWorld) as (_ & _ & Hpresent).
  split.
  - apply (Hmissing eq_refl "1-1-A" [] soldPayload).
  - apply (Hpresent eq_refl "1-1-A" [] soldPayload).
Defined.


End HandlerExamples.


(** * More properties of the client *)

(** ** The reducer *)

Section ReducerMore.
Context `{JsRuntime}.

Lemma seatsToMap_snoc (l : list Seat) (seat : Seat) :
  seatsToMap (l ++ [seat]) = <[seat_id seat := seat]> (seatsToMap l).
Proof. unfold seatsToMap. by rewrite fold_left_app. Qed.

Lemma seatsToMap_lookup (l : list Seat) id :
  seatsToMap l !! id = last (filter (λ seat, seat_id seat = id) l).
Proof.
  induction l as [|seat l IH] using rev_ind; [done|].
  rewrite seatsToMap_snoc, filter_app, filter_cons, filter_nil.
  destruct (decide (seat_id seat = id)) as [<-|Hne].
  - by rewrite lookup_insert_eq, last_snoc.
  - rewrite lookup_insert_ne by done. by rewrite app_nil_r.
Qed.

(** X1. [SET_SEATS] replaces the seat map of its floor: a seat id is looked
    up to the last listed seat with that id, and an id that is not listed is
    absent afterwards, whatever the floor held before. *)
Theorem set_seats_replaces_floor now (state : SeatState) floor (seats : list Seat) :
  ∃ state',
    seatReducer now state (SET_SEATS floor seats) = Ok state'
    ∧ (∀ id, seatAt state' floor id = last (filter (λ seat, seat_id seat = id) seats))
    ∧ (∀ id, id ∉ map seat_id seats → seatAt state' floor id = None).
Proof.
  eexists. split; [reflexivity|].
  assert (Hlook : ∀ id, seatAt (<[floor := seatsToMap seats]> state) floor id
                        = last (filter (λ seat, seat_id seat = id) seats)).
  { intros id. unfold seatAt. rewrite lookup_insert_eq. cbn [mbind option_bind].
    apply seatsToMap_lookup. }
  split; [done|]. intros id Hid. rewrite Hlook.
  destruct (filter (λ seat, seat_id seat = id) seats) as [|seat rest] eqn:Hf; [done|].
  assert (Hin : seat ∈ filter (λ seat, seat_id seat = id) seats)
    by (rewrite Hf; apply elem_of_cons; by left).
  apply list_elem_of_filter in Hin as [Heq Hin]. destruct Hid.
  apply list_elem_of_fmap. by exists seat.
Qed.

(** A [PATCH_SEATS] loop that returns did not meet a throwing patch. *)
Lemma patchLoop_ok now (cur : FloorMap) us (next : FloorMap) changed res :
  patchLoop now cur us next changed = Ok res →
  ∀ u, u ∈ us → isThrow (patch u now (cur !! seatId u)) = false.
Proof.
  revert next changed. induction us as [|u0 us IH]; intros next changed Hloop u Hu.
  - by apply elem_of_nil in Hu.
  - cbn in Hloop. apply elem_of_cons in Hu as [->|Hu].
    + by destruct (patch u0 now (cur !! seatId u0)).
    + destruct (patch u0 now (cur !! seatId u0)); try done; by eapply IH.
Qed.

Lemma seatReducer_patch_ok now (state state' : SeatState) floor us cur :
  state !! floor = Some cur →
  seatReducer now state (PATCH_SEATS floor us) = Ok state' →
  state' !! floor = Some (insertAll (writes now cur us) cur)
  ∧ ∀ u, u ∈ us → isThrow (patch u now (cur !! seatId u)) = false.
Proof.
  intros Hcur Hred.
  assert (Hok : ∀ u, u ∈ us → isThrow (patch u now (cur !! seatId u)) = false).
  { cbn in Hred. rewrite Hcur in Hred.
    destruct (patchLoop now cur us cur false) as [res|] eqn:Hloop; [|done].
    by eapply patchLoop_ok. }
  destruct (seatReducer_patch now state floor us cur Hcur Hok) as (st & Hst & Hl & _).
  rewrite Hred in Hst. by injection Hst as <-.
Qed.

Lemma insertAll_app (ws1 ws2 : list (string * Seat)) (m : FloorMap) :
  insertAll (ws1 ++ ws2) m = insertAll ws2 (insertAll ws1 m).
Proof. unfold insertAll. by rewrite fold_left_app. Qed.

Lemma writes_app now (cur : FloorMap) us1 us2 :
  writes now cur (us1 ++ us2) = writes now cur us1 ++ writes now cur us2.
Proof. unfold writes. apply omap_app. Qed.

Lemma writes_keys now (cur : FloorMap) us id :
  id ∈ (writes now cur us).*1 → id ∈ map seatId us.
Proof.
  intros ([k v] & -> & Hin)%list_elem_of_fmap. unfold writes in Hin.
  apply list_elem_of_omap in Hin as (u & Hu & Hw).
  destruct (patch u now (cur !! seatId u)); try done. injection Hw as <- <-.
  apply list_elem_of_fmap. by exists u.
Qed.

Lemma writes_noop_keys now (cur : FloorMap) us id :
  (∀ u, u ∈ us → seatId u = id → isNoop (patch u now (cur !! seatId u)) = true) →
  id ∉ (writes now cur us).*1.
Proof.
  intros Hnoop ([k v] & -> & Hin)%list_elem_of_fmap. unfold writes in Hin.
  apply list_elem_of_omap in Hin as (u & Hu & Hw).
  destruct (patch u now (cur !! seatId u)) eqn:Hp; try done. injection Hw as Hk _.
  specialize (Hnoop u Hu Hk). by rewrite Hp in Hnoop.
Qed.

(** X2. Within one [PATCH_SEATS] action every patch is handed the seat as
    stored before the action, and the last update of a seat that returns a
    new object decides the seat: updates of the same seat before it are
    overwritten, and a seat no update names is left as it was. *)
Theorem patch_seats_last_write_wins now (state state' : SeatState) floor cur
    us1 u us2 next :
  state !! floor = Some cur →
  seatReducer now state (PATCH_SEATS floor (us1 ++ u :: us2)) = Ok state' →
  patch u now (cur !! seatId u) = PFresh next →
  (∀ u', u' ∈ us2 → seatId u' = seatId u →
         isNoop (patch u' now (cur !! seatId u')) = true) →
  seatAt state' floor (seatId u) = Some next
  ∧ ∀ id, id ∉ map seatId (us1 ++ u :: us2) → seatAt state' floor id = cur !! id.
Proof.
  intros Hcur Hred Hnext Hlater.
  destruct (seatReducer_patch_ok _ _ _ _ _ _ Hcur Hred) as [Hl _].
  unfold seatAt. rewrite Hl. cbn [mbind option_bind]. split.
  - change (u :: us2) with ([u] ++ us2). rewrite app_assoc, writes_app.
    rewrite insertAll_app.
    rewrite insertAll_lookup_notin by (by apply writes_noop_keys).
    rewrite writes_app.
    replace (writes now cur [u]) with [(seatId u, next)]
      by (unfold writes; cbn; by rewrite Hnext).
    by rewrite insertAll_snoc, lookup_insert_eq.
  - intros id Hid. apply insertAll_lookup_notin. intros Hin. apply Hid.
    by eapply writes_keys.
Qed.

(** X3. The reducer never unloads a floor, and [PATCH_SEATS] neither loads a
    floor nor removes a seat: it can only rewrite or add seats on floors that
    are loaded. *)
Theorem reducer_keeps_floors_and_seats now (state state' : SeatState) action :
  seatReducer now state action = Ok state' →
  (∀ g, is_Some (state !! g) → is_Some (state' !! g))
  ∧ (∀ floor us, action = PATCH_SEATS floor us →
       (∀ g, is_Some (state' !! g) → is_Some (state !! g))
       ∧ ∀ g id, is_Some (seatAt state g id) → is_Some (seatAt state' g id)).
Proof.
  intros Hred. split.
  - intros g Hg. destruct (decide (g = actionFloor action)) as [->|Hne].
    + destruct action as [floor seats|floor us]; cbn in *.
      * injection Hred as <-. by rewrite lookup_insert_eq.
      * destruct Hg as [cur Hcur].
        destruct (seatReducer_patch_ok _ _ _ _ _ _ Hcur Hred) as [Hl _]. by rewrite Hl.
    + by rewrite (seatReducer_frame _ _ _ _ _ Hred Hne).
  - intros floor us ->. split.
    + intros g Hg. destruct (decide (g = floor)) as [->|Hne].
      * destruct (state !! floor) as [cur|] eqn:Hcur; [done|].
        rewrite (seatReducer_unloaded _ _ _ us Hcur) in Hred. injection Hred as <-.
        by rewrite Hcur in Hg.
      * by rewrite <- (seatReducer_frame _ _ _ _ g Hred Hne).
    + intros g id. unfold seatAt. destruct (decide (g = floor)) as [->|Hne].
      * destruct (state !! floor) as [cur|] eqn:Hcur; cbn [mbind option_bind];
          [|by intros [? ?]].
        destruct (seatReducer_patch_ok _ _ _ _ _ _ Hcur Hred) as [Hl _].
        rewrite Hl. cbn [mbind option_bind]. intros Hid.
        generalize (writes now cur us). intros ws.
        induction ws as [|[k v] ws IH] using rev_ind; [done|].
        rewrite insertAll_snoc. destruct (decide (k = id)) as [->|Hk].
        -- by rewrite lookup_insert_eq.
        -- by rewrite lookup_insert_ne.
      * by rewrite (seatReducer_frame _ _ _ _ g Hred Hne).
Qed.

(** X4. A [seat_update] event whose [at] is not a valid date makes the
    reducer throw when the client has the seat ([toISOString] of an invalid
    date); when the seat or its floor is not loaded the event is dropped
    without an error. *)
Theorem seat_update_invalid_date now (state : SeatState) clientId payload :
  Date_parse (ev_at payload) = None →
  seatReducer now state (onUpdate clientId payload)
  = match seatAt state (seatIdToFloor (ev_seat_id payload)) (ev_seat_id payload) with
    | Some _ => Err "Invalid time value"
    | None => Ok state
    end.
Proof.
  intros Hat. unfold onUpdate, seatAt. cbn.
  destruct (state !! seatIdToFloor (ev_seat_id payload)) as [cur|]; [|done].
  cbn. destruct (cur !! ev_seat_id payload); cbn; [by rewrite Hat|done].
Qed.

End ReducerMore.

(** ** Responses and live events *)

Section StreamMore.
Context `{JsRuntime}.

(** X5. The echo of this client's own hold and the answer to its hold
    request commute as far as the hold goes: whichever is applied first, the
    seat ends on HOLD for this client with the expiry of the answer (a
    non-empty [expire_at]); the echo keeps an expiry that is already
    recorded, and the answer overwrites the default an early echo put in. *)
Theorem own_hold_echo_commutes net w clientId seatIds e payload at_ seat :
  ev_seat_id payload ∈ seatIds →
  seatAt (w_state w) (seatIdToFloor (ev_seat_id payload)) (ev_seat_id payload) = Some seat →
  truthy e = true →
  ev_to payload = HOLD →
  ev_by payload = Some clientId →
  Date_parse (ev_at payload) = Some at_ →
  ∃ w1 w2 seat1 seat2,
    exec net (applyHoldResult clientId seatIds (Some e);;
              dispatch (onUpdate clientId payload)) w = (w1, Returned tt)
    ∧ exec net (dispatch (onUpdate clientId payload);;
                applyHoldResult clientId seatIds (Some e)) w = (w2, Returned tt)
    ∧ seatAt (w_state w1) (seatIdToFloor (ev_seat_id payload)) (ev_seat_id payload) = Some seat1
    ∧ seatAt (w_state w2) (seatIdToFloor (ev_seat_id payload)) (ev_seat_id payload) = Some seat2
    ∧ status seat1 = HOLD ∧ status seat2 = HOLD
    ∧ hold seat1 = HoldInfo {| client_id := clientId; expires_at := e |}
    ∧ hold seat2 = HoldInfo {| client_id := clientId; expires_at := e |}.
Proof.
  intros Hin Hseat He Hto Hby Hat.
  set (id := ev_seat_id payload) in *. set (f := seatIdToFloor id) in *.
  assert (Hexp : ∀ now, getExpireAtOrDefault now (Some e) = e)
    by (intros now; unfold getExpireAtOrDefault; by rewrite He).
  (* the answer first *)
  destruct (exec_applyHoldResult net clientId seatIds (Some e) w) as (stA & HexA & HlookA).
  destruct (seatReducer_onUpdate (w_now w) stA clientId payload at_ Hat)
    as (stA' & HredA & HlookA').
  (* the echo first *)
  destruct (seatReducer_onUpdate (w_now w) (w_state w) clientId payload at_ Hat)
    as (stB & HredB & HlookB).
  destruct (exec_applyHoldResult net clientId seatIds (Some e) (withState w stB))
    as (stB' & HexB & HlookB').
  exists (withState (withState w stA) stA'), (withState (withState w stB) stB').
  exists (onUpdateNext clientId payload (w_now w) at_
            (heldSeat clientId e (w_now w) seat)),
         (heldSeat clientId e (w_now w)
            (onUpdateNext clientId payload (w_now w) at_ seat)).
  split; [|split; [|split; [|split]]].
  - rewrite exec_bind, HexA, exec_dispatch. cbn [withState w_now w_state]. by rewrite HredA.
  - rewrite exec_bind, exec_dispatch, HredB. exact HexB.
  - cbn [withState w_state]. rewrite HlookA', HlookA, Hexp.
    rewrite !decide_True by done. by rewrite Hseat.
  - cbn [withState w_state]. rewrite HlookB'. cbn [withState w_state w_now].
    rewrite HlookB, Hexp. rewrite !decide_True by done. by rewrite Hseat.
  - unfold onUpdateNext, ownExpiry. rewrite Hto, Hby. cbn. rewrite String.eqb_refl, He.
    done.
Qed.

End StreamMore.

(** ** The handlers *)

Section HandlerMore.
Context `{JsRuntime}.

Lemma mkConfirm_lift now u (items : list string) :
  u ∈ map mkConfirm items →
  isNoop (patch u now None) = true ∧ ∀ s, patch u now (Some s) = PFresh (confirmedSeat now s).
Proof. by intros (id & -> & _)%list_elem_of_fmap. Qed.

(** [applyConfirm]: the seats named in [seatIds], looked up on the floor
    their id names, become SOLD without a hold. *)
Lemma exec_applyConfirm_effect net seatIds w :
  ∃ state',
    exec net (applyConfirm seatIds) w = (withState w state', Returned tt)
    ∧ ∀ f id,
        seatAt state' f id
        = if decide (id ∈ seatIds ∧ seatIdToFloor id = f)
          then confirmedSeat (w_now w) <$> seatAt (w_state w) f id
          else seatAt (w_state w) f id.
Proof.
  destruct seatIds as [|id0 ids0] eqn:Hids.
  { exists (w_state w). rewrite withState_same. split; [done|].
    intros f id. rewrite decide_False; [done|]. by intros [?%elem_of_nil _]. }
  rewrite <- Hids. assert (Hne : nonEmpty seatIds = true) by by rewrite Hids. clear Hids.
  destruct (exec_dispatchGroups net mkConfirm (groupAll seatIdToFloor seatIds) w)
    as (state' & Hexec & Hlook).
  { apply groupAll_NoDup. }
  { intros v o. by destruct o. }
  exists state'. split.
  { unfold applyConfirm. by rewrite Hne. }
  intros f id. unfold seatAt. rewrite Hlook, groupGet_groupAll.
  destruct (w_state w !! f) as [cur|]; cbn; [|by case_decide].
  rewrite (insertAll_writes_lift _ _ _ (confirmedSeat (w_now w))).
  2:{ intros u Hu. by apply (mkConfirm_lift _ _ _ Hu). }
  assert (Hiff : id ∈ map seatId (map mkConfirm (filter (λ v, seatIdToFloor v = f) seatIds))
                 ↔ id ∈ seatIds ∧ seatIdToFloor id = f).
  { rewrite <- list_fmap_compose. split.
    - by intros (x & -> & [Hf Hx]%list_elem_of_filter)%list_elem_of_fmap.
    - intros [Hin Hf]. apply list_elem_of_fmap. exists id. split; [done|].
      by apply list_elem_of_filter. }
  repeat case_decide; tauto.
Qed.

Lemma exec_request_now {X A} net (u0 u1 : Ui) (call : Z → Api X)
    (body : Z → X → Prog A) (handler : string → Prog A) w :
  exec net (finally_ (tryCatch (emit u0;; now ← dateNow;
                                response ← await (call now); body now response) handler)
              (emit u1)) w
  = exec net (finally_ (tryCatch (emit u0;; response ← await (call (w_now w));
                                  body (w_now w) response) handler)
                (emit u1)) w.
Proof. reflexivity. Qed.

(** X6. A confirm request that is answered: the seats of [confirmed] the
    client has become SOLD with their hold cleared, every other seat keeps
    its state (the seats of [skipped] are only named in a message), and the
    confirming flag is set around the request and reset at the end. *)
Theorem confirm_effect (r : Render) net w (response : ConfirmResponse) :
  adminEnabled r = false →
  nonEmpty (heldBySelf r) = true →
  respond net ConfirmResponse (length (w_fetched w))
    (confirmSeats (map seat_id (heldBySelf r)) (clientId r)
       (clientId r +:+ "-" +:+ intToString (w_now w))) = Ok response →
  ∃ w',
    exec net (handleConfirm r) w = (w', Returned tt)
    ∧ (∀ f id,
         seatAt (w_state w') f id
         = if decide (id ∈ confirmed response ∧ seatIdToFloor id = f)
           then confirmedSeat (w_now w') <$> seatAt (w_state w) f id
           else seatAt (w_state w) f id)
    ∧ (∀ now seat,
         status (confirmedSeat now seat) = SOLD ∧ hold (confirmedSeat now seat) = HoldNull)
    ∧ w_ui w'
      = w_ui w ++ [SetConfirming true]
        ++ (if nonEmpty (confirmed response) then [ShowMessage "售卖成功" ToneSuccess] else [])
        ++ (if nonEmpty (skipped response)
            then [ShowMessage ("部分座位未确认成功：" +:+ joinComma (skipped response)) ToneError]
            else [])
        ++ [SetConfirming false].
Proof.
  intros Hadmin Hheld Hresponse. unfold handleConfirm. rewrite Hadmin, Hheld. cbn [negb].
  set (call := confirmSeats (map seat_id (heldBySelf r)) (clientId r)
                 (clientId r +:+ "-" +:+ intToString (w_now w))) in *.
  rewrite (exec_request_now net (SetConfirming true) (SetConfirming false)
             (λ now, confirmSeats (map seat_id (heldBySelf r)) (clientId r)
                       (clientId r +:+ "-" +:+ intToString now))
             (λ now response,
                when_ (nonEmpty (confirmed response))
                  (applyConfirm (confirmed response);; showMessage "售卖成功" ToneSuccess);;
                when_ (nonEmpty (skipped response))
                  (showMessage ("部分座位未确认成功：" +:+ joinComma (skipped response))
                     ToneError))).
  fold call.
  rewrite exec_request. cbn [withUi w_fetched]. rewrite Hresponse.
  set (w1 := afterFetch net (withUi w (SetConfirming true)) call).
  rewrite exec_tryCatch.
  rewrite exec_bind, exec_when.
  destruct (exec_applyConfirm_effect net (confirmed response) w1) as (state' & Hexec & Hlook).
  destruct (nonEmpty (confirmed response)) eqn:Hconf.
  - rewrite exec_bind, Hexec, exec_showMessage, exec_when.
    destruct (nonEmpty (skipped response)); cbn -[seatAt confirmedSeat decide];
      (eexists; split; [reflexivity|]); cbn -[seatAt confirmedSeat decide];
      (split; [exact Hlook|]); (split; [done|]); by rewrite <- !app_assoc.
  - assert (Hnil : confirmed response = []) by (by destruct (confirmed response)).
    rewrite exec_when.
    destruct (nonEmpty (skipped response)); cbn -[seatAt confirmedSeat decide];
      (eexists; split; [reflexivity|]); cbn -[seatAt confirmedSeat decide];
      (split; [intros f id; rewrite Hnil; rewrite decide_False;
                 [done|by intros [?%elem_of_nil _]]|]);
      (split; [done|]); by rewrite <- !app_assoc.
Qed.

Lemma elem_of_Object_values (m : FloorMap) (seat : Seat) :
  seat ∈ Object_values m ↔ ∃ key, m !! key = Some seat.
Proof.
  unfold Object_values. rewrite list_elem_of_fmap. split.
  - intros ([key seat'] & -> & Hin). exists key. by apply elem_of_map_to_list.
  - intros [key Hkey]. exists (key, seat). split; [done|]. by apply elem_of_map_to_list.
Qed.

Lemma isHeldBy_spec clientId (seat : Seat) :
  isHeldBy clientId seat = true
  ↔ status seat = HOLD ∧ hold_client_id seat = Some clientId.
Proof.
  unfold isHeldBy. rewrite andb_true_iff. split.
  - intros [Hs Hc]. split; [by destruct (status seat)|].
    destruct (hold_client_id seat) as [c|]; [|done]. by apply String.eqb_eq in Hc as ->.
  - intros [-> ->]. split; [done|]. apply String.eqb_refl.
Qed.

Lemma renderedSeats_spec (r : Render) (seat : Seat) :
  seat ∈ renderedSeats r ↔ ∃ key, seatAt (seatState r) (currentFloor r) key = Some seat.
Proof.
  unfold renderedSeats, seatAt. rewrite elem_of_Object_values.
  destruct (seatState r !! currentFloor r) as [m|]; cbn; [done|].
  split; intros [key Hkey]; [by rewrite lookup_empty in Hkey|done].
Qed.

(** X7. The selection the release-all and confirm buttons act on is made of
    the seats of the displayed floor that are on HOLD for this client, and of
    nothing else: when the displayed floor has no such seat neither handler
    sends a request or changes anything, whatever this client holds on other
    floors. *)
Theorem selection_is_displayed_floor_only (r : Render) net w :
  (∀ seat,
     seat ∈ heldBySelf r
     ↔ (∃ key, seatAt (seatState r) (currentFloor r) key = Some seat)
       ∧ status seat = HOLD ∧ hold_client_id seat = Some (clientId r))
  ∧ ((∀ key seat,
        seatAt (seatState r) (currentFloor r) key = Some seat →
        isHeldBy (clientId r) seat = false) →
     exec net (handleReleaseAll r) w = (w, Returned tt)
     ∧ (adminEnabled r = false → exec net (handleConfirm r) w = (w, Returned tt))).
Proof.
  split.
  - intros seat. unfold heldBySelf.
    rewrite list_elem_of_In, filter_In, <- list_elem_of_In, renderedSeats_spec.
    by rewrite isHeldBy_spec.
  - intros Hnone.
    assert (Hnil : heldBySelf r = []).
    { unfold heldBySelf. destruct (List.filter _ _) as [|seat rest] eqn:Hf; [done|].
      assert (Hin : In seat (List.filter (isHeldBy (clientId r)) (renderedSeats r)))
        by (rewrite Hf; by left).
      apply filter_In in Hin as [Hin Hheld].
      apply list_elem_of_In, renderedSeats_spec in Hin as [key Hkey].
      by rewrite (Hnone key seat Hkey) in Hheld. }
    unfold handleReleaseAll, handleConfirm. rewrite Hnil. cbn [nonEmpty negb].
    split; [done|]. by intros ->.
Qed.

(** The request shape when body and handler always return. *)
Lemma exec_request_returns {X} net (u0 u1 : Ui) (call : Api X) (body : X → Prog unit)
    (handler : string → Prog unit) w :
  (∀ response w1, ∃ w2, exec net (body response) w1 = (w2, Returned tt)) →
  (∀ e w1, ∃ w2, exec net (handler e) w1 = (w2, Returned tt)) →
  ∃ w2,
    exec net (finally_ (tryCatch (emit u0;; response ← await call; body response) handler)
                (emit u1)) w
    = (withUi w2 u1, Returned tt).
Proof.
  intros Hbody Hhandler. rewrite exec_request.
  destruct (respond net X (length (w_fetched (withUi w u0))) call) as [response|e].
  - rewrite exec_tryCatch.
    destruct (Hbody response (afterFetch net (withUi w u0) call)) as [w2 ->]. by exists w2.
  - destruct (Hhandler e (afterFetch net (withUi w u0) call)) as [w2 ->]. by exists w2.
Qed.

Lemma exec_holdBody net clientId (response : HoldResponse) text w1 :
  ∃ w2,
    exec net (when_ (nonEmpty (held response) || nonEmpty (refreshed response))
                (applyHoldResult clientId (held response ++ refreshed response)
                   (expire_at response));;
              when_ (nonEmpty (conflicts response)) (showMessage text ToneError)) w1
    = (w2, Returned tt).
Proof.
  rewrite exec_bind.
  destruct (exec_applyHoldResponse net clientId response w1) as (state' & Hexec & _).
  unfold applyHoldResponse in Hexec. rewrite Hexec, exec_when.
  destruct (nonEmpty (conflicts response)); by eexists.
Qed.

(** X8. The handlers behind the seat map and the selection panel never fail:
    whatever the network answers, a click, a box selection, release-all and
    confirm return normally (they catch a failed request, and none of their
    patches throws), and when they sent a request the last thing they do is
    to reset their busy flag. *)
Theorem user_handlers_always_return (r : Render) net w :
  (∀ seat, ∃ w',
     exec net (handleSeatClick r seat) w = (w', Returned tt)
     ∧ (w_fetched w' = w_fetched w
        ∨ last (w_ui w') = Some (SetHolding false)
        ∨ last (w_ui w') = Some (SetReleasing false)))
  ∧ (∀ seatIds, ∃ w',
       exec net (handleBoxSelect r seatIds) w = (w', Returned tt)
       ∧ (w_fetched w' = w_fetched w ∨ last (w_ui w') = Some (SetHolding false)))
  ∧ (∃ w',
       exec net (handleReleaseAll r) w = (w', Returned tt)
       ∧ (w_fetched w' = w_fetched w ∨ last (w_ui w') = Some (SetReleasing false)))
  ∧ (∃ w',
       exec net (handleConfirm r) w = (w', Returned tt)
       ∧ (w_fetched w' = w_fetched w ∨ last (w_ui w') = Some (SetConfirming false))).
Proof.
  assert (Hmsg : ∀ text (e : string) w1, ∃ w2,
            exec net (showMessage (text +:+ e) ToneError) w1 = (w2, Returned tt))
    by (intros; by eexists).
  assert (Hlast : ∀ w2 u, last (w_ui (withUi w2 u)) = Some u)
    by (intros; cbn; apply last_snoc).
  split; [|split; [|split]].
  - intros seat. unfold handleSeatClick.
    destruct (adminEnabled r); [eexists; split; [reflexivity|by left]|].
    destruct (holding r); [eexists; split; [reflexivity|by left]|].
    destruct (SeatStatus_eqb (status seat) BLOCKED || SeatStatus_eqb (status seat) SOLD);
      [eexists; split; [reflexivity|by left]|].
    destruct (isHeldBy (clientId r) seat).
    { destruct (exec_request_returns net (SetReleasing true) (SetReleasing false)
                  (releaseSeats (Some [seat_id seat]) (clientId r))
                  (λ response, applyRelease (released response))
                  (λ err, showMessage ("释放失败：" +:+ err) ToneError) w) as [w2 Hexec].
      - intros response w1.
        destruct (exec_applyRelease net (released response) w1) as (st & Hst & _).
        by eexists.
      - intros e w1. apply Hmsg.
      - exists (withUi w2 (SetReleasing false)). split; [exact Hexec|].
        right. right. apply Hlast. }
    destruct (SeatStatus_eqb (status seat) AVAILABLE);
      [|eexists; split; [reflexivity|by left]].
    destruct (exec_request_returns net (SetHolding true) (SetHolding false)
                (holdSeats [seat_id seat] (clientId r))
                (λ response,
                   when_ (nonEmpty (held response) || nonEmpty (refreshed response))
                     (applyHoldResult (clientId r) (held response ++ refreshed response)
                        (expire_at response));;
                   when_ (nonEmpty (conflicts response))
                     (showMessage ("部分座位锁定失败：" +:+ joinComma (conflicts response))
                        ToneError))
                (λ err, showMessage ("锁定失败：" +:+ err) ToneError) w) as [w2 Hexec].
    + intros response w1. apply exec_holdBody.
    + intros e w1. apply Hmsg.
    + exists (withUi w2 (SetHolding false)). split; [exact Hexec|]. right. left. apply Hlast.
  - intros seatIds. unfold handleBoxSelect.
    destruct (adminEnabled r); [eexists; split; [reflexivity|by left]|].
    destruct (nonEmpty seatIds); cbn [negb]; [|eexists; split; [reflexivity|by left]].
    destruct (exec_request_returns net (SetHolding true) (SetHolding false)
                (holdSeats seatIds (clientId r))
                (λ response,
                   when_ (nonEmpty (held response) || nonEmpty (refreshed response))
                     (applyHoldResult (clientId r) (held response ++ refreshed response)
                        (expire_at response));;
                   when_ (nonEmpty (conflicts response))
                     (showMessage ("部分座位被他人占用：" +:+ joinComma (conflicts response))
                        ToneError))
                (λ err, showMessage ("批量锁定失败：" +:+ err) ToneError) w) as [w2 Hexec].
    + intros response w1. apply exec_holdBody.
    + intros e w1. apply Hmsg.
    + exists (withUi w2 (SetHolding false)). split; [exact Hexec|]. right. apply Hlast.
  - unfold handleReleaseAll.
    destruct (nonEmpty (heldBySelf r)); cbn [negb]; [|eexists; split; [reflexivity|by left]].
    destruct (exec_request_returns net (SetReleasing true) (SetReleasing false)
                (releaseSeats None (clientId r))
                (λ response, applyRelease (released response);;
                             showMessage "已释放全部座位" ToneSuccess)
                (λ err, showMessage ("释放失败：" +:+ err) ToneError) w) as [w2 Hexec].
    + intros response w1. rewrite exec_bind.
      destruct (exec_applyRelease net (released response) w1) as (st & -> & _).
      by eexists.
    + intros e w1. apply Hmsg.
    + exists (withUi w2 (SetReleasing false)). split; [exact Hexec|]. right. apply Hlast.
  - unfold handleConfirm.
    destruct (adminEnabled r); [eexists; split; [reflexivity|by left]|].
    destruct (nonEmpty (heldBySelf r)); cbn [negb]; [|eexists; split; [reflexivity|by left]].
    rewrite (exec_request_now net (SetConfirming true) (SetConfirming false)
               (λ now, confirmSeats (map seat_id (heldBySelf r)) (clientId r)
                         (clientId r +:+ "-" +:+ intToString now))
               (λ now response,
                  when_ (nonEmpty (confirmed response))
                    (applyConfirm (confirmed response);; showMessage "售卖成功" ToneSuccess);;
                  when_ (nonEmpty (skipped response))
                    (showMessage ("部分座位未确认成功：" +:+ joinComma (skipped response))
                       ToneError))).
    destruct (exec_request_returns net (SetConfirming true) (SetConfirming false)
                (confirmSeats (map seat_id (heldBySelf r)) (clientId r)
                   (clientId r +:+ "-" +:+ intToString (w_now w)))
                (λ response,
                   when_ (nonEmpty (confirmed response))
                     (applyConfirm (confirmed response);; showMessage "售卖成功" ToneSuccess);;
                   when_ (nonEmpty (skipped response))
                     (showMessage ("部分座位未确认成功：" +:+ joinComma (skipped response))
                        ToneError))
                (λ err, showMessage ("确认失败：" +:+ err) ToneError) w) as [w2 Hexec].
    + intros response w1. rewrite exec_bind, exec_when.
      destruct (exec_applyConfirm net (confirmed response) w1) as (st & Hst).
      destruct (nonEmpty (confirmed response)).
      * rewrite exec_bind, Hst, exec_showMessage, exec_when.
        destruct (nonEmpty (skipped response)); by eexists.
      * rewrite exec_when. destruct (nonEmpty (skipped response)); by eexists.
    + intros e w1. apply Hmsg.
    + exists (withUi w2 (SetConfirming false)). split; [exact Hexec|]. right. apply Hlast.
Qed.

(** X9. An answered box selection marks the seats the answer lists, not the
    seats that were asked for: every seat of [held] and [refreshed] the
    client has goes on HOLD for this client with one expiry, a requested seat
    the answer lists under [conflicts] (or not at all) keeps its state and
    the conflicts are only named in a message. *)
Theorem box_select_effect (r : Render) seatIds net w (response : HoldResponse) :
  adminEnabled r = false →
  nonEmpty seatIds = true →
  respond net HoldResponse (length (w_fetched w)) (holdSeats seatIds (clientId r))
  = Ok response →
  ∃ w',
    exec net (handleBoxSelect r seatIds) w = (w', Returned tt)
    ∧ (∀ f id,
         seatAt (w_state w') f id
         = if decide (id ∈ held response ++ refreshed response ∧ seatIdToFloor id = f)
           then heldSeat (clientId r)
                  (getExpireAtOrDefault (w_now w') (expire_at response)) (w_now w')
                  <$> seatAt (w_state w) f id
           else seatAt (w_state w) f id)
    ∧ w_ui w'
      = w_ui w ++ [SetHolding true]
        ++ (if nonEmpty (conflicts response)
            then [ShowMessage ("部分座位被他人占用：" +:+ joinComma (conflicts response))
                    ToneError]
            else [])
        ++ [SetHolding false].
Proof.
  intros Hadmin Hne Hresponse. unfold handleBoxSelect. rewrite Hadmin, Hne. cbn [negb].
  rewrite exec_request. cbn [withUi w_fetched]. rewrite Hresponse.
  set (w1 := afterFetch net (withUi w (SetHolding true)) (holdSeats seatIds (clientId r))).
  rewrite exec_tryCatch, exec_bind.
  destruct (exec_applyHoldResponse net (clientId r) response w1) as (state' & Hexec & Hlook).
  unfold applyHoldResponse in Hexec. rewrite Hexec, exec_when.
  destruct (nonEmpty (conflicts response)); cbn -[seatAt heldSeat decide getExpireAtOrDefault];
    (eexists; split; [reflexivity|]); cbn -[seatAt heldSeat decide getExpireAtOrDefault];
    (split; [exact Hlook|]); by rewrite <- !app_assoc.
Qed.

(** X10. A failed request of a user handler changes no seat: the handler
    shows the error text behind its own prefix, resets its busy flag and
    returns, and the seat state is what it was. *)
Theorem failed_request_changes_no_seat (r : Render) net w e :
  (∀ seatIds,
     adminEnabled r = false → nonEmpty seatIds = true →
     respond net HoldResponse (length (w_fetched w)) (holdSeats seatIds (clientId r)) = Err e →
     ∃ w',
       exec net (handleBoxSelect r seatIds) w = (w', Returned tt)
       ∧ w_state w' = w_state w
       ∧ w_ui w' = w_ui w ++ [ SetHolding true;
                               ShowMessage ("批量锁定失败：" +:+ e) ToneError;
                               SetHolding false ])
  ∧ (∀ seat,
       adminEnabled r = false → holding r = false → status seat = AVAILABLE →
       respond net HoldResponse (length (w_fetched w)) (holdSeats [seat_id seat] (clientId r))
       = Err e →
       ∃ w',
         exec net (handleSeatClick r seat) w = (w', Returned tt)
         ∧ w_state w' = w_state w
         ∧ w_ui w' = w_ui w ++ [ SetHolding true;
                                 ShowMessage ("锁定失败：" +:+ e) ToneError;
                                 SetHolding false ])
  ∧ (∀ seat,
       adminEnabled r = false → holding r = false → isHeldBy (clientId r) seat = true →
       respond net ReleaseResponse (length (w_fetched w))
         (releaseSeats (Some [seat_id seat]) (clientId r)) = Err e →
       ∃ w',
         exec net (handleSeatClick r seat) w = (w', Returned tt)
         ∧ w_state w' = w_state w
         ∧ w_ui w' = w_ui w ++ [ SetReleasing true;
                                 ShowMessage ("释放失败：" +:+ e) ToneError;
                                 SetReleasing false ])
  ∧ (nonEmpty (heldBySelf r) = true →
     respond net ReleaseResponse (length (w_fetched w)) (releaseSeats None (clientId r))
     = Err e →
     ∃ w',
       exec net (handleReleaseAll r) w = (w', Returned tt)
       ∧ w_state w' = w_state w
       ∧ w_ui w' = w_ui w ++ [ SetReleasing true;
                               ShowMessage ("释放失败：" +:+ e) ToneError;
                               SetReleasing false ])
  ∧ (adminEnabled r = false → nonEmpty (heldBySelf r) = true →
     respond net ConfirmResponse (length (w_fetched w))
       (confirmSeats (map seat_id (heldBySelf r)) (clientId r)
          (clientId r +:+ "-" +:+ intToString (w_now w))) = Err e →
     ∃ w',
       exec net (handleConfirm r) w = (w', Returned tt)
       ∧ w_state w' = w_state w
       ∧ w_ui w' = w_ui w ++ [ SetConfirming true;
                               ShowMessage ("确认失败：" +:+ e) ToneError;
                               SetConfirming false ]).
Proof.
  split; [|split; [|split; [|split]]].
  - intros seatIds Hadmin Hne Herr. unfold handleBoxSelect. rewrite Hadmin, Hne. cbn [negb].
    rewrite exec_request. cbn [withUi w_fetched]. rewrite Herr.
    eexists. split; [reflexivity|]. cbn. split; [done|]. by rewrite <- !app_assoc.
  - intros seat Hadmin Hholding Hstatus Herr. unfold handleSeatClick, isHeldBy.
    rewrite Hadmin, Hholding, Hstatus. cbn [SeatStatus_eqb orb andb].
    rewrite exec_request. cbn [withUi w_fetched]. rewrite Herr.
    eexists. split; [reflexivity|]. cbn. split; [done|]. by rewrite <- !app_assoc.
  - intros seat Hadmin Hholding Hheld Herr. unfold handleSeatClick.
    rewrite Hadmin, Hholding, Hheld.
    apply isHeldBy_spec in Hheld as [Hstatus _]. rewrite Hstatus. cbn [SeatStatus_eqb orb].
    rewrite exec_request. cbn [withUi w_fetched]. rewrite Herr.
    eexists. split; [reflexivity|]. cbn. split; [done|]. by rewrite <- !app_assoc.
  - intros Hheld Herr. unfold handleReleaseAll. rewrite Hheld. cbn [negb].
    rewrite exec_request. cbn [withUi w_fetched]. rewrite Herr.
    eexists. split; [reflexivity|]. cbn. split; [done|]. by rewrite <- !app_assoc.
  - intros Hadmin Hheld Herr. unfold handleConfirm. rewrite Hadmin, Hheld. cbn [negb].
    rewrite (exec_request_now net (SetConfirming true) (SetConfirming false)
               (λ now, confirmSeats (map seat_id (heldBySelf r)) (clientId r)
                         (clientId r +:+ "-" +:+ intToString now))
               (λ now response,
                  when_ (nonEmpty (confirmed response))
                    (applyConfirm (confirmed response);; showMessage "售卖成功" ToneSuccess);;
                  when_ (nonEmpty (skipped response))
                    (showMessage ("部分座位未确认成功：" +:+ joinComma (skipped response))
                       ToneError))).
    rewrite exec_request. cbn [withUi w_fetched]. rewrite Herr.
    eexists. split; [reflexivity|]. cbn. split; [done|]. by rewrite <- !app_assoc.
Qed.

(** X11. A failed admin request, single or bulk, is rethrown: the handler
    rejects with the normalized error text (the [detail] of a JSON error
    body, else the text itself), shows it behind the admin prefix, resets the
    saving flag and changes no seat. *)
Theorem failed_admin_request_rejects (r : Render) net w e :
  truthy (adminToken r) = true →
  (∀ seatId payload,
     respond net Seat (length (w_fetched w)) (adminUpdateSeat seatId payload (adminToken r))
     = Err e →
     ∃ w',
       exec net (handleAdminUpdate r seatId payload) w = (w', Rejected (normalizeErrorMessage e))
       ∧ w_state w' = w_state w
       ∧ w_ui w' = w_ui w ++ [ SetAdminSaving true;
                               ShowMessage ("管理员操作失败：" +:+ normalizeErrorMessage e)
                                 ToneError;
                               SetAdminSaving false ])
  ∧ (∀ seatIds payload,
       respond net AdminSeatBulkResponse (length (w_fetched w))
         (adminBulkUpdateSeats seatIds payload (adminToken r)) = Err e →
       ∃ w',
         exec net (handleAdminBulkUpdate r seatIds payload) w
         = (w', Rejected (normalizeErrorMessage e))
         ∧ w_state w' = w_state w
         ∧ w_ui w' = w_ui w ++ [ SetAdminSaving true;
                                 ShowMessage ("管理员操作失败：" +:+ normalizeErrorMessage e)
                                   ToneError;
                                 SetAdminSaving false ]).
Proof.
  intros Htoken. split.
  - intros seatId payload Herr. unfold handleAdminUpdate. rewrite Htoken. cbn [negb].
    rewrite exec_request. cbn [withUi w_fetched]. rewrite Herr.
    eexists. split; [reflexivity|]. cbn. split; [done|]. by rewrite <- !app_assoc.
  - intros seatIds payload Herr. unfold handleAdminBulkUpdate. rewrite Htoken. cbn [negb].
    rewrite exec_request. cbn [withUi w_fetched]. rewrite Herr.
    eexists. split; [reflexivity|]. cbn. split; [done|]. by rewrite <- !app_assoc.
Qed.

(** X12. An answered single admin update sends one request and writes the
    seat of the answer under the answer's own floor and id when that floor is
    loaded, whether or not the client had the seat; when the floor is not
    loaded the seat state is unchanged and, unlike the bulk update, the floor
    is not fetched. *)
Theorem admin_update_effect (r : Render) seatId payload net w (updated : Seat) :
  truthy (adminToken r) = true →
  respond net Seat (length (w_fetched w)) (adminUpdateSeat seatId payload (adminToken r))
  = Ok updated →
  ∃ w',
    exec net (handleAdminUpdate r seatId payload) w = (w', Returned tt)
    ∧ w_fetched w' = w_fetched w ++ [fetchOf (adminUpdateSeat seatId payload (adminToken r))]
    ∧ (∀ cur, w_state w !! floor updated = Some cur →
         w_state w' = <[floor updated := <[seat_id updated := updated]> cur]> (w_state w))
    ∧ (w_state w !! floor updated = None → w_state w' = w_state w)
    ∧ w_ui w' = w_ui w ++ [ SetAdminSaving true;
                            SetAdminActiveSeatId (seat_id updated);
                            AddAdminSelectedSeatId (seat_id updated);
                            ShowMessage "座位信息已更新" ToneSuccess;
                            SetAdminSaving false ].
Proof.
  intros Htoken Hresponse. unfold handleAdminUpdate. rewrite Htoken. cbn [negb].
  rewrite exec_request. cbn [withUi w_fetched]. rewrite Hresponse.
  rewrite exec_tryCatch, exec_bind, exec_dispatch.
  cbn [afterFetch withFetch withUi w_state w_now w_fetched w_ui].
  cbn [seatReducer].
  destruct (w_state w !! floor updated) as [cur|] eqn:Hcur.
  - cbn. eexists. split; [reflexivity|]. cbn. split; [done|].
    split; [by intros ? [= <-]|]. split; [done|]. by rewrite <- !app_assoc.
  - cbn. eexists. split; [reflexivity|]. cbn. split; [done|].
    split; [done|]. split; [done|]. by rewrite <- !app_assoc.
Qed.

Lemma plain_or_old (calls old : list FetchCall) call new :
  calls = old ++ new →
  Forall (λ c, headers c = plainHeaders) new →
  call ∈ calls → call ∈ old ∨ headers call = plainHeaders.
Proof.
  intros -> Hnew [Hold|Hin]%elem_of_app; [by left|right].
  by apply (proj1 (Forall_forall _ _) Hnew).
Qed.

(** X13. The requests of the user handlers never carry the admin token: every
    request a click, a box selection, release-all or confirm adds has the
    [Content-Type] header and no other, also when the render holds a
    token. *)
Theorem user_requests_carry_no_token (r : Render) net w call :
  (∀ seat, call ∈ w_fetched (exec net (handleSeatClick r seat) w).1 →
           call ∈ w_fetched w ∨ headers call = plainHeaders)
  ∧ (∀ seatIds, call ∈ w_fetched (exec net (handleBoxSelect r seatIds) w).1 →
                call ∈ w_fetched w ∨ headers call = plainHeaders)
  ∧ (call ∈ w_fetched (exec net (handleReleaseAll r) w).1 →
     call ∈ w_fetched w ∨ headers call = plainHeaders)
  ∧ (call ∈ w_fetched (exec net (handleConfirm r) w).1 →
     call ∈ w_fetched w ∨ headers call = plainHeaders).
Proof.
  split; [|split; [|split]].
  - intros seat. apply plain_or_old with (1 := handleSeatClick_requests r net w seat).
    destruct (adminEnabled r || holding r); [done|].
    destruct (status seat); try done; [by repeat constructor|].
    destruct (isHeldBy (clientId r) seat); [by repeat constructor|done].
  - intros seatIds. unfold handleBoxSelect.
    destruct (adminEnabled r); [by left|].
    destruct (nonEmpty seatIds); cbn [negb]; [|by left].
    apply plain_or_old with (new := [fetchOf (holdSeats seatIds (clientId r))]);
      [|by repeat constructor].
    apply exec_request_fetched; [|done].
    intros response. apply noAwait_bind; [|intros _; by apply noAwait_when].
    apply noAwait_when, noAwait_applyHoldResult.
  - unfold handleReleaseAll.
    destruct (nonEmpty (heldBySelf r)); cbn [negb]; [|by left].
    apply plain_or_old with (new := [fetchOf (releaseSeats None (clientId r))]);
      [|by repeat constructor].
    apply exec_request_fetched; [|done].
    intros response. apply noAwait_bind; [apply noAwait_applyRelease|done].
  - unfold handleConfirm.
    destruct (adminEnabled r); [by left|].
    destruct (nonEmpty (heldBySelf r)); cbn [negb]; [|by left].
    apply plain_or_old
      with (new := [fetchOf (confirmSeats (map seat_id (heldBySelf r)) (clientId r)
                               (clientId r +:+ "-" +:+ intToString (w_now w)))]);
      [|by repeat constructor].
    apply (exec_request_now_fetched net (SetConfirming true) (SetConfirming false)
             (λ now, confirmSeats (map seat_id (heldBySelf r)) (clientId r)
                       (clientId r +:+ "-" +:+ intToString now))
             (λ now response,
                when_ (nonEmpty (confirmed response))
                  (applyConfirm (confirmed response);; showMessage "售卖成功" ToneSuccess);;
                when_ (nonEmpty (skipped response))
                  (showMessage ("部分座位未确认成功：" +:+ joinComma (skipped response))
                     ToneError))).
    + intros now response. apply noAwait_bind; [|intros _; by apply noAwait_when].
      apply noAwait_when, noAwait_bind; [apply noAwait_applyConfirm|done].
    + done.
Qed.

End HandlerMore.

(** ** Derived values *)

Section DerivedMore.
Context `{JsRuntime}.

Lemma counts_snoc (seats : list Seat) (seat : Seat) :
  counts (seats ++ [seat]) = bump (counts seats) (status seat).
Proof. unfold counts. by rewrite fold_left_app. Qed.

(** X14. The status badges count every displayed seat once: the count of a
    status is the number of displayed seats with that status, and the four
    counts add up to the number of displayed seats. *)
Theorem counts_partition_seats (seats : list Seat) :
  (∀ s, countOf (counts seats) s
        = length (List.filter (λ seat, SeatStatus_eqb (status seat) s) seats))
  ∧ (n_AVAILABLE (counts seats) + n_HOLD (counts seats)
     + n_SOLD (counts seats) + n_BLOCKED (counts seats) = length seats)%nat.
Proof.
  induction seats as [|seat seats [IHs IHt]] using rev_ind; [by split; [intros []|]|].
  rewrite counts_snoc. split.
  - intros s. rewrite List.filter_app, length_app. specialize (IHs s).
    cbn [List.filter].
    destruct (status seat), s;
      cbn [bump countOf n_AVAILABLE n_HOLD n_SOLD n_BLOCKED SeatStatus_eqb length] in *;
      lia.
  - rewrite length_app.
    destruct (status seat);
      cbn [bump n_AVAILABLE n_HOLD n_SOLD n_BLOCKED length]; lia.
Qed.

Lemma nextExpire_snoc (held : list Seat) (seat : Seat) :
  nextExpire (held ++ [seat])
  = match expiryOf seat with
    | Some ts => Some (match nextExpire held with Some m => Z.min m ts | None => ts end)
    | None => nextExpire held
    end.
Proof.
  unfold nextExpire, expiryOf. rewrite fold_left_app. cbn.
  destruct (hold_expires_at seat) as [e|]; [|done].
  destruct (truthy e); [|done]. by destruct (Date_parse e).
Qed.

Lemma nextExpire_spec (held : list Seat) :
  match nextExpire held with
  | Some m =>
      (∃ seat, seat ∈ held ∧ expiryOf seat = Some m)
      ∧ ∀ seat ts, seat ∈ held → expiryOf seat = Some ts → m ≤ ts
  | None => ∀ seat, seat ∈ held → expiryOf seat = None
  end.
Proof.
  induction held as [|seat held IH] using rev_ind.
  - cbn. by intros seat ?%elem_of_nil.
  - rewrite nextExpire_snoc.
    assert (Hlast : seat ∈ held ++ [seat])
      by (apply elem_of_app; right; by apply list_elem_of_singleton).
    destruct (expiryOf seat) as [ts|] eqn:Hts.
    + destruct (nextExpire held) as [m|].
      * destruct IH as [(seat0 & Hin0 & Hm) Hmin]. split.
        -- destruct (Z.min_spec m ts) as [[_ ->]|[_ ->]].
           ++ exists seat0. split; [|done]. apply elem_of_app. by left.
           ++ by exists seat.
        -- intros seat' ts' [Hin| ->%list_elem_of_singleton]%elem_of_app Hts'.
           ++ specialize (Hmin seat' ts' Hin Hts'). lia.
           ++ rewrite Hts in Hts'. injection Hts' as <-. lia.
      * split; [by exists seat|].
        intros seat' ts' [Hin| ->%list_elem_of_singleton]%elem_of_app Hts'.
        -- by rewrite (IH seat' Hin) in Hts'.
        -- rewrite Hts in Hts'. injection Hts' as <-. lia.
    + destruct (nextExpire held) as [m|].
      * destruct IH as [(seat0 & Hin0 & Hm) Hmin]. split.
        -- exists seat0. split; [|done]. apply elem_of_app. by left.
        -- intros seat' ts' [Hin| ->%list_elem_of_singleton]%elem_of_app Hts'.
           ++ by apply (Hmin seat' ts').
           ++ by rewrite Hts in Hts'.
      * intros seat' [Hin| ->%list_elem_of_singleton]%elem_of_app; [by apply IH|done].
Qed.

(** X15. The countdown follows the earliest valid expiry among the seats
    held by this client: it is never negative, it never promises more than
    the time left of any such hold (so it is zero once one of them has
    expired), it is the whole seconds left until the earliest one, and it is
    zero when no held seat has a valid expiry. *)
Theorem countdown_follows_earliest_expiry now (held : list Seat) :
  0 ≤ remainingSeconds now held
  ∧ (∀ seat ts, seat ∈ held → expiryOf seat = Some ts →
       1000 * remainingSeconds now held ≤ Z.max 0 (ts - now))
  ∧ (∀ seat ts, seat ∈ held → expiryOf seat = Some ts → ts ≤ now →
       remainingSeconds now held = 0)
  ∧ ((∃ seat, seat ∈ held ∧ is_Some (expiryOf seat)) →
     ∃ seat ts,
       seat ∈ held ∧ expiryOf seat = Some ts
       ∧ (∀ seat' ts', seat' ∈ held → expiryOf seat' = Some ts' → ts ≤ ts')
       ∧ remainingSeconds now held = Z.max 0 ((ts - now) / 1000))
  ∧ ((∀ seat, seat ∈ held → expiryOf seat = None) → remainingSeconds now held = 0).
Proof.
  pose proof (nextExpire_spec held) as Hspec. unfold remainingSeconds.
  destruct (nextExpire held) as [m|].
  - destruct Hspec as [(seat0 & Hin0 & Hm) Hmin].
    pose proof (Z.div_mod (m - now) 1000 ltac:(lia)) as Hdiv.
    pose proof (Z.mod_pos_bound (m - now) 1000 ltac:(lia)) as Hmod.
    split; [lia|]. split; [|split; [|split]].
    + intros seat ts Hin Hts. specialize (Hmin seat ts Hin Hts). lia.
    + intros seat ts Hin Hts Hle. specialize (Hmin seat ts Hin Hts).
      assert ((m - now) / 1000 ≤ 0) by (apply Z.div_le_upper_bound; lia). lia.
    + intros _. exists seat0, m. done.
    + intros Hnone. by rewrite (Hnone seat0 Hin0) in Hm.
  - split; [done|]. split; [|split; [|split]].
    + intros. lia.
    + done.
    + intros (seat & Hin & [ts Hts]). by rewrite (Hspec seat Hin) in Hts.
    + done.
Qed.

(** X16. [ensureClientId] is stable: the id it returns is non-empty and is
    what [localStorage] holds afterwards, so every later call returns the
    same id and writes nothing; a stored non-empty id is returned as it is,
    and no other key of the storage is touched. *)
Theorem ensureClientId_stable (storage : gmap string string) uuid now uuid' now' :
  (∀ u, uuid = Some u → truthy u = true) →
  truthy (ensureClientId storage uuid now).1 = true
  ∧ (ensureClientId storage uuid now).2 !! clientIdKey
    = Some (ensureClientId storage uuid now).1
  ∧ ensureClientId (ensureClientId storage uuid now).2 uuid' now'
    = ensureClientId storage uuid now
  ∧ (∀ k, k ≠ clientIdKey → (ensureClientId storage uuid now).2 !! k = storage !! k)
  ∧ (∀ stored, storage !! clientIdKey = Some stored → truthy stored = true →
       ensureClientId storage uuid now = (stored, storage)).
Proof.
  intros Huuid.
  assert (Hgen : truthy (match uuid with
                         | Some u => u
                         | None => "client-" +:+ intToString now
                         end) = true).
  { destruct uuid as [u|]; [by apply Huuid|done]. }
  unfold ensureClientId.
  destruct (storage !! clientIdKey) as [stored|] eqn:Hstored.
  - destruct (truthy stored) eqn:Htruthy; cbn [fst snd].
    + rewrite Hstored, Htruthy. repeat split; try done. by intros ? [= <-].
    + rewrite lookup_insert_eq, Hgen. repeat split; try done.
      * intros k Hk. by rewrite lookup_insert_ne.
      * intros ? [= <-] ?. congruence.
  - cbn [fst snd]. rewrite lookup_insert_eq, Hgen. repeat split; try done.
    intros k Hk. by rewrite lookup_insert_ne.
Qed.

End DerivedMore.

(** ** Admin mode and the admin selection *)

Section AdminUiFacts.
Context `{JsRuntime}.
Variable trim : string -> string.
Variable toUpperCase : string -> string.

Lemma includes_spec (l : list string) x : includes l x = true ↔ x ∈ l.
Proof.
  unfold includes. rewrite existsb_exists. split.
  - intros (y & Hin & ->%String.eqb_eq). by apply list_elem_of_In.
  - intros Hin. exists x. split; [by apply list_elem_of_In|apply String.eqb_refl].
Qed.

Lemma elem_of_without (l : list string) x y : y ∈ without l x ↔ y ∈ l ∧ y ≠ x.
Proof.
  unfold without. rewrite list_elem_of_In, filter_In, <- list_elem_of_In.
  rewrite negb_true_iff, String.eqb_neq. done.
Qed.

Lemma NoDup_without (l : list string) x : NoDup l → NoDup (without l x).
Proof.
  induction 1 as [|y l Hy Hl IH]; [constructor|].
  unfold without in *. cbn. destruct (negb (String.eqb y x)); [|done].
  constructor; [|done]. intros [Hin _]%elem_of_without. done.
Qed.

Lemma NoDup_snoc_fresh (l : list string) x : NoDup l → x ∉ l → NoDup (l ++ [x]).
Proof.
  intros Hl Hx. apply NoDup_app. split; [done|]. split; [|apply NoDup_singleton].
  intros y Hy ->%list_elem_of_singleton. done.
Qed.

Lemma tokenInv_mount stored : tokenInv (mountAdmin stored).
Proof.
  unfold tokenInv, mountAdmin, adminEnabledEffect, tokenStorageEffect, initialAdminUi.
  cbn. destruct stored as [[|c rest]|]; cbn; done.
Qed.

Lemma tokenInv_round ses e : tokenInv ses → tokenInv (adminRound trim toUpperCase ses e).
Proof.
  destruct ses as [s stored]. unfold tokenInv, adminRound. cbn [ses_ui ses_stored].
  intros [Hen Hst].
  assert (Hsame : ∀ s', ui_adminEnabled s' = ui_adminEnabled s →
            ui_adminToken s' = ui_adminToken s →
            ui_adminEnabled
              (if negb (Bool.eqb (ui_adminEnabled s) (ui_adminEnabled s'))
               then adminEnabledEffect s' else s')
            = truthy (ui_adminToken
                        (if negb (Bool.eqb (ui_adminEnabled s) (ui_adminEnabled s'))
                         then adminEnabledEffect s' else s'))
            ∧ (if negb (Bool.eqb (ui_adminEnabled s) (ui_adminEnabled s'))
                  || negb (String.eqb (ui_adminToken s) (ui_adminToken s'))
               then tokenStorageEffect s' stored else stored)
              = if ui_adminEnabled
                     (if negb (Bool.eqb (ui_adminEnabled s) (ui_adminEnabled s'))
                      then adminEnabledEffect s' else s')
                then Some (ui_adminToken
                             (if negb (Bool.eqb (ui_adminEnabled s) (ui_adminEnabled s'))
                              then adminEnabledEffect s' else s'))
                else None).
  { intros s' He Ht. rewrite He, Ht, Bool.eqb_reflx, String.eqb_refl. cbn.
    by rewrite He, Ht. }
  destruct e as [value| | |seatId replaceSelection|seatId| |seatId|value];
    cbn [adminStep].
  - by apply Hsame.
  - unfold handleEnterAdmin.
    destruct (truthy (trim (ui_adminTokenInput s))) eqn:Htrim; cbn [negb].
    + cbn [ui_adminEnabled ui_adminToken]. unfold tokenStorageEffect, adminEnabledEffect.
      destruct (ui_adminEnabled s) eqn:Hs; cbn; rewrite ?Htrim; cbn.
      * split; [done|].
        destruct (String.eqb (ui_adminToken s) (trim (ui_adminTokenInput s))) eqn:Heq;
          cbn; [|done].
        apply String.eqb_eq in Heq. by rewrite Hst, Heq.
      * done.
    + by apply Hsame.
  - unfold handleExitAdmin, handleAdminClearSelection, tokenStorageEffect,
      adminEnabledEffect. cbn.
    destruct (ui_adminEnabled s) eqn:Hs; cbn; [done|].
    split; [done|]. rewrite Hst. by destruct (negb (String.eqb (ui_adminToken s) EmptyString)).
  - unfold handleAdminActivateSeat.
    destruct (negb (truthy (normalizeSeatId trim toUpperCase seatId))); by apply Hsame.
  - unfold handleAdminToggleSeat.
    destruct (negb (truthy (normalizeSeatId trim toUpperCase seatId))); by apply Hsame.
  - by apply Hsame.
  - by apply Hsame.
  - by apply Hsame.
Qed.

(** X17. Admin mode and the admin token go together: from the first render
    on and after any sequence of user actions, admin mode is on exactly when
    the token state is non-empty (so the token guard of the admin handlers
    cannot fire in admin mode), and [localStorage] holds that token exactly
    while admin mode is on. *)
Theorem admin_mode_has_token stored (events : list AdminEvent) :
  let ses := adminRun trim toUpperCase (mountAdmin stored) events in
  ui_adminEnabled (ses_ui ses) = truthy (ui_adminToken (ses_ui ses))
  ∧ ses_stored ses
    = if ui_adminEnabled (ses_ui ses) then Some (ui_adminToken (ses_ui ses)) else None.
Proof.
  cbn zeta. change (tokenInv (adminRun trim toUpperCase (mountAdmin stored) events)).
  unfold adminRun. induction events as [|e events IH] using rev_ind.
  - apply tokenInv_mount.
  - rewrite fold_left_app. by apply tokenInv_round.
Qed.

Lemma selectionInv_clear s : selectionInv (handleAdminClearSelection s).
Proof. split; [constructor|by right]. Qed.

Lemma selectionInv_effect s : selectionInv s → selectionInv (adminEnabledEffect s).
Proof.
  unfold adminEnabledEffect. destruct (negb (ui_adminEnabled s)); [|done].
  intros _. apply selectionInv_clear.
Qed.

Lemma selectionInv_step s e : selectionInv s → selectionInv (adminStep trim toUpperCase s e).
Proof.
  intros [Hnd Hact].
  destruct e as [value| | |seatId replaceSelection|seatId| |seatId|value];
    cbn [adminStep].
  - done.
  - unfold handleEnterAdmin. by destruct (negb (truthy (trim (ui_adminTokenInput s)))).
  - apply selectionInv_clear.
  - unfold handleAdminActivateSeat.
    set (normalized := normalizeSeatId trim toUpperCase seatId).
    destruct (negb (truthy normalized)); [done|].
    unfold selectionInv. cbn [ui_adminSelectedSeatIds ui_adminActiveSeatId].
    destruct (default true replaceSelection).
    + assert (Hone : NoDup [normalized] ∧ normalized ∈ [normalized])
        by (split; [apply NoDup_singleton|by apply list_elem_of_singleton]).
      destruct (ui_adminSelectedSeatIds s) as [|only [|second rest]]; try (split; [apply Hone|left; apply Hone]).
      destruct (String.eqb only normalized) eqn:Heq; [|split; [apply Hone|left; apply Hone]].
      apply String.eqb_eq in Heq as ->. split; [done|left; apply Hone].
    + destruct (includes (ui_adminSelectedSeatIds s) normalized) eqn:Hinc.
      * apply includes_spec in Hinc. by split; [|left].
      * assert (Hnot : normalized ∉ ui_adminSelectedSeatIds s)
          by (rewrite <- includes_spec; congruence).
        split; [by apply NoDup_snoc_fresh|].
        left. apply elem_of_app. right. by apply list_elem_of_singleton.
  - unfold handleAdminToggleSeat.
    set (normalized := normalizeSeatId trim toUpperCase seatId).
    destruct (negb (truthy normalized)); [done|].
    unfold selectionInv. cbn [ui_adminSelectedSeatIds ui_adminActiveSeatId].
    destruct (includes (ui_adminSelectedSeatIds s) normalized) eqn:Hinc; cbn [negb].
    + split; [by apply NoDup_without|].
      destruct (String.eqb (ui_adminActiveSeatId s) normalized) eqn:Hcur.
      * destruct (last (without (ui_adminSelectedSeatIds s) normalized)) as [x|] eqn:Hlast.
        -- left. cbn. apply last_Some in Hlast as [l' ->].
           apply elem_of_app. right. by apply list_elem_of_singleton.
        -- right. split; [done|]. by apply last_None.
      * apply String.eqb_neq in Hcur. left. apply elem_of_without. split; [|done].
        destruct Hact as [Hin|[_ Hnil]]; [done|].
        apply includes_spec in Hinc. rewrite Hnil in Hinc. by apply elem_of_nil in Hinc.
    + assert (Hnot : normalized ∉ ui_adminSelectedSeatIds s)
        by (rewrite <- includes_spec; congruence).
      split; [by apply NoDup_snoc_fresh|].
      left. apply elem_of_app. right. by apply list_elem_of_singleton.
  - apply selectionInv_clear.
  - unfold seatSaved, selectionInv. cbn [ui_adminSelectedSeatIds ui_adminActiveSeatId].
    destruct (includes (ui_adminSelectedSeatIds s) seatId) eqn:Hinc.
    + apply includes_spec in Hinc. by split; [|left].
    + assert (Hnot : seatId ∉ ui_adminSelectedSeatIds s)
        by (rewrite <- includes_spec; congruence).
      split; [by apply NoDup_snoc_fresh|].
      left. apply elem_of_app. right. by apply list_elem_of_singleton.
  - done.
Qed.

(** X18. The admin selection stays well formed under every sequence of user
    actions (activate, toggle, clear, a saved seat, entering and leaving admin
    mode): no seat id is selected twice, and the active seat is one of the
    selected seats, or the selection is empty and there is no active seat. *)
Theorem admin_selection_well_formed stored (events : list AdminEvent) :
  let s := ses_ui (adminRun trim toUpperCase (mountAdmin stored) events) in
  NoDup (ui_adminSelectedSeatIds s)
  ∧ (ui_adminActiveSeatId s ∈ ui_adminSelectedSeatIds s
     ∨ (ui_adminActiveSeatId s = EmptyString ∧ ui_adminSelectedSeatIds s = [])).
Proof.
  cbn zeta.
  change (selectionInv (ses_ui (adminRun trim toUpperCase (mountAdmin stored) events))).
  unfold adminRun. induction events as [|e events IH] using rev_ind.
  - cbn. apply selectionInv_effect. split; [constructor|by right].
  - rewrite fold_left_app. cbn [fold_left]. unfold adminRound at 1. cbn [ses_ui].
    destruct (negb _); [apply selectionInv_effect|]; by apply selectionInv_step.
Qed.

End AdminUiFacts.

(** ** The tier and status filters *)

Section FilterFacts.

(** The body the two toggles share, over any type with a boolean equality. *)
Lemma toggle_spec {A} (eqb : A → A → bool) (x : A) (prev : list A) :
  (∀ a b, eqb a b = true ↔ a = b) →
  NoDup prev → prev ≠ [] →
  let next :=
    if existsb (eqb x) prev then
      if Nat.eqb (length prev) 1 then prev
      else List.filter (λ y, negb (eqb y x)) prev
    else prev ++ [x] in
  next ≠ [] ∧ NoDup next
  ∧ (∀ y, y ≠ x → y ∈ next ↔ y ∈ prev)
  ∧ (x ∈ next ↔ x ∉ prev ∨ prev = [x]).
Proof.
  intros Heqb Hnd Hne. cbn zeta.
  assert (Hex : existsb (eqb x) prev = true ↔ x ∈ prev).
  { rewrite existsb_exists. split.
    - intros (y & Hin & ->%Heqb). by apply list_elem_of_In.
    - intros Hin. exists x. split; [by apply list_elem_of_In|by apply Heqb]. }
  assert (Hfilter : ∀ y, y ∈ List.filter (λ y, negb (eqb y x)) prev ↔ y ∈ prev ∧ y ≠ x).
  { intros y. rewrite list_elem_of_In, filter_In, <- list_elem_of_In, negb_true_iff.
    split; intros [Hin Hy]; (split; [done|]).
    - intros ->. assert (eqb x x = true) by (by apply Heqb). congruence.
    - destruct (eqb y x) eqn:E; [|done]. by apply Heqb in E. }
  destruct (existsb (eqb x) prev) eqn:Hx.
  - clear Hx. assert (Hx : x ∈ prev) by (by apply Hex). clear Hex.
    destruct (Nat.eqb (length prev) 1) eqn:Hlen.
    + apply Nat.eqb_eq in Hlen. destruct prev as [|y [|z rest]]; try done.
      apply list_elem_of_singleton in Hx as ->.
      split; [done|]. split; [done|]. split; [done|].
      split; [by right|]. intros _. by apply list_elem_of_singleton.
    + apply Nat.eqb_neq in Hlen. split; [|split; [|split]].
      * destruct prev as [|y [|z rest]]; try done.
        assert (Hyz : y ≠ z).
        { apply NoDup_cons in Hnd as [Hy _]. intros ->. apply Hy. by left. }
        destruct (eqb y x) eqn:Hyx; [apply Heqb in Hyx as ->|
          assert (Hy : y ≠ x) by (intros ->; assert (eqb x x = true) by (by apply Heqb);
                                  congruence)].
        -- intros Hnil. assert (Hz : z ∈ List.filter (λ y, negb (eqb y x)) (x :: z :: rest)).
           { apply Hfilter. split; [|done]. right. by left. }
           rewrite Hnil in Hz. by apply elem_of_nil in Hz.
        -- intros Hnil. assert (Hz : y ∈ List.filter (λ y, negb (eqb y x)) (y :: z :: rest)).
           { apply Hfilter. split; [by left|done]. }
           rewrite Hnil in Hz. by apply elem_of_nil in Hz.
      * clear Hfilter Hlen Hx Hne. induction Hnd as [|y l Hy Hl IH]; [constructor|].
        cbn. destruct (negb (eqb y x)); [|done].
        constructor; [|done].
        rewrite list_elem_of_In, filter_In, <- list_elem_of_In. by intros [? _].
      * intros y Hy. rewrite Hfilter. tauto.
      * rewrite Hfilter. split; [by intros [_ ?]|].
        intros [Hnot| ->]; [done|]. by cbn in Hlen.
  - assert (Hnot : x ∉ prev) by (intros Hin; by apply Hex in Hin).
    split; [by destruct prev|]. split; [|split].
    + apply NoDup_app. split; [done|]. split; [|apply NoDup_singleton].
      by intros y Hy ->%list_elem_of_singleton.
    + intros y Hy. rewrite elem_of_app, list_elem_of_singleton. tauto.
    + rewrite elem_of_app, list_elem_of_singleton. split; [by left|by right].
Qed.

Lemma SeatStatus_eqb_eq a b : SeatStatus_eqb a b = true ↔ a = b.
Proof. by destruct a, b. Qed.

(** X19. Toggling a tier or a status in the filter bar changes the
    membership of that one entry only and never unchecks the last checked
    entry: the filter set stays non-empty and duplicate-free, the toggled
    entry ends up checked exactly when it was unchecked before or was the
    only one checked. *)
Theorem toggle_never_empties_filter (tier : string) (status : SeatStatus)
    (tierFilters : list string) (statusFilters : list SeatStatus) :
  NoDup tierFilters → tierFilters ≠ [] →
  NoDup statusFilters → statusFilters ≠ [] →
  (toggleTier tier tierFilters ≠ [] ∧ NoDup (toggleTier tier tierFilters)
   ∧ (∀ t, t ≠ tier → t ∈ toggleTier tier tierFilters ↔ t ∈ tierFilters)
   ∧ (tier ∈ toggleTier tier tierFilters ↔ tier ∉ tierFilters ∨ tierFilters = [tier]))
  ∧ (toggleStatus status statusFilters ≠ [] ∧ NoDup (toggleStatus status statusFilters)
     ∧ (∀ s, s ≠ status → s ∈ toggleStatus status statusFilters ↔ s ∈ statusFilters)
     ∧ (status ∈ toggleStatus status statusFilters
        ↔ status ∉ statusFilters ∨ statusFilters = [status])).
Proof.
  intros Ht Htne Hs Hsne. split.
  - apply (toggle_spec String.eqb tier tierFilters String.eqb_eq Ht Htne).
  - apply (toggle_spec SeatStatus_eqb status statusFilters SeatStatus_eqb_eq Hs Hsne).
Qed.

End FilterFacts.

(** ** The live socket *)

Section SocketFacts.
Context `{JsRuntime}.
Variable locationProtocol locationHost : string.
Variable encodeURIComponent : string -> string.
Variable parseFrame : string -> option SeatUpdateEvent.

#[local] Abbreviation step :=
  (socketStep locationProtocol locationHost encodeURIComponent parseFrame).
#[local] Abbreviation run :=
  (socketRun locationProtocol locationHost encodeURIComponent parseFrame).

Lemma socketRun_snoc clientId start events e :
  run clientId start (events ++ [e])
  = let acc := run clientId start events in
    ((step clientId acc.1 e).1, acc.2 ++ (step clientId acc.1 e).2).
Proof.
  unfold socketRun. rewrite fold_left_app. cbn.
  by destruct (step clientId _ e).
Qed.

Lemma timerDelays_app out1 out2 : timerDelays (out1 ++ out2) = timerDelays out1 ++ timerDelays out2.
Proof. unfold timerDelays. apply omap_app. Qed.

Lemma step_retries clientId s e :
  0 ≤ retries s →
  0 ≤ retries (step clientId s e).1
  ∧ ∀ d, d ∈ timerDelays (step clientId s e).2 → 1000 ≤ d ≤ 5000.
Proof.
  intros Hr. destruct e; cbn.
  - split; [done|]. by intros d ?%elem_of_nil.
  - unfold onmessage. destruct (parseFrame data) as [m|]; cbn.
    + destruct (String.eqb (msg_event m) "seat_update"); cbn;
        [destruct (msg_payload m); cbn|]; (split; [done|]); by intros d ?%elem_of_nil.
    + split; [done|]. by intros d ?%elem_of_nil.
  - unfold onclose. destruct (stopped s); cbn.
    + split; [done|]. by intros d ?%elem_of_nil.
    + split; [lia|]. intros d ->%list_elem_of_singleton. lia.
  - split; [done|]. by intros d ?%elem_of_nil.
  - unfold connect. destruct (stopped s); cbn; (split; [done|]); by intros d ?%elem_of_nil.
  - split; [done|]. destruct (opened s); by intros d ?%elem_of_nil.
Qed.

(** X20. Reconnects back off linearly and are capped: every reconnect timer
    the subscription ever sets is between 1 and 5 seconds, and the k-th close
    since the last successful open (or since the start) schedules the
    reconnect after min(5000, 1000 k) milliseconds. *)
Theorem reconnect_backoff clientId :
  (∀ events d,
     d ∈ timerDelays
           (socketRun locationProtocol locationHost encodeURIComponent parseFrame clientId
              (subscribeSeatUpdates locationProtocol locationHost encodeURIComponent clientId)
              events).2 →
     1000 ≤ d ≤ 5000)
  ∧ (∀ s events,
       stopped s = false → retries s = 0 →
       forallb keepsRetrying events = true →
       timerDelays
         (socketRun locationProtocol locationHost encodeURIComponent parseFrame clientId
            (s, []) events).2
       = map (λ k, Z.min 5000 (1000 * Z.of_nat k)) (seq 1 (closes events))).
Proof.
  split.
  - intros events.
    assert (Hinv : 0 ≤ retries (run clientId (subscribeSeatUpdates locationProtocol
                                               locationHost encodeURIComponent clientId)
                                   events).1
                   ∧ ∀ d, d ∈ timerDelays
                                (run clientId (subscribeSeatUpdates locationProtocol
                                                 locationHost encodeURIComponent clientId)
                                   events).2 → 1000 ≤ d ≤ 5000).
    { induction events as [|e events [IHr IHd]] using rev_ind.
      - cbn. split; [done|]. by intros d ?%elem_of_nil.
      - rewrite socketRun_snoc. cbn zeta. cbn [fst snd].
        destruct (step_retries clientId _ e IHr) as [Hr Hd].
        split; [done|]. intros d. rewrite timerDelays_app.
        intros [Hin|Hin]%elem_of_app; [by apply IHd|by apply Hd]. }
    apply Hinv.
  - intros s events Hs Hr Hev.
    assert (Hinv : stopped (run clientId (s, []) events).1 = false
                   ∧ retries (run clientId (s, []) events).1 = Z.of_nat (closes events)
                   ∧ timerDelays (run clientId (s, []) events).2
                     = map (λ k, Z.min 5000 (1000 * Z.of_nat k)) (seq 1 (closes events))).
    { induction events as [|e events IH] using rev_ind; [done|].
      rewrite forallb_app in Hev. apply andb_true_iff in Hev as [Hev He].
      destruct (IH Hev) as (IHs & IHr & IHd). clear IH.
      rewrite socketRun_snoc. cbn zeta. cbn [fst snd].
      rewrite timerDelays_app, IHd. unfold closes in *. rewrite List.filter_app, length_app.
      set (acc := run clientId (s, []) events) in *.
      set (n := length (List.filter _ events)) in *.
      destruct e; cbn in He; try done; cbn [socketStep List.filter length].
      - unfold onmessage. destruct (parseFrame data) as [m|]; cbn.
        + destruct (String.eqb (msg_event m) "seat_update");
            [destruct (msg_payload m)|]; cbn; rewrite Nat.add_0_r, app_nil_r; done.
        + rewrite Nat.add_0_r, app_nil_r. done.
      - unfold onclose. rewrite IHs. cbn. split; [done|]. split; [lia|].
        rewrite seq_app, map_app. cbn. rewrite IHr. do 3 f_equal. lia.
      - cbn. rewrite Nat.add_0_r, app_nil_r. done.
      - unfold connect. rewrite IHs. cbn. rewrite Nat.add_0_r, app_nil_r. done. }
    apply Hinv.
Qed.

(** X21. After the unsubscription nothing reconnects: whatever callbacks
    the browser still invokes, no socket is opened and no reconnect timer is
    set, and the subscription stays stopped. *)
Theorem unsubscribe_stops_reconnecting clientId s events :
  let after :=
    socketRun locationProtocol locationHost encodeURIComponent parseFrame clientId
      ((unsubscribe s).1, []) events in
  stopped after.1 = true
  ∧ opened after.1 = opened s
  ∧ ∀ eff, eff ∈ after.2 → reconnects eff = false.
Proof.
  cbn zeta. induction events as [|e events (IHs & IHo & IHe)] using rev_ind.
  - cbn. split; [done|]. split; [done|]. by intros eff ?%elem_of_nil.
  - rewrite socketRun_snoc. cbn zeta. cbn [fst snd].
    set (acc := run clientId ((unsubscribe s).1, []) events) in *.
    assert (Hstep : stopped (step clientId acc.1 e).1 = true
                    ∧ opened (step clientId acc.1 e).1 = opened acc.1
                    ∧ ∀ eff, eff ∈ (step clientId acc.1 e).2 → reconnects eff = false).
    { destruct e; cbn.
      - split; [done|]. split; [done|]. by intros eff ->%list_elem_of_singleton.
      - unfold onmessage. destruct (parseFrame data) as [m|]; cbn.
        + destruct (String.eqb (msg_event m) "seat_update");
            [destruct (msg_payload m)|]; cbn; (split; [done|]); (split; [done|]);
            intros eff Heff; try (by apply elem_of_nil in Heff);
            by apply list_elem_of_singleton in Heff as ->.
        + split; [done|]. split; [done|]. by intros eff ->%list_elem_of_singleton.
      - unfold onclose. rewrite IHs. cbn. split; [done|]. split; [done|].
        by intros eff ?%elem_of_nil.
      - split; [done|]. split; [done|]. by intros eff ->%list_elem_of_singleton.
      - unfold connect. rewrite IHs. cbn. split; [done|]. split; [done|].
        by intros eff ?%elem_of_nil.
      - split; [done|]. split; [done|]. destruct (opened acc.1); intros eff Heff;
          [by apply elem_of_nil in Heff|by apply list_elem_of_singleton in Heff as ->]. }
    destruct Hstep as (Hs & Ho & He).
    split; [done|]. split; [by rewrite Ho|].
    intros eff [Hin|Hin]%elem_of_app; [by apply IHe|by apply He].
Qed.

End SocketFacts.

(** ** The display position of a seat *)

Section SeatPositionFacts.
#[local] Existing Instance intRuntime.



End SeatPositionFacts.

(** ** The countdown text *)

Section CountdownFacts.

Lemma padStart_twoDigits (n : Z) :
  0 ≤ n < 100 → padStart 2 "0" (intToString n) = twoDigits n.
Proof.
  intros Hn.
  assert (Hall : forallb (λ k, String.eqb (padStart 2 "0" (intToString (Z.of_nat k)))
                                 (twoDigits (Z.of_nat k))) (seq 0 100) = true)
    by (vm_compute; reflexivity).
  rewrite forallb_forall in Hall. specialize (Hall (Z.to_nat n)).
  rewrite Z2Nat.id in Hall by lia. apply String.eqb_eq, Hall, in_seq. lia.
Qed.

Lemma digitChar_code (d : Z) : 0 ≤ d ≤ 9 → nat_of_ascii (digitChar d) = (48 + Z.to_nat d)%nat.
Proof. intros Hd. unfold digitChar. apply nat_ascii_embedding. lia. Qed.

Lemma digitChar_inj (a b : Z) : 0 ≤ a ≤ 9 → 0 ≤ b ≤ 9 → digitChar a = digitChar b → a = b.
Proof.
  intros Ha Hb Heq. apply (f_equal nat_of_ascii) in Heq.
  rewrite !digitChar_code in Heq by done. lia.
Qed.

Lemma twoDigits_inj (a b : Z) : 0 ≤ a < 100 → 0 ≤ b < 100 → twoDigits a = twoDigits b → a = b.
Proof.
  intros Ha Hb [= Htens Hones].
  assert (Hta : 0 ≤ a / 10 ≤ 9).
  { split; [apply Z.div_pos; lia|].
    assert (a / 10 < 10) by (apply Z.div_lt_upper_bound; lia). lia. }
  assert (Htb : 0 ≤ b / 10 ≤ 9).
  { split; [apply Z.div_pos; lia|].
    assert (b / 10 < 10) by (apply Z.div_lt_upper_bound; lia). lia. }
  pose proof (Z.mod_pos_bound a 10 ltac:(lia)).
  pose proof (Z.mod_pos_bound b 10 ltac:(lia)).
  apply digitChar_inj in Htens; [|done..].
  apply digitChar_inj in Hones; [|lia..].
  rewrite (Z.div_mod a 10), (Z.div_mod b 10) by lia. lia.
Qed.

Lemma append_twoDigits_inj (a b : Z) (x y : string) :
  twoDigits a +:+ x = twoDigits b +:+ y → twoDigits a = twoDigits b ∧ x = y.
Proof.
  unfold twoDigits. cbn [append]. intros [= Htens Hones Hrest].
  cbn in Hrest. by rewrite Htens, Hones.
Qed.

(** X24. The countdown reads "expired" exactly when no whole second is left,
    and otherwise, below 100 minutes, minutes and seconds in two digits each
    around a colon; distinct remaining times below 100 minutes read
    differently. *)
Theorem countdown_text (seconds : Z) :
  (seconds ≤ 0 → formatSeconds seconds = "已过期")
  ∧ (0 < seconds < 6000 →
     formatSeconds seconds = twoDigits (seconds / 60) +:+ ":" +:+ twoDigits (seconds mod 60)
     ∧ formatSeconds seconds ≠ "已过期"
     ∧ ∀ other, 0 < other < 6000 → formatSeconds other = formatSeconds seconds →
                other = seconds).
Proof.
  assert (Hfmt : ∀ s, 0 < s < 6000 →
            formatSeconds s = twoDigits (s / 60) +:+ ":" +:+ twoDigits (s mod 60)).
  { intros s Hs. unfold formatSeconds. rewrite (proj2 (Z.leb_gt s 0)) by lia.
    rewrite !padStart_twoDigits; [done|pose proof (Z.mod_pos_bound s 60); lia|].
    split; [apply Z.div_pos; lia|apply Z.div_lt_upper_bound; lia]. }
  split.
  - intros Hle. unfold formatSeconds. by rewrite (proj2 (Z.leb_le seconds 0)).
  - intros Hs. split; [by apply Hfmt|]. split.
    + rewrite (Hfmt seconds Hs). unfold twoDigits. cbn [append]. intros Heq.
      injection Heq as Hc _.
      apply (f_equal nat_of_ascii) in Hc. rewrite digitChar_code in Hc.
      * cbn in Hc. lia.
      * assert (0 ≤ seconds / 60) by (apply Z.div_pos; lia).
        assert (seconds / 60 < 100) by (apply Z.div_lt_upper_bound; lia).
        split; [apply Z.div_pos; lia|].
        assert (seconds / 60 / 10 < 10) by (apply Z.div_lt_upper_bound; lia). lia.
    + intros other Ho. rewrite (Hfmt seconds Hs), (Hfmt other Ho).
      intros [Hmm Hrest]%append_twoDigits_inj.
      apply (append_inj_r ":") in Hrest. rename Hrest into Hss.
      apply twoDigits_inj in Hmm;
        [|split; [apply Z.div_pos; lia|apply Z.div_lt_upper_bound; lia]..].
      apply twoDigits_inj in Hss;
        [|pose proof (Z.mod_pos_bound other 60); lia
         |pose proof (Z.mod_pos_bound seconds 60); lia].
      rewrite (Z.div_mod other 60), (Z.div_mod seconds 60) by lia. lia.
Qed.

End CountdownFacts.

(** ** The admin form *)

Section AdminPanelFacts.
#[local] Existing Instance intRuntime.
Variable trim : string -> string.


End AdminPanelFacts.

(** ** Examples on the sample data *)

Section MoreExamples.
#[local] Existing Instance intRuntime.

Lemma patch_seats_last_write_wins_witness :
  ∃ state',
    seatReducer sampleNow sampleState
      (PATCH_SEATS (Some 1)
         [mkRelease "1-1-A"; mkHold "c1" ("1-1-A", sampleExpiry); keepSeat "1-1-A"])
    = Ok state'
    ∧ seatAt state' (Some 1) "1-1-A"
      = Some (heldSeat "c1" sampleExpiry sampleNow (sampleSeat "1-1-A" 1 AVAILABLE HoldNull))
    ∧ seatAt state' (Some 1) "1-1-B" = Some (sampleSeat "1-1-B" 1 AVAILABLE HoldNull).
Proof.
  assert (Hred : ∃ state',
            seatReducer sampleNow sampleState
              (PATCH_SEATS (Some 1)
                 [mkRelease "1-1-A"; mkHold "c1" ("1-1-A", sampleExpiry); keepSeat "1-1-A"])
            = Ok state') by (eexists; reflexivity).
  destruct Hred as [state' Hred].
  destruct (patch_seats_last_write_wins sampleNow sampleState state' (Some 1)
              (seatsToMap sampleSnapshot) [mkRelease "1-1-A"]
              (mkHold "c1" ("1-1-A", sampleExpiry)) [keepSeat "1-1-A"]
              (heldSeat "c1" sampleExpiry sampleNow (sampleSeat "1-1-A" 1 AVAILABLE HoldNull)))
    as [Hlast Hframe].
  - reflexivity.
  - exact Hred.
  - reflexivity.
  - intros u' ->%list_elem_of_singleton _. reflexivity.
  - exists state'. split; [exact Hred|]. split; [exact Hlast|].
    rewrite Hframe; [reflexivity|].
    intros Hin. repeat (apply elem_of_cons in Hin as [Hin|Hin]; [discriminate Hin|]).
    by apply elem_of_nil in Hin.
Defined.

Lemma reducer_keeps_floors_and_seats_witness :
  ∃ state',
    seatReducer sampleNow sampleState (PATCH_SEATS (Some 1) [mkRelease "1-1-A"]) = Ok state'
    ∧ is_Some (state' !! Some 1)
    ∧ is_Some (seatAt state' (Some 1) "1-1-A")
    ∧ is_Some (seatAt state' (Some 1) "1-1-B").
Proof.
  assert (Hred : ∃ state',
            seatReducer sampleNow sampleState (PATCH_SEATS (Some 1) [mkRelease "1-1-A"])
            = Ok state') by (eexists; reflexivity).
  destruct Hred as [state' Hred].
  destruct (reducer_keeps_floors_and_seats sampleNow sampleState state' _ Hred)
    as [Hfloors Hpatch].
  destruct (Hpatch _ _ eq_refl) as [_ Hseats].
  exists state'. split; [exact Hred|]. split; [|split].
  - apply Hfloors. exists (seatsToMap sampleSnapshot). reflexivity.
  - apply Hseats. exists (sampleSeat "1-1-A" 1 AVAILABLE HoldNull). reflexivity.
  - apply Hseats. exists (sampleSeat "1-1-B" 1 AVAILABLE HoldNull). reflexivity.
Defined.

Lemma seat_update_invalid_date_witness :
  seatReducer sampleNow sampleState (onUpdate "c1" undatedEvent) = Err "Invalid time value"
  ∧ seatReducer sampleNow ∅ (onUpdate "c1" undatedEvent) = Ok ∅.
Proof.
  assert (Hat : Date_parse (ev_at undatedEvent) = None) by reflexivity.
  split.
  - rewrite (seat_update_invalid_date sampleNow sampleState "c1" undatedEvent Hat).
    reflexivity.
  - rewrite (seat_update_invalid_date sampleNow ∅ "c1" undatedEvent Hat).
    reflexivity.
Defined.

Lemma own_hold_echo_commutes_witness :
  ∃ w1 w2 seat1 seat2,
    exec (holdNet nullExpiryResponse)
      (applyHoldResult "c1" ["1-1-A"] (Some sampleExpiry);; dispatch (onUpdate "c1" ownEcho))
      sampleWorld = (w1, Returned tt)
    ∧ exec (holdNet nullExpiryResponse)
        (dispatch (onUpdate "c1" ownEcho);; applyHoldResult "c1" ["1-1-A"] (Some sampleExpiry))
        sampleWorld = (w2, Returned tt)
    ∧ seatAt (w_state w1) (Some 1) "1-1-A" = Some seat1
    ∧ seatAt (w_state w2) (Some 1) "1-1-A" = Some seat2
    ∧ status seat1 = HOLD ∧ status seat2 = HOLD
    ∧ hold seat1 = HoldInfo {| client_id := "c1"; expires_at := sampleExpiry |}
    ∧ hold seat2 = HoldInfo {| client_id := "c1"; expires_at := sampleExpiry |}.
Proof.
  apply (own_hold_echo_commutes (holdNet nullExpiryResponse) sampleWorld "c1" ["1-1-A"]
           sampleExpiry ownEcho sampleNow (sampleSeat "1-1-A" 1 AVAILABLE HoldNull)).
  - constructor.
  - reflexivity.
  - reflexivity.
  - reflexivity.
  - reflexivity.
  - reflexivity.
Defined.

Lemma confirm_effect_witness :
  ∃ w',
    exec confirmNet (handleConfirm heldRender) heldWorld = (w', Returned tt)
    ∧ (status <$> seatAt (w_state w') (Some 1) "1-1-A") = Some SOLD
    ∧ (hold <$> seatAt (w_state w') (Some 1) "1-1-A") = Some HoldNull
    ∧ seatAt (w_state w') (Some 1) "1-1-B" = seatAt heldState (Some 1) "1-1-B"
    ∧ w_ui w' = [ SetConfirming true; ShowMessage "售卖成功" ToneSuccess; SetConfirming false ].
Proof.
  destruct (confirm_effect heldRender confirmNet heldWorld
              {| confirmed := ["1-1-A"]; skipped := [] |})
    as (w' & Hexec & Hlook & _ & Hui); [reflexivity|reflexivity|reflexivity|].
  exists w'. split; [exact Hexec|]. rewrite !Hlook.
  split; [reflexivity|]. split; [reflexivity|]. split; [reflexivity|]. exact Hui.
Defined.

Lemma box_select_effect_witness :
  ∃ w',
    exec (holdNet conflictResponse) (handleBoxSelect sampleRender ["1-1-A"; "1-1-B"])
      sampleWorld = (w', Returned tt)
    ∧ (status <$> seatAt (w_state w') (Some 1) "1-1-A") = Some HOLD
    ∧ seatAt (w_state w') (Some 1) "1-1-B" = seatAt sampleState (Some 1) "1-1-B"
    ∧ w_ui w' = [ SetHolding true;
                  ShowMessage "部分座位被他人占用：1-1-B" ToneError;
                  SetHolding false ].
Proof.
  destruct (box_select_effect sampleRender ["1-1-A"; "1-1-B"] (holdNet conflictResponse)
              sampleWorld conflictResponse) as (w' & Hexec & Hlook & Hui);
    [reflexivity|reflexivity|reflexivity|].
  exists w'. split; [exact Hexec|]. rewrite !Hlook.
  split; [reflexivity|]. split; [reflexivity|]. exact Hui.
Defined.

Lemma failed_request_changes_no_seat_witness :
  ∃ w',
    exec (failNet "503") (handleBoxSelect sampleRender ["1-1-A"; "1-1-B"]) sampleWorld
    = (w', Returned tt)
    ∧ w_state w' = sampleState
    ∧ w_ui w' = [ SetHolding true; ShowMessage "批量锁定失败：503" ToneError; SetHolding false ].
Proof.
  destruct (failed_request_changes_no_seat sampleRender (failNet "503") sampleWorld "503")
    as (Hbox & _).
  apply (Hbox ["1-1-A"; "1-1-B"]); reflexivity.
Defined.

Lemma failed_admin_request_rejects_witness :
  ∃ w',
    exec (failNet forbiddenBody) (handleAdminUpdate adminRender "1-1-A" soldPayload) sampleWorld
    = (w', Rejected "forbidden")
    ∧ w_state w' = sampleState
    ∧ w_ui w' = [ SetAdminSaving true;
                  ShowMessage "管理员操作失败：forbidden" ToneError;
                  SetAdminSaving false ].
Proof.
  destruct (failed_admin_request_rejects adminRender (failNet forbiddenBody) sampleWorld
              forbiddenBody eq_refl) as [Hsingle _].
  apply (Hsingle "1-1-A" soldPayload). reflexivity.
Defined.

Lemma admin_update_effect_witness :
  ∃ w',
    exec singleNet (handleAdminUpdate adminRender "1-1-A" soldPayload) sampleWorld
    = (w', Returned tt)
    ∧ w_fetched w' = [fetchOf (adminUpdateSeat "1-1-A" soldPayload "secret")]
    ∧ seatAt (w_state w') (Some 1) "1-1-A" = Some (sampleSeat "1-1-A" 1 SOLD HoldNull)
    ∧ seatAt (w_state w') (Some 1) "1-1-B" = Some (sampleSeat "1-1-B" 1 AVAILABLE HoldNull).
Proof.
  destruct (admin_update_effect adminRender "1-1-A" soldPayload singleNet sampleWorld
              (sampleSeat "1-1-A" 1 SOLD HoldNull) eq_refl eq_refl)
    as (w' & Hexec & Hfetched & Hloaded & _).
  exists w'. split; [exact Hexec|]. split; [exact Hfetched|].
  rewrite (Hloaded (seatsToMap sampleSnapshot) eq_refl).
  split; reflexivity.
Defined.

Lemma countdown_text_witness :
  formatSeconds 90 = "01:30" ∧ formatSeconds 0 = "已过期" ∧ formatSeconds 90 ≠ formatSeconds 0.
Proof.
  destruct (countdown_text 90) as [_ Hshown].
  destruct (countdown_text 0) as [Hexpired _].
  destruct Hshown as (Hfmt & Hne & _); [lia|].
  split; [rewrite Hfmt; reflexivity|]. split; [apply Hexpired; lia|].
  rewrite (Hexpired ltac:(lia)). exact Hne.
Defined.


Lemma ensureClientId_stable_witness :
  ensureClientId ∅ None sampleNow
  = ("client-1704067200000", {[ clientIdKey := "client-1704067200000" ]})
  ∧ ensureClientId (ensureClientId ∅ None sampleNow).2 (Some "other") (sampleNow + 5)
    = ensureClientId ∅ None sampleNow.
Proof.
  destruct (ensureClientId_stable ∅ None sampleNow (Some "other") (sampleNow + 5))
    as (_ & _ & Hstable & _).
  - intros u Hu. discriminate Hu.
  - split; [reflexivity|exact Hstable].
Defined.

Lemma toggle_never_empties_filter_witness :
  toggleTier "VIP" ["VIP"] = ["VIP"]
  ∧ toggleTier "VIP" ["VIP"] ≠ []
  ∧ toggleStatus SOLD [SOLD; HOLD] = [HOLD]
  ∧ toggleStatus SOLD [SOLD; HOLD] ≠ [].
Proof.
  destruct (toggle_never_empties_filter "VIP" SOLD ["VIP"] [SOLD; HOLD])
    as [(Htier & _) (Hstatus & _)].
  - apply NoDup_singleton.
  - discriminate.
  - constructor; [|apply NoDup_singleton].
    intros Hin%list_elem_of_singleton. discriminate Hin.
  - discriminate.
  - split; [reflexivity|]. split; [exact Htier|]. split; [reflexivity|exact Hstatus].
Defined.

Lemma reconnect_backoff_witness :
  timerDelays
    (socketRun "https:" "seats.example" (λ s, s) (λ _, None) "c1" (sampleSubscription, [])
       [SocketClosed; TimerFired; SocketErrored; SocketClosed; TimerFired; SocketClosed]).2
  = [1000; 2000; 3000].
Proof.
  destruct (reconnect_backoff "https:" "seats.example" (λ s, s) (λ _, None) "c1")
    as [_ Hseq].
  rewrite (Hseq sampleSubscription
             [SocketClosed; TimerFired; SocketErrored; SocketClosed; TimerFired; SocketClosed]
             eq_refl eq_refl eq_refl).
  reflexivity.
Defined.



End MoreExamples.
